(** * Risk & Quality Issue Tracker: the analytics engine of [risk_analyzer.py]

    A shallow embedding of class [RiskAnalyzer] and the properties of its
    scoring, selection and register-building stages.

    Cells.  [pd.read_csv] leaves a blank or NA-like field as a missing
    value, so every cell of the loaded table is optional: [None] is the NaN
    of the frame.  What pandas does with missing values is part of the
    model: [groupby] drops the rows whose key is missing, ['count'] counts
    the values present, the reductions skip NaN, and a comparison with NaN
    is false.

    Numbers.  The source computes on binary64 columns.  The scoring stage
    is embedded twice.  [Binary64] has it on the kernel's binary64 floats,
    with the operations in the order of the source and the library
    routines as they compute: [np.round] (scale, [rint], unscale), the
    Kahan sum of the grouped mean, numpy's percentile; what the claims say
    about the numbers themselves is stated there.  [RiskAnalyzer] has the
    whole class on exact rationals ([Q]): a finite float is the rational it
    denotes and arithmetic is exact, so its theorems speak about which rows
    there are, their counts, their order and their bounds, not about
    rounding error.  A quotient of two counts can also be infinite, see
    [Num.xcell].

    Library calls.  [groupby], [quantile], [reindex], [sort_values] are
    pandas functions, embedded here by their documented behaviour.  The
    default sort kind of [sort_values] is numpy's quicksort, which is not
    stable: it enters the model as the interface [ArgSort], of which the
    contract is a permutation of the positions that puts the keys in
    non-decreasing order.  [Quicksort] is numpy's own routine, an instance
    of the interface; on at most 17 keys it is an insertion sort, as the
    stable instance [Sorts] is.

    Scope.  The analysis methods, the report printer, the run and [main]
    are embedded with the state they read and write ([self.df],
    [self.risk_summary], the printed lines, the file written).
    [export_results] is left out. *)

From Stdlib Require Import String Ascii QArith Qround Qabs ZArith Bool Lia List.
From Stdlib Require Import Permutation Sorted Morphisms.
From Stdlib Require Import Floats.
From Stdlib Require Uint63.
Import ListNotations.

Open Scope Q_scope.

(** ** Numeric layer *)

Module Num.

(** A float cell of a frame: [None] is NaN. *)
Definition cell := option Q.

(** A float cell that can also be infinite.  Dividing one integer column
    by another is a float division: a positive count over 0 is [inf], 0
    over 0 is NaN. *)
Inductive xcell : Type :=
| Fin (x : Q)
| Inf
| NaN.

Definition xmap (f : Q -> Q) (c : xcell) : xcell :=
  match c with
  | Fin x => Fin (f x)
  | Inf => Inf
  | NaN => NaN
  end.

(** ['count']: the number of values present. *)
Fixpoint count {A : Type} (cs : list (option A)) : nat :=
  match cs with
  | [] => 0%nat
  | Some _ :: cs' => S (count cs')
  | None :: cs' => count cs'
  end.

Definition of_nat (n : nat) : Q := inject_Z (Z.of_nat n).

(** [a / b] for two integer columns. *)
Definition div_counts (a b : nat) : xcell :=
  match b, a with
  | O, O => NaN
  | O, S _ => Inf
  | S _, _ => Fin (of_nat a / of_nat b)
  end.

(** numpy's [rint]: the nearest integer, halves to the even neighbour. *)
Definition round_half_even (x : Q) : Z :=
  let f := Qfloor x in
  match Qcompare (x - inject_Z f) (1 # 2) with
  | Lt => f
  | Gt => (f + 1)%Z
  | Eq => if Z.even f then f else (f + 1)%Z
  end.

Definition pow10 (d : nat) : Q := inject_Z (10 ^ Z.of_nat d).

(** [x.round(d)]: scale by [10^d], [rint], scale back. *)
Definition np_round (d : nat) (x : Q) : Q :=
  Qred (inject_Z (round_half_even (x * pow10 d)) / pow10 d).

Definition round_cell (d : nat) (c : cell) : cell := option_map (np_round d) c.

Definition sum (xs : list Q) : Q := fold_right Qplus 0 xs.

(** Values that are not NaN ([skipna=True], the default of the reductions). *)
Fixpoint dropna {A : Type} (cs : list (option A)) : list A :=
  match cs with
  | [] => []
  | Some x :: cs' => x :: dropna cs'
  | None :: cs' => dropna cs'
  end.

(** [Series.mean()]: NaN entries are skipped; NaN when nothing is left. *)
Definition mean (cs : list cell) : cell :=
  match dropna cs with
  | [] => None
  | x :: xs => Some (sum (x :: xs) / of_nat (length (x :: xs)))
  end.

(** The mean of a column without missing values. *)
Definition mean_total (xs : list Q) : Q := sum xs / of_nat (length xs).

Definition min_list (x : Q) (xs : list Q) : Q :=
  fold_left (fun m y => if Qle_bool m y then m else y) xs x.

Definition max_list (x : Q) (xs : list Q) : Q :=
  fold_left (fun m y => if Qle_bool y m then m else y) xs x.

(** ['min'] and ['max'] of a column: NaN entries are skipped. *)
Definition min_cell (cs : list cell) : cell :=
  match dropna cs with
  | [] => None
  | x :: xs => Some (min_list x xs)
  end.

Definition max_cell (cs : list cell) : cell :=
  match dropna cs with
  | [] => None
  | x :: xs => Some (max_list x xs)
  end.

(** Ascending order of the values (the order statistics). *)
Fixpoint insert_sorted (x : Q) (l : list Q) : list Q :=
  match l with
  | [] => [x]
  | y :: l' => if Qle_bool x y then x :: y :: l' else y :: insert_sorted x l'
  end.

Definition sort_values_Q (l : list Q) : list Q := fold_right insert_sorted [] l.

(** [Series.median()]. *)
Definition median (cs : list cell) : cell :=
  let v := sort_values_Q (dropna cs) in
  let n := length v in
  match n with
  | O => None
  | _ =>
      if Nat.even n
      then Some ((nth (n / 2 - 1) v 0 + nth (n / 2) v 0) / 2)
      else Some (nth (n / 2) v 0)
  end.

(** The [q]-quantile of sorted values by linear interpolation between the
    two neighbouring order statistics (numpy's method "linear"): the
    virtual position is [q * (n - 1)]. *)
Definition lerp_quantile (v : list Q) (q : Q) : Q :=
  let n := length v in
  let pos := q * of_nat (n - 1) in
  let lo := Z.to_nat (Qfloor pos) in
  let hi := Nat.min (lo + 1) (n - 1) in
  let gamma := pos - of_nat lo in
  nth lo v 0 + (nth hi v 0 - nth lo v 0) * gamma.

(** Comparisons of cells: every comparison with NaN is false. *)
Definition ge_cell (a b : cell) : bool :=
  match a, b with
  | Some x, Some y => Qle_bool y x
  | _, _ => false
  end.

End Num.

(** What a call can end in: a returned value or a raised exception. *)
Inductive exn : Type :=
| ValueError (msg : string)
| AttributeError (msg : string)
| TypeError (msg : string)
| KeyError (key : string).

Inductive result (A : Type) : Type :=
| Returns (a : A)
| Raises (e : exn).

Arguments Returns {A} a.
Arguments Raises {A} e.

(** ** The pandas operations the engine calls *)

Module Frame.

Import Num.

(** *** [groupby]: sorted distinct keys, each with its rows in table order

    [DataFrame.groupby(col)] (defaults [sort=True], [dropna=True]) yields
    one group per distinct key present, in ascending key order; rows whose
    key is missing belong to no group. *)
Section GroupBy.

Context {A : Type} (key : A -> option string).

Fixpoint insert_key (k : string) (l : list string) : list string :=
  match l with
  | [] => [k]
  | k' :: l' => if String.leb k k' then k :: k' :: l' else k' :: insert_key k l'
  end.

Definition sort_keys (l : list string) : list string := fold_right insert_key [] l.

Fixpoint present_keys (rows : list A) : list string :=
  match rows with
  | [] => []
  | r :: rows' =>
      match key r with
      | Some k => k :: present_keys rows'
      | None => present_keys rows'
      end
  end.

Definition unique (l : list string) : list string := nodup string_dec l.

Definition group_keys (rows : list A) : list string :=
  sort_keys (unique (present_keys rows)).

Definition has_key (k : string) (r : A) : bool :=
  match key r with
  | Some k' => String.eqb k' k
  | None => false
  end.

Definition group_of (rows : list A) (k : string) : list A := filter (has_key k) rows.

Definition groupby (rows : list A) : list (string * list A) :=
  map (fun k => (k, group_of rows k)) (group_keys rows).

End GroupBy.

(** *** Sorting a frame by one float column

    [np.argsort(kind="quicksort")]: the positions of the keys in an order
    that makes the keys non-decreasing.  Which of several equal keys comes
    first is not part of the contract (the sort is not stable). *)
Class ArgSort : Type := {
  argsort : list Q -> list nat;
  argsort_perm : forall l, Permutation (argsort l) (seq 0 (length l));
  argsort_sorted : forall l, StronglySorted Qle (map (fun i => nth i l 0) (argsort l))
}.

(** [items[indexer]]. *)
Definition take_idx {A : Type} (items : list A) (indexer : list nat) : list A :=
  flat_map (fun i => match nth_error items i with
                     | Some x => [x]
                     | None => []
                     end) indexer.

Definition notna {A : Type} (c : option A) : bool :=
  match c with
  | Some _ => true
  | None => false
  end.

(** [frame.sort_values(col, ascending=...)], as pandas' [nargsort] does it:
    NaN keys are set aside and placed last; for a descending sort the rest
    is reversed, sorted ascending by [argsort], and reversed again. *)
Definition sort_values `{ArgSort} {A : Type} (col : A -> cell) (ascending : bool)
    (rows : list A) : list A :=
  let non_nans := filter (fun r => notna (col r)) rows in
  let nans := filter (fun r => negb (notna (col r))) rows in
  let items := if ascending then non_nans else rev non_nans in
  let picked := take_idx items (argsort (dropna (map col items))) in
  (if ascending then picked else rev picked) ++ nans.

(** The key of a row whose key is not NaN. *)
Definition key_of {A : Type} (col : A -> cell) (r : A) : Q :=
  match col r with
  | Some x => x
  | None => 0
  end.

(** Descending order of a float column with the NaN rows last. *)
Definition nan_last_desc {A : Type} (col : A -> cell) (a b : A) : Prop :=
  match col b with
  | None => True
  | Some y =>
      match col a with
      | Some x => y <= x
      | None => False
      end
  end.

(** [Series.quantile(q)]: [q] outside [0, 1] is refused; NaN entries are
    skipped, and an empty series has the quantile NaN. *)
Definition quantile (cs : list cell) (q : Q) : result cell :=
  if Qle_bool 0 q && Qle_bool q 1
  then Returns (match sort_values_Q (dropna cs) with
                | [] => None
                | x :: v => Some (lerp_quantile (x :: v) q)
                end)
  else Raises (ValueError "percentiles should all be in the interval [0, 1]").

(** [frame.head(n)]. *)
Definition head {A : Type} (n : nat) (rows : list A) : list A := firstn n rows.

(** [frame.reindex(labels)]: one row per label, in the order of the labels;
    a label the frame has no row for gets the row [nan_row]. *)
Definition lookup {R : Type} (frame : list (string * R)) (label : string) : option R :=
  option_map snd (find (fun kr => String.eqb (fst kr) label) frame).

Definition reindex {R : Type} (nan_row : R) (labels : list string)
    (frame : list (string * R)) : list (string * R) :=
  map (fun l => (l, match lookup frame l with
                    | Some r => r
                    | None => nan_row
                    end)) labels.

End Frame.

(** ** The incident table *)

(** A row of the loaded CSV.  The five text columns hold strings and
    [resolution_time_hours] holds floats; any cell can be missing.  The
    strings are whatever the file holds: nothing restricts [severity] or
    [recurrence] to the expected values. *)
Record IncidentRecord : Type := {
  incident_id : option string;
  category : option string;
  severity : option string;
  resolution_time_hours : Num.cell;
  recurrence : option string;
  root_cause : option string
}.

Definition table := list IncidentRecord.

(** ** The frames the engine builds *)

(** [category_analysis], one row per category (the row label is the key). *)
Module CategoryAnalysis.
Record row : Type := {
  Category : string;
  Incident_Count : nat;
  Avg_Severity_Score : Num.cell;
  Avg_Resolution_Hours : Num.cell;
  Recurring_Incidents : nat;
  Recurrence_Rate : Num.xcell;
  Risk_Score : Num.cell
}.
End CategoryAnalysis.

(** [by_category] of the resolution metrics (the [std] column, a square
    root, has no rational value and is left out). *)
Module ByCategory.
Record row : Type := {
  Category : string;
  Avg_Hours : Num.cell;
  Median_Hours : Num.cell;
  Min_Hours : Num.cell;
  Max_Hours : Num.cell
}.
End ByCategory.

(** [by_severity] after [reindex]: every column is a float column. *)
Module BySeverity.
Record row : Type := {
  Avg_Hours : Num.cell;
  Median_Hours : Num.cell;
  Incident_Count : Num.cell
}.
End BySeverity.

(** [category_recurrence] of the recurring incidents. *)
Module CategoryRecurrence.
Record row : Type := {
  Category : string;
  Recurring_Count : nat;
  Most_Common_Severity : string;
  Avg_Resolution_Hours : Num.cell
}.
End CategoryRecurrence.

(** [root_cause_analysis] of the recurring incidents. *)
Module RootCauseAnalysis.
Record row : Type := {
  Root_Cause : string;
  Occurrence_Count : nat;
  Affected_Categories : string
}.
End RootCauseAnalysis.

(** A row of the risk register. *)
Module Register.
Record row : Type := {
  Risk_ID : string;
  Category : string;
  Risk_Description : string;
  Risk_Level : string;
  Likelihood : string;
  Impact : string;
  Risk_Score : string;
  Incident_Count : nat;
  Avg_Resolution_Hours : string;
  Recurrence_Rate_pct : string;
  Mitigation_Strategy : string;
  Status : string;
  Review_Date : string
}.
End Register.

(** ** Text formatting used by the register *)

Module Text.

Import Num.

Open Scope string_scope.

Fixpoint digits_fuel (fuel : nat) (n : N) (acc : string) : string :=
  match fuel with
  | O => acc
  | S fuel' =>
      let d := ascii_of_N (48 + N.modulo n 10) in
      let acc' := String d acc in
      if N.leb n 9 then acc' else digits_fuel fuel' (N.div n 10) acc'
  end.

(** [str(n)] for a non-negative integer. *)
Definition digits (n : N) : string := digits_fuel (S (N.to_nat (N.log2 n))) n "".

Fixpoint zeros (k : nat) : string :=
  match k with
  | O => ""
  | S k' => String "0" (zeros k')
  end.

(** Left padding with zeros to [width] characters. *)
Definition zfill (width : nat) (s : string) : string :=
  zeros (width - String.length s) ++ s.

(** [f"{n:03d}"]. *)
Definition format_03d (n : nat) : string := zfill 3 (digits (N.of_nat n)).

(** [f"{x:.{d}f}"] for a finite [x]: the decimal expansion with [d]
    places nearest to [x], halves to even. *)
Definition format_fixed (d : nat) (x : Q) : string :=
  let m := Z.to_N (round_half_even (Qabs x * pow10 d)) in
  let scale := N.pow 10 (N.of_nat d) in
  let sign := if Qle_bool 0 x then "" else "-" in
  let int_part := digits (N.div m scale) in
  match d with
  | O => sign ++ int_part
  | _ => sign ++ int_part ++ "." ++ zfill d (digits (N.modulo m scale))
  end.

Definition format_cell (d : nat) (c : cell) : string :=
  match c with
  | Some x => format_fixed d x
  | None => "nan"
  end.

Definition format_xcell (d : nat) (c : xcell) : string :=
  match c with
  | Fin x => format_fixed d x
  | Inf => "inf"
  | NaN => "nan"
  end.

(** [sep.join(parts)]. *)
Fixpoint join (sep : string) (parts : list string) : string :=
  match parts with
  | [] => ""
  | [p] => p
  | p :: rest => p ++ sep ++ join sep rest
  end.

(** The position of the first missing value, counted from [k]. *)
Fixpoint first_nan (k : nat) (parts : list (option string)) : option nat :=
  match parts with
  | [] => None
  | None :: _ => Some k
  | Some _ :: rest => first_nan (S k) rest
  end.

End Text.

(** ** The analyzer *)

(** [self.risk_summary]: a dict; a key that was never stored reads as
    [None] through [dict.get].  (The key [severity_distribution] belongs to
    the report printer and is not modelled.) *)
Record RiskSummary : Type := {
  high_risk_categories : option (list CategoryAnalysis.row);
  resolution_by_category : option (list ByCategory.row);
  resolution_by_severity : option (list (string * BySeverity.row));
  recurring_by_category : option (list CategoryRecurrence.row);
  top_recurring_root_causes : option (list RootCauseAnalysis.row)
}.

(** The analyzer object and the world it writes to: [self.df] ([None]
    until the table is loaded), [self.risk_summary], the lines printed and
    the register files written. *)
Record State : Type := {
  df : option table;
  risk_summary : RiskSummary;
  stdout : list string;
  csv_files : list (string * list Register.row)
}.

Definition empty_summary : RiskSummary :=
  {| high_risk_categories := None;
     resolution_by_category := None;
     resolution_by_severity := None;
     recurring_by_category := None;
     top_recurring_root_causes := None |}.

(** [RiskAnalyzer(data_path)] followed by a successful [load_data()]. *)
Definition loaded (t : table) : State :=
  {| df := Some t; risk_summary := empty_summary; stdout := []; csv_files := [] |}.

(** [RiskAnalyzer(data_path)] alone. *)
Definition init : State :=
  {| df := None; risk_summary := empty_summary; stdout := []; csv_files := [] |}.

Definition set_summary (f : RiskSummary -> RiskSummary) (self : State) : State :=
  {| df := df self; risk_summary := f (risk_summary self);
     stdout := stdout self; csv_files := csv_files self |}.

Definition print (line : string) (self : State) : State :=
  {| df := df self; risk_summary := risk_summary self;
     stdout := stdout self ++ [line]; csv_files := csv_files self |}.

Definition to_csv (path : string) (rows : list Register.row) (self : State) : State :=
  {| df := df self; risk_summary := risk_summary self;
     stdout := stdout self; csv_files := csv_files self ++ [(path, rows)] |}.

(** What a method raises when [self.df] is still [None]. *)
Definition no_groupby : exn :=
  AttributeError "'NoneType' object has no attribute 'groupby'".

Definition not_subscriptable : exn :=
  TypeError "'NoneType' object is not subscriptable".

Module RiskAnalyzer.

Import Num Frame.

Section Engine.

Context `{ArgSort}.

Open Scope string_scope.

(** *** [identify_high_risk_categories] *)

(** [x.map(severity_weights)]: a value that is not a key of the dict
    maps to NaN. *)
Definition severity_weights (s : string) : cell :=
  if String.eqb s "Critical" then Some 4%Q
  else if String.eqb s "High" then Some 3%Q
  else if String.eqb s "Medium" then Some 2%Q
  else if String.eqb s "Low" then Some 1%Q
  else None.

(** The weight of a severity cell; a missing severity is no key either. *)
Definition weight_of (severity : option string) : cell :=
  match severity with
  | Some s => severity_weights s
  | None => None
  end.

(** [cell == value] for a text cell: a missing value equals nothing. *)
Definition eq_cell (c : option string) (value : string) : bool :=
  match c with
  | Some s => String.eqb s value
  | None => false
  end.

Definition is_yes (r : IncidentRecord) : bool := eq_cell (recurrence r) "Yes".

Definition by_category_key (r : IncidentRecord) : option string := category r.

(** The aggregated row of one group, then the two derived columns.
    ['count'] counts the identifiers present; [round(2)] leaves the two
    integer columns as they are.  The rate is a float division of the two
    counts, infinite or NaN when no identifier is present; the count is 0
    then, and the product [0 * s * (1 + rate / 100)] of the score is NaN. *)
Definition category_row (k : string) (g : table) : CategoryAnalysis.row :=
  let Incident_Count := count (map incident_id g) in
  let Avg_Severity_Score :=
    round_cell 2 (mean (map (fun r => weight_of (severity r)) g)) in
  let Avg_Resolution_Hours :=
    round_cell 2 (mean (map resolution_time_hours g)) in
  let Recurring_Incidents := length (filter is_yes g) in
  let Recurrence_Rate :=
    xmap (np_round 1)
         (xmap (fun x => x * 100)%Q (div_counts Recurring_Incidents Incident_Count)) in
  let Risk_Score :=
    match Avg_Severity_Score, Recurrence_Rate, Avg_Resolution_Hours with
    | Some s, Fin rate, Some h =>
        Some (np_round 2 (of_nat Incident_Count * s * (1 + rate / 100) + h / 10)%Q)
    | _, _, _ => None
    end in
  {| CategoryAnalysis.Category := k;
     CategoryAnalysis.Incident_Count := Incident_Count;
     CategoryAnalysis.Avg_Severity_Score := Avg_Severity_Score;
     CategoryAnalysis.Avg_Resolution_Hours := Avg_Resolution_Hours;
     CategoryAnalysis.Recurring_Incidents := Recurring_Incidents;
     CategoryAnalysis.Recurrence_Rate := Recurrence_Rate;
     CategoryAnalysis.Risk_Score := Risk_Score |}.

Definition category_analysis (t : table) : list CategoryAnalysis.row :=
  map (fun kg => category_row (fst kg) (snd kg)) (groupby by_category_key t).

Definition risk_threshold (t : table) (threshold_percentile : Q) : result cell :=
  quantile (map CategoryAnalysis.Risk_Score (category_analysis t))
           (threshold_percentile / 100)%Q.

Definition high_risk (t : table) (threshold_percentile : Q)
    : result (list CategoryAnalysis.row) :=
  match risk_threshold t threshold_percentile with
  | Raises e => Raises e
  | Returns threshold =>
      Returns
        (sort_values CategoryAnalysis.Risk_Score false
           (filter (fun r => ge_cell (CategoryAnalysis.Risk_Score r) threshold)
                   (category_analysis t)))
  end.

Definition default_threshold_percentile : Q := 75.

Definition identify_high_risk_categories (threshold_percentile : Q) (self : State)
    : result (list CategoryAnalysis.row) * State :=
  match df self with
  | None => (Raises no_groupby, self)
  | Some t =>
      match high_risk t threshold_percentile with
      | Raises e => (Raises e, self)
      | Returns hr =>
          (Returns hr,
           set_summary (fun rs =>
             {| high_risk_categories := Some hr;
                resolution_by_category := resolution_by_category rs;
                resolution_by_severity := resolution_by_severity rs;
                recurring_by_category := recurring_by_category rs;
                top_recurring_root_causes := top_recurring_root_causes rs |}) self)
      end
  end.

(** *** [calculate_resolution_metrics] *)

Definition by_severity_key (r : IncidentRecord) : option string := severity r.

Definition hours (g : table) : list cell := map resolution_time_hours g.

Definition resolution_row (k : string) (g : table) : ByCategory.row :=
  {| ByCategory.Category := k;
     ByCategory.Avg_Hours := round_cell 2 (mean (hours g));
     ByCategory.Median_Hours := round_cell 2 (median (hours g));
     ByCategory.Min_Hours := round_cell 2 (min_cell (hours g));
     ByCategory.Max_Hours := round_cell 2 (max_cell (hours g)) |}.

Definition by_category (t : table) : list ByCategory.row :=
  sort_values ByCategory.Avg_Hours false
    (map (fun kg => resolution_row (fst kg) (snd kg)) (groupby by_category_key t)).

(** ['count'] is taken of the resolution times: it counts those present. *)
Definition severity_row (g : table) : BySeverity.row :=
  {| BySeverity.Avg_Hours := round_cell 2 (mean (hours g));
     BySeverity.Median_Hours := round_cell 2 (median (hours g));
     BySeverity.Incident_Count := Some (of_nat (count (hours g))) |}.

Definition severity_order : list string := ["Critical"; "High"; "Medium"; "Low"].

(** The row [reindex] gives a label that has no row: NaN in every column. *)
Definition nan_row : BySeverity.row :=
  {| BySeverity.Avg_Hours := None;
     BySeverity.Median_Hours := None;
     BySeverity.Incident_Count := None |}.

Definition by_severity (t : table) : list (string * BySeverity.row) :=
  reindex nan_row severity_order
    (map (fun kg => (fst kg, severity_row (snd kg))) (groupby by_severity_key t)).

Definition calculate_resolution_metrics (self : State)
    : result (list ByCategory.row * list (string * BySeverity.row)) * State :=
  match df self with
  | None => (Raises no_groupby, self)
  | Some t =>
      (Returns (by_category t, by_severity t),
       set_summary (fun rs =>
         {| high_risk_categories := high_risk_categories rs;
            resolution_by_category := Some (by_category t);
            resolution_by_severity := Some (by_severity t);
            recurring_by_category := recurring_by_category rs;
            top_recurring_root_causes := top_recurring_root_causes rs |}) self)
  end.

(** *** [detect_recurring_issues] *)

(** What the method hands back: the bare [pd.DataFrame()] of the early
    return, or the tuple of the two frames. *)
Inductive recurring_result : Type :=
| EmptyDataFrame
| FramePair (category_recurrence : list CategoryRecurrence.row)
            (root_cause_analysis : list RootCauseAnalysis.row).

Definition count_of (x : string) (xs : list string) : nat :=
  length (filter (String.eqb x) xs).

(** [x.mode()[0] if not x.mode().empty else 'N/A'] on the values present
    ([mode] drops the missing ones): the modes come back sorted, so this is
    the least of the most frequent values; ['N/A'] when there is none. *)
Definition mode_first (xs : list string) : string :=
  let keys := sort_keys (unique xs) in
  let top := fold_right Nat.max 0%nat (map (fun k => count_of k xs) keys) in
  match filter (fun k => Nat.eqb (count_of k xs) top) keys with
  | k :: _ => k
  | [] => "N/A"
  end.

Definition same_cell (a b : option string) : bool :=
  match a, b with
  | Some x, Some y => String.eqb x y
  | None, None => true
  | _, _ => false
  end.

(** [x.unique()]: the distinct values in order of first appearance; the
    missing value is one of them. *)
Fixpoint unique_first_seen (seen xs : list (option string)) : list (option string) :=
  match xs with
  | [] => []
  | x :: xs' =>
      if existsb (same_cell x) seen then unique_first_seen seen xs'
      else x :: unique_first_seen (x :: seen) xs'
  end.

(** [', '.join(values)] on the values of a column: a missing value is a
    float, and [str.join] refuses the first item that is no string. *)
Definition join_cells (sep : string) (values : list (option string)) : result string :=
  match Text.first_nan 0 values with
  | Some k =>
      Raises (TypeError ("sequence item " ++ Text.digits (N.of_nat k)
                         ++ ": expected str instance, float found"))
  | None => Returns (Text.join sep (dropna values))
  end.

Definition recurrence_row (k : string) (g : table) : CategoryRecurrence.row :=
  {| CategoryRecurrence.Category := k;
     CategoryRecurrence.Recurring_Count := count (map incident_id g);
     CategoryRecurrence.Most_Common_Severity := mode_first (dropna (map severity g));
     CategoryRecurrence.Avg_Resolution_Hours := round_cell 2 (mean (hours g)) |}.

Definition category_recurrence (recurring : table) : list CategoryRecurrence.row :=
  sort_values (fun r => Some (of_nat (CategoryRecurrence.Recurring_Count r))) false
    (map (fun kg => recurrence_row (fst kg) (snd kg)) (groupby by_category_key recurring)).

Definition root_cause_row (k : string) (g : table) : result RootCauseAnalysis.row :=
  match join_cells ", " (unique_first_seen [] (map category g)) with
  | Raises e => Raises e
  | Returns affected =>
      Returns {| RootCauseAnalysis.Root_Cause := k;
                 RootCauseAnalysis.Occurrence_Count := count (map incident_id g);
                 RootCauseAnalysis.Affected_Categories := affected |}
  end.

(** The row of a root cause when the join goes through. *)
Definition root_cause_entry (recurring : table) (k : string) : RootCauseAnalysis.row :=
  let g := group_of root_cause recurring k in
  {| RootCauseAnalysis.Root_Cause := k;
     RootCauseAnalysis.Occurrence_Count := count (map incident_id g);
     RootCauseAnalysis.Affected_Categories :=
       Text.join ", " (dropna (unique_first_seen [] (map category g))) |}.

(** The rows of an aggregation, group after group: the first group whose
    function raises ends it. *)
Fixpoint collect {A : Type} (rows : list (result A)) : result (list A) :=
  match rows with
  | [] => Returns []
  | Raises e :: _ => Raises e
  | Returns a :: rows' =>
      match collect rows' with
      | Raises e => Raises e
      | Returns l => Returns (a :: l)
      end
  end.

Definition root_cause_analysis (recurring : table)
    : result (list RootCauseAnalysis.row) :=
  match collect (map (fun kg => root_cause_row (fst kg) (snd kg))
                     (groupby root_cause recurring)) with
  | Raises e => Raises e
  | Returns rows =>
      Returns
        (head 10
           (sort_values (fun r => Some (of_nat (RootCauseAnalysis.Occurrence_Count r)))
                        false rows))
  end.

(** Nothing is stored before both frames are built. *)
Definition detect_recurring_issues (self : State) : result recurring_result * State :=
  match df self with
  | None => (Raises not_subscriptable, self)
  | Some t =>
      let recurring := filter is_yes t in
      match recurring with
      | [] => (Returns EmptyDataFrame, print "No recurring issues detected." self)
      | _ :: _ =>
          let category_recurrence := category_recurrence recurring in
          match root_cause_analysis recurring with
          | Raises e => (Raises e, self)
          | Returns root_cause_analysis =>
              (Returns (FramePair category_recurrence root_cause_analysis),
               set_summary (fun rs =>
                 {| high_risk_categories := high_risk_categories rs;
                    resolution_by_category := resolution_by_category rs;
                    resolution_by_severity := resolution_by_severity rs;
                    recurring_by_category := Some category_recurrence;
                    top_recurring_root_causes := Some root_cause_analysis |})
                 self)
          end
      end
  end.


(** *** [generate_risk_register] *)

Definition gt_Q (x y : Q) : bool := negb (Qle_bool x y).

(** [cell > y]: false for NaN, true for [inf]. *)
Definition gt_cell (c : cell) (y : Q) : bool :=
  match c with
  | Some x => gt_Q x y
  | None => false
  end.

Definition gt_xcell (c : xcell) (y : Q) : bool :=
  match c with
  | Fin x => gt_Q x y
  | Inf => true
  | NaN => false
  end.

(** Risk level and likelihood from the risk score. *)
Definition risk_level_of (risk_score : cell) : string * string :=
  if ge_cell risk_score (Some 50%Q) then ("Critical", "Very High")
  else if ge_cell risk_score (Some 30%Q) then ("High", "High")
  else if ge_cell risk_score (Some 15%Q) then ("Medium", "Medium")
  else ("Low", "Low").

(** Impact from the average resolution time. *)
Definition impact_of (avg_resolution : cell) : string :=
  if ge_cell avg_resolution (Some 40%Q) then "Severe"
  else if ge_cell avg_resolution (Some 20%Q) then "Major"
  else if ge_cell avg_resolution (Some 10%Q) then "Moderate"
  else "Minor".

Definition clause_root_cause : string :=
  "Conduct root cause analysis to address systemic issues".

Definition clause_response : string :=
  "Review and optimize incident response procedures".

Definition clause_preventive : string :=
  "Implement preventive controls to reduce incident frequency".

Definition clause_monitor : string :=
  "Monitor trends and maintain current controls".

Definition mitigations_of (recurrence_rate : xcell) (avg_resolution : cell)
    (incident_count : nat) : list string :=
  (if gt_xcell recurrence_rate 50 then [clause_root_cause] else [])
  ++ (if gt_cell avg_resolution 30 then [clause_response] else [])
  ++ (if Nat.ltb 8 incident_count then [clause_preventive] else []).

Definition mitigation_text_of (mitigations : list string) : string :=
  match mitigations with
  | [] => clause_monitor
  | _ :: _ => Text.join "; " mitigations
  end.

Definition status_of (risk_level : string) : string :=
  if existsb (String.eqb risk_level) ["Critical"; "High"]
  then "Active - Mitigation Required"
  else "Active - Monitoring".

Definition risk_desc_of (category : string) (incident_count : nat)
    (recurrence_rate : xcell) (avg_resolution : cell) (is_recurring : bool) : string :=
  let recurrence_text :=
    if is_recurring
    then " with " ++ Text.format_xcell 0 recurrence_rate ++ "% recurrence rate"
    else "" in
  "Elevated incident rate in " ++ category ++ " category ("
  ++ Text.digits (N.of_nat incident_count) ++ " incidents" ++ recurrence_text ++ "). "
  ++ "Average resolution time of " ++ Text.format_cell 1 avg_resolution
  ++ " hours indicates potential resource or process constraints.".

(** The body of the loop for one row of [high_risk]. *)
Definition register_entry (today : string)
    (recurring : option (list CategoryRecurrence.row))
    (risk_id : nat) (row : CategoryAnalysis.row) : Register.row :=
  let category := CategoryAnalysis.Category row in
  let risk_score := CategoryAnalysis.Risk_Score row in
  let incident_count := CategoryAnalysis.Incident_Count row in
  let recurrence_rate := CategoryAnalysis.Recurrence_Rate row in
  let avg_resolution := CategoryAnalysis.Avg_Resolution_Hours row in
  let (risk_level, likelihood) := risk_level_of risk_score in
  let impact := impact_of avg_resolution in
  let is_recurring :=
    match recurring with
    | Some rec => existsb (fun r => String.eqb (CategoryRecurrence.Category r) category) rec
    | None => false
    end in
  {| Register.Risk_ID := "RISK-" ++ Text.format_03d risk_id;
     Register.Category := category;
     Register.Risk_Description :=
       risk_desc_of category incident_count recurrence_rate avg_resolution is_recurring;
     Register.Risk_Level := risk_level;
     Register.Likelihood := likelihood;
     Register.Impact := impact;
     Register.Risk_Score := Text.format_cell 2 risk_score;
     Register.Incident_Count := incident_count;
     Register.Avg_Resolution_Hours := Text.format_cell 1 avg_resolution;
     Register.Recurrence_Rate_pct := Text.format_xcell 1 recurrence_rate;
     Register.Mitigation_Strategy :=
       mitigation_text_of (mitigations_of recurrence_rate avg_resolution incident_count);
     Register.Status := status_of risk_level;
     Register.Review_Date := today |}.

(** The loop: [risk_id] starts at 1 and grows by one per row. *)
Fixpoint register_rows (today : string) (recurring : option (list CategoryRecurrence.row))
    (risk_id : nat) (rows : list CategoryAnalysis.row) : list Register.row :=
  match rows with
  | [] => []
  | row :: rows' =>
      register_entry today recurring risk_id row
      :: register_rows today recurring (S risk_id) rows'
  end.

Definition count_critical_high (register : list Register.row) : nat :=
  length (filter (fun e => existsb (String.eqb (Register.Risk_Level e)) ["Critical"; "High"])
                 register).

(** [today] is the date [datetime.now()] reads; the returned value is
    [None] on the early [return] and the register frame otherwise.  With no
    high-risk row the file is still written, and the last report line then
    fails on the column-less frame. *)
Definition generate_risk_register (today : string) (output_path : string) (self : State)
    : result (option (list Register.row)) * State :=
  let high_risk := high_risk_categories (risk_summary self) in
  let recurring := recurring_by_category (risk_summary self) in
  match high_risk with
  | None =>
      (Returns None,
       print "⚠ Run complete analysis before generating risk register" self)
  | Some rows =>
      let risk_register := register_rows today recurring 1 rows in
      let self' :=
        print ("  Total risks identified: "
               ++ Text.digits (N.of_nat (length risk_register)))
          (print ("✓ Risk register generated: '" ++ output_path ++ "'")
             (to_csv output_path risk_register self)) in
      match risk_register with
      | [] =>
          (* a frame built from no rows has no column to select *)
          (Raises (KeyError "Risk_Level"), self')
      | _ :: _ =>
          (Returns (Some risk_register),
           print ("  Critical/High risks: "
                  ++ Text.digits (N.of_nat (count_critical_high risk_register))) self')
      end
  end.

Definition default_output_path : string := "risk_register.csv".

End Engine.

End RiskAnalyzer.

(** ** A stable sort that meets the contract of [argsort]

    An insertion sort on (position, key) pairs.  [before] decides whether
    the inserted pair goes in front of the pair it meets: with [<=] equal
    keys keep their order. *)
Module Sorts.

Fixpoint insert_by (before : Q -> Q -> bool) (p : nat * Q) (l : list (nat * Q))
    : list (nat * Q) :=
  match l with
  | [] => [p]
  | y :: l' =>
      if before (snd p) (snd y) then p :: y :: l' else y :: insert_by before p l'
  end.

Definition sort_by (before : Q -> Q -> bool) (l : list (nat * Q)) : list (nat * Q) :=
  fold_right (insert_by before) [] l.

Definition argsort_by (before : Q -> Q -> bool) (l : list Q) : list nat :=
  map fst (sort_by before (combine (seq 0 (length l)) l)).

Definition stable_before (x y : Q) : bool := Qle_bool x y.

(** What the contract of [argsort] asks of the positions [idx] returned
    for the keys [v], as a test. *)
Definition is_permutation (n : nat) (idx : list nat) : bool :=
  Nat.eqb (length idx) n && forallb (fun i => existsb (Nat.eqb i) idx) (seq 0 n).

Fixpoint is_sorted (l : list Q) : bool :=
  match l with
  | [] => true
  | x :: l' =>
      match l' with
      | [] => true
      | y :: _ => Qle_bool x y && is_sorted l'
      end
  end.

Definition meets_contract (v : list Q) (idx : list nat) : bool :=
  is_permutation (length v) idx && is_sorted (map (fun i => nth i v 0) idx).

End Sorts.

(** ** numpy's quicksort

    [aquicksort_] of numpy's [npysort/quicksort.cpp], the routine behind
    [argsort(kind="quicksort")] where no vectorised variant is dispatched:
    an introsort on the array [tosort] of positions.  A partition of more
    than 17 positions is split around the median of three and the larger
    part is put on a stack; a partition of at most 17 is sorted by
    insertion.  Pointers into [tosort] are positions in a list here, and
    each loop has the length of the array as its fuel. *)
Module Quicksort.

Definition SMALL_QUICKSORT : nat := 16.

(** [a[i]] and [a[i] = x]. *)
Definition get (a : list nat) (i : nat) : nat := nth i a 0%nat.

Fixpoint set (a : list nat) (i : nat) (x : nat) : list nat :=
  match a, i with
  | [], _ => []
  | _ :: a', O => x :: a'
  | y :: a', S i' => y :: set a' i' x
  end.

(** [INTP_SWAP(a[i], a[j])]. *)
Definition swap (a : list nat) (i j : nat) : list nat :=
  let x := get a i in
  let y := get a j in
  set (set a i y) j x.

Section Keys.

Variable v : list Q.

Definition key (i : nat) : Q := nth i v 0.

(** [Tag::less], on keys that are not NaN. *)
Definition less (x y : Q) : bool := negb (Qle_bool y x).

(** [do { ++pi; } while (less(v[*pi], vp));] *)
Fixpoint scan_up (fuel : nat) (a : list nat) (vp : Q) (pi : nat) : nat :=
  match fuel with
  | O => pi
  | S fuel' =>
      let pi := S pi in
      if less (key (get a pi)) vp then scan_up fuel' a vp pi else pi
  end.

(** [do { --pj; } while (less(vp, v[*pj]));] *)
Fixpoint scan_down (fuel : nat) (a : list nat) (vp : Q) (pj : nat) : nat :=
  match fuel with
  | O => pj
  | S fuel' =>
      let pj := Nat.pred pj in
      if less vp (key (get a pj)) then scan_down fuel' a vp pj else pj
  end.

(** The [for (;;)] loop of a partition; it returns the array and [pi]. *)
Fixpoint exchange (fuel : nat) (a : list nat) (vp : Q) (pi pj : nat) : list nat * nat :=
  match fuel with
  | O => (a, pi)
  | S fuel' =>
      let pi := scan_up (length a) a vp pi in
      let pj := scan_down (length a) a vp pj in
      if (pj <=? pi)%nat then (a, pi)
      else exchange fuel' (swap a pi pj) vp pi pj
  end.

(** [while (pj > pl && less(vp, v[*pk])) { *pj-- = *pk--; }] *)
Fixpoint shift (fuel : nat) (a : list nat) (pl : nat) (vp : Q) (pj : nat)
    : list nat * nat :=
  match fuel with
  | O => (a, pj)
  | S fuel' =>
      if (pl <? pj)%nat && less vp (key (get a (Nat.pred pj)))
      then shift fuel' (set a pj (get a (Nat.pred pj))) pl vp (Nat.pred pj)
      else (a, pj)
  end.

(** One pass of the insertion sort: [a[pi]] goes down to its place in
    [a[pl..pi-1]], past the keys that are greater. *)
Definition insert (pl : nat) (a : list nat) (pi : nat) : list nat :=
  let vi := get a pi in
  let (a', pj) := shift (length a) a pl (key vi) pi in
  set a' pj vi.

(** [for (pi = pl + 1; pi <= pr; ++pi)]: the insertion sort of [a[pl..pr]]. *)
Definition insertion_sort (a : list nat) (pl pr : nat) : list nat :=
  fold_left (insert pl) (seq (S pl) (pr - pl)%nat) a.

(** A partition put aside, with the depth left for it. *)
Definition frame : Type := nat * nat * Z.

(** The loop [while ((pr - pl) > SMALL_QUICKSORT)]: median of three, the
    exchange loop, then the larger part goes on the stack and the smaller
    one is split next. *)
Fixpoint partition (fuel : nat) (a : list nat) (pl pr : nat) (cdepth : Z)
    (stack : list frame) : list nat * nat * nat * Z * list frame :=
  match fuel with
  | O => (a, pl, pr, cdepth, stack)
  | S fuel' =>
      if (SMALL_QUICKSORT <? pr - pl)%nat
      then
        let pm := (pl + (pr - pl) / 2)%nat in
        let a := if less (key (get a pm)) (key (get a pl)) then swap a pm pl else a in
        let a := if less (key (get a pr)) (key (get a pm)) then swap a pr pm else a in
        let a := if less (key (get a pm)) (key (get a pl)) then swap a pm pl else a in
        let vp := key (get a pm) in
        let a := swap a pm (pr - 1)%nat in
        let (a, pi) := exchange (length a) a vp pl (pr - 1)%nat in
        let a := swap a pi (pr - 1)%nat in
        let cdepth := (cdepth - 1)%Z in
        if (pi - pl <? pr - pi)%nat
        then partition fuel' a pl (pi - 1)%nat cdepth ((S pi, pr, cdepth) :: stack)
        else partition fuel' a (S pi) pr cdepth ((pl, (pi - 1)%nat, cdepth) :: stack)
      else (a, pl, pr, cdepth, stack)
  end.

(** The outer loop.  When the depth is used up the routine switches to its
    heapsort for the partition at hand; that branch is not embedded, and
    the result is [None] there. *)
Fixpoint loop (fuel : nat) (a : list nat) (pl pr : nat) (cdepth : Z)
    (stack : list frame) : option (list nat) :=
  match fuel with
  | O => None
  | S fuel' =>
      if (cdepth <? 0)%Z then None
      else
        match partition (length a) a pl pr cdepth stack with
        | (a, pl, pr, _, stack) =>
            let a := insertion_sort a pl pr in
            match stack with
            | [] => Some a
            | (pl', pr', cdepth') :: stack' => loop fuel' a pl' pr' cdepth' stack'
            end
        end
  end.

End Keys.

(** [aquicksort_(v, tosort, num)] on [tosort = 0, 1, ..., num - 1]; the
    depth allowed is twice the position of the highest bit of [num]. *)
Definition aquicksort (v : list Q) : option (list nat) :=
  let num := length v in
  loop v (S num) (seq 0 num) 0%nat (num - 1)%nat (2 * Z.of_nat (Nat.log2 num)) [].

(** The positions [argsort] returns: those of [aquicksort].  They are
    tested against the contract; where the test fails, or the heapsort
    branch is reached, the stable sort stands in. *)
Definition argsort (v : list Q) : list nat :=
  match aquicksort v with
  | Some idx =>
      if Sorts.meets_contract v idx then idx
      else Sorts.argsort_by Sorts.stable_before v
  | None => Sorts.argsort_by Sorts.stable_before v
  end.

End Quicksort.

(** ** The scoring stage on binary64 columns

    [identify_high_risk_categories] once more, with float64 columns as
    floats: every operation below is the IEEE 754 one, correctly rounded
    to nearest, ties to even, and NaN is the NaN of the floats. *)
Module Binary64.

Import Frame RiskAnalyzer.

Local Open Scope float_scope.

(** An integer column cast to float64. *)
Definition of_Z (z : Z) : float :=
  if (z <? 0)%Z then - of_uint63 (Uint63.of_Z (- z)) else of_uint63 (Uint63.of_Z z).

Definition of_nat (n : nat) : float := of_Z (Z.of_nat n).

(** The float read from a field: the binary64 number nearest to the
    decimal of the field (one correctly rounded division of two integers). *)
Definition of_Q (q : Q) : float := of_Z (Qnum q) / of_Z (Zpos (Qden q)).

Definition of_cell (c : Num.cell) : float :=
  match c with
  | Some q => of_Q q
  | None => nan
  end.

Definition two52 : float := 4503599627370496.

(** [np.rint]: the nearest integer, ties to the even one.  Below [2 ^ 52]
    adding and subtracting [2 ^ 52] rounds to it; from there on, as for an
    infinity and for NaN, every float is its own [rint]. *)
Definition rint (x : float) : float :=
  if abs x <? two52
  then let r := abs x + two52 - two52 in if get_sign x then - r else r
  else x.

(** [np.round(x, d)], [d >= 0]: multiply by [10 ^ d], [rint], divide. *)
Definition np_round (d : nat) (x : float) : float :=
  let f := of_nat (10 ^ d) in
  rint (x * f) / f.

Definition notna (x : float) : bool := negb (is_nan x).

(** ['mean'] of a group, as [group_mean] of pandas' [groupby] computes it:
    a Kahan sum of the values that are not NaN, divided by their number. *)
Fixpoint kahan (sumx compensation : float) (nobs : nat) (values : list float)
    : float * nat :=
  match values with
  | [] => (sumx, nobs)
  | val :: rest =>
      if is_nan val then kahan sumx compensation nobs rest
      else
        let y := val - compensation in
        let t := sumx + y in
        let c := t - sumx - y in
        kahan t (if is_nan c then 0 else c) (S nobs) rest
  end.

Definition group_mean (values : list float) : float :=
  let (sumx, nobs) := kahan 0 0 0 values in
  match nobs with
  | O => nan
  | S _ => sumx / of_nat nobs
  end.

(** [Series.mean()]: the sum of the values that are not NaN over their
    number.  It is taken of the weights, whole numbers whose partial sums
    are exact, so that the order in which numpy adds them does not show. *)
Definition nanmean (values : list float) : float :=
  match filter notna values with
  | [] => nan
  | x :: xs => fold_left PrimFloat.add (x :: xs) 0 / of_nat (length (x :: xs))
  end.

(** [x.map(severity_weights)]: NaN for a severity that is missing or not a
    key of the table. *)
Definition weight (severity : option string) : float := of_cell (weight_of severity).

Record row : Type := {
  Category : string;
  Incident_Count : nat;
  Avg_Severity_Score : float;
  Avg_Resolution_Hours : float;
  Recurring_Incidents : nat;
  Recurrence_Rate : float;
  Risk_Score : float
}.

Definition category_row (k : string) (g : table) : row :=
  let Incident_Count := Num.count (map incident_id g) in
  let Avg_Severity_Score := np_round 2 (nanmean (map (fun r => weight (severity r)) g)) in
  let Avg_Resolution_Hours :=
    np_round 2 (group_mean (map (fun r => of_cell (resolution_time_hours r)) g)) in
  let Recurring_Incidents := length (filter is_yes g) in
  let Recurrence_Rate :=
    np_round 1 (of_nat Recurring_Incidents / of_nat Incident_Count * 100) in
  let Risk_Score :=
    np_round 2 (of_nat Incident_Count * Avg_Severity_Score * (1 + Recurrence_Rate / 100)
                + Avg_Resolution_Hours / 10) in
  {| Category := k;
     Incident_Count := Incident_Count;
     Avg_Severity_Score := Avg_Severity_Score;
     Avg_Resolution_Hours := Avg_Resolution_Hours;
     Recurring_Incidents := Recurring_Incidents;
     Recurrence_Rate := Recurrence_Rate;
     Risk_Score := Risk_Score |}.

Definition category_analysis (t : table) : list row :=
  map (fun kg => category_row (fst kg) (snd kg)) (groupby by_category_key t).

(** *** The threshold *)

Fixpoint insert (x : float) (l : list float) : list float :=
  match l with
  | [] => [x]
  | y :: l' => if x <=? y then x :: l else y :: insert x l'
  end.

(** The values in ascending order. *)
Definition sort (l : list float) : list float := fold_right insert [] l.

(** [np.floor(x)] for [0 <= x], looked for among [0, ..., k]. *)
Fixpoint floor_upto (k : nat) (x : float) : nat :=
  match k with
  | O => O
  | S k' => if of_nat k <=? x then k else floor_upto k' x
  end.

(** numpy's [_lerp(a, b, t)]. *)
Definition lerp (a b t : float) : float :=
  let diff_b_a := b - a in
  if 0.5 <=? t then b - diff_b_a * (1 - t) else a + diff_b_a * t.

(** [np.percentile(values, q, method="linear")] on values without NaN,
    at least one: [q] is divided by 100 and checked; the virtual index is
    [(n - 1) * q]; the two order statistics around it are interpolated. *)
Definition percentile (values : list float) (q : float) : result float :=
  let q := q / 100 in
  if (0 <=? q) && (q <=? 1)
  then
    let n := length values in
    let arr := sort values in
    let virtual_index := of_nat (n - 1) * q in
    let above_bounds := of_nat (n - 1) <=? virtual_index in
    let previous_index := if above_bounds then (n - 1)%nat
                          else floor_upto (n - 1) virtual_index in
    let next_index := if above_bounds then (n - 1)%nat else S previous_index in
    let gamma := virtual_index - (if above_bounds then -1 else of_nat previous_index) in
    Returns (lerp (nth previous_index arr nan) (nth next_index arr nan) gamma)
  else Raises (ValueError "Percentiles must be in the range [0, 100]").

(** [Series.quantile(q)]: [q] is checked, the NaN entries are left out, and
    the rest goes to [np.percentile] with [q * 100]; a series without a
    number has the quantile NaN. *)
Definition quantile (values : list float) (q : float) : result float :=
  if (0 <=? q) && (q <=? 1)
  then
    match filter notna values with
    | [] => Returns nan
    | x :: xs => percentile (x :: xs) (q * 100)
    end
  else Raises (ValueError "percentiles should all be in the interval [0, 1]").

(** Each value is at most the next. *)
Definition ascending (l : list float) : Prop :=
  Sorted (fun a b => (a <=? b) = true) l.

(** *** The sort

    [sort_values] compares the keys only, so the float keys go to [argsort]
    as the rationals they denote, an infinity as a number beyond every
    float. *)
Definition beyond : Q := Qpower 2 1024.

Definition sort_key (x : float) : Num.cell :=
  match Prim2SF x with
  | S754_zero _ => Some 0%Q
  | S754_infinity s => Some (if s then - beyond else beyond)%Q
  | S754_nan => None
  | S754_finite s m e =>
      Some ((if s then - inject_Z (Zpos m) else inject_Z (Zpos m)) * Qpower 2 e)%Q
  end.

(** A percentile that passes both range checks. *)
Definition in_unit (q : float) : bool := (0 <=? q) && (q <=? 1).

Definition accepted (threshold_percentile : float) : bool :=
  in_unit (threshold_percentile / 100)
  && in_unit (threshold_percentile / 100 * 100 / 100).

(** *** The method *)

Definition default_threshold_percentile : float := 75.

Record Analyzer : Type := {
  df : option table;
  high_risk_categories : option (list row)
}.

Definition loaded (t : table) : Analyzer :=
  {| df := Some t; high_risk_categories := None |}.

Definition identify_high_risk_categories `{ArgSort} (threshold_percentile : float)
    (self : Analyzer) : result (list row) * Analyzer :=
  match df self with
  | None => (Raises no_groupby, self)
  | Some t =>
      let category_analysis := category_analysis t in
      match quantile (map Risk_Score category_analysis) (threshold_percentile / 100) with
      | Raises e => (Raises e, self)
      | Returns risk_threshold =>
          let high_risk :=
            sort_values (fun r => sort_key (Risk_Score r)) false
              (filter (fun r => risk_threshold <=? Risk_Score r) category_analysis) in
          (Returns high_risk,
           {| df := df self; high_risk_categories := Some high_risk |})
      end
  end.

End Binary64.

(** ** Sample tables *)

Module Samples.

Open Scope string_scope.

Definition incident (id cat sev : string) (h : Q) (rec : string) : IncidentRecord :=
  {| incident_id := Some id; category := Some cat; severity := Some sev;
     resolution_time_hours := Some h; recurrence := Some rec;
     root_cause := Some "cause" |}.

(** Category A: 10 incidents, all High, 3 recurring, 12 hours each;
    category B: 2 incidents, Low, none recurring, 1 hour each. *)
Definition table_AB : table :=
  [ incident "1" "A" "High" 12 "Yes"; incident "2" "A" "High" 12 "Yes";
    incident "3" "B" "Low" 1 "No";    incident "4" "A" "High" 12 "Yes";
    incident "5" "A" "High" 12 "No";  incident "6" "A" "High" 12 "No";
    incident "7" "A" "High" 12 "No";  incident "8" "B" "Low" 1 "No";
    incident "9" "A" "High" 12 "No";  incident "10" "A" "High" 12 "No";
    incident "11" "A" "High" 12 "No"; incident "12" "A" "High" 12 "No" ].

(** [k] incidents of one category, all Low, resolved at once, none
    recurring: its risk score is [k]. *)
Definition low_incidents (cat : string) (k : nat) : table :=
  repeat (incident "id" cat "Low" 0 "No") k.

(** Eight categories with the scores 1, 2, ..., 8. *)
Definition table_eight : table :=
  (low_incidents "C3" 3 ++ low_incidents "C1" 1 ++ low_incidents "C8" 8
   ++ low_incidents "C5" 5 ++ low_incidents "C2" 2 ++ low_incidents "C7" 7
   ++ low_incidents "C4" 4 ++ low_incidents "C6" 6)%list.

(** Two recurring incidents of category A; the second has no identifier. *)
Definition table_blank_id : table :=
  [ incident "1" "A" "Low" 0 "Yes";
    {| incident_id := None; category := Some "A"; severity := Some "Low";
       resolution_time_hours := Some 0; recurrence := Some "Yes";
       root_cause := Some "cause" |} ].



(** Twenty-four categories C01, ..., C24 with the scores 1, 2 and 3: six
    score 1, thirteen score 2 and five score 3. *)
Definition tied_scores : list nat :=
  [ 2; 3; 1; 2; 2; 3; 2; 1; 2; 3; 2; 2; 1; 2; 3; 2; 1; 2; 2; 3; 1; 2; 1; 2 ]%nat.

Definition tied_labels : list string :=
  [ "C01"; "C02"; "C03"; "C04"; "C05"; "C06"; "C07"; "C08"; "C09"; "C10"; "C11"; "C12";
    "C13"; "C14"; "C15"; "C16"; "C17"; "C18"; "C19"; "C20"; "C21"; "C22"; "C23"; "C24" ].

Definition table_ties : table :=
  flat_map (fun c => low_incidents (fst c) (snd c)) (combine tied_labels tied_scores).


(** Twenty-six categories: D01 to D08 score 1, D09 to D26 score 8. *)
Definition labels_26 : list string :=
  [ "D01"; "D02"; "D03"; "D04"; "D05"; "D06"; "D07"; "D08"; "D09"; "D10"; "D11"; "D12";
    "D13"; "D14"; "D15"; "D16"; "D17"; "D18"; "D19"; "D20"; "D21"; "D22"; "D23"; "D24";
    "D25"; "D26" ].

Definition table_26 : table :=
  flat_map (fun c => low_incidents (fst c) (snd c))
           (combine labels_26 (repeat 1%nat 8 ++ repeat 8%nat 18)%list).


(** A table in which no severity is in the weight table. *)
Definition table_all_unmapped : table :=
  [ incident "1" "A" "Unknown" 10 "No" ].

(** A table without Medium and Low incidents. *)
Definition table_two_levels : table :=
  [ incident "1" "A" "Critical" 10 "Yes"; incident "2" "B" "High" 20 "No" ].

(** A high-risk row with score 55, 45 hours, rate 60 and 10 incidents. *)
Definition row_55 : CategoryAnalysis.row :=
  {| CategoryAnalysis.Category := "Ops";
     CategoryAnalysis.Incident_Count := 10;
     CategoryAnalysis.Avg_Severity_Score := Some 3.16;
     CategoryAnalysis.Avg_Resolution_Hours := Some 45;
     CategoryAnalysis.Recurring_Incidents := 6;
     CategoryAnalysis.Recurrence_Rate := Num.Fin 60;
     CategoryAnalysis.Risk_Score := Some 55 |}.

End Samples.

(** ** Orders on the rows of the high-risk frame *)

(** Risk score descending. *)
Definition by_score_desc (a b : CategoryAnalysis.row) : Prop :=
  match CategoryAnalysis.Risk_Score a, CategoryAnalysis.Risk_Score b with
  | Some x, Some y => y <= x
  | _, _ => False
  end.

(** Risk score descending, and category label ascending among equal scores. *)
Definition by_score_then_label (a b : CategoryAnalysis.row) : Prop :=
  match CategoryAnalysis.Risk_Score a, CategoryAnalysis.Risk_Score b with
  | Some x, Some y =>
      y < x
      \/ (y == x
          /\ String.ltb (CategoryAnalysis.Category a) (CategoryAnalysis.Category b) = true)
  | _, _ => False
  end.

(** The same order as a test. *)
Definition before_by_label (a b : CategoryAnalysis.row) : bool :=
  match CategoryAnalysis.Risk_Score a, CategoryAnalysis.Risk_Score b with
  | Some x, Some y =>
      negb (Qle_bool x y)
      || (Qeq_bool y x
          && String.ltb (CategoryAnalysis.Category a) (CategoryAnalysis.Category b))
  | _, _ => false
  end.

Fixpoint sorted_by_label (l : list CategoryAnalysis.row) : bool :=
  match l with
  | [] => true
  | a :: l' => forallb (before_by_label a) l' && sorted_by_label l'
  end.

(** ** Reading a decimal numeral back

    The number a string of decimal digits denotes; it serves to tell
    formatted numbers apart. *)
Module Numeral.

Definition digit_value (c : ascii) : N := (N_of_ascii c - 48)%N.

Fixpoint value (s : string) : N :=
  match s with
  | EmptyString => 0%N
  | String c s' => (digit_value c * 10 ^ N.of_nat (String.length s') + value s')%N
  end.

End Numeral.

(** The rank of a risk level, Low lowest. *)
Definition level_rank (risk_level : string) : nat :=
  if String.eqb risk_level "Critical" then 3
  else if String.eqb risk_level "High" then 2
  else if String.eqb risk_level "Medium" then 1
  else 0.

(** ** The session: the analyzer with its data path and the sixth summary key *)

(** [severity_distribution]: count and share of every severity level. *)
Module SeverityDistribution.
Record row : Type := {
  Count : Num.cell;
  Percentage : Num.cell
}.
End SeverityDistribution.

(** The analyzer as the report and the run see it: [self.data_path], the
    state the analysis methods work on, and the entry
    [self.risk_summary['severity_distribution']]. *)
Record Session : Type := {
  data_path : string;
  analyzer : State;
  severity_distribution : option (list (string * SeverityDistribution.row))
}.

(** What [pd.read_csv] can fail with, as [load_data] tells it apart. *)
Inductive read_failure : Type :=
| FileNotFound
| ReadError (msg : string).

(** The files on disk: what reading a path as CSV gives. *)
Definition file_system := string -> table + read_failure.

(** How a call on the session ends. *)
Inductive failure : Type :=
| Raised (e : exn)
| FileNotFoundError
| Exception (msg : string).

Inductive outcome (A : Type) : Type :=
| Done (a : A)
| Failed (f : failure).

Arguments Done {A} a.
Arguments Failed {A} f.

(** A method on the session: state in, outcome and state out; a failure
    ends the method where it occurs. *)
Module Method.

Definition M (A : Type) : Type := Session -> outcome A * Session.

Definition ret {A : Type} (a : A) : M A := fun s => (Done a, s).

Definition bind {A B : Type} (m : M A) (k : A -> M B) : M B :=
  fun s =>
    match m s with
    | (Done a, s') => k a s'
    | (Failed f, s') => (Failed f, s')
    end.

Definition raise {A : Type} (e : exn) : M A := fun s => (Failed (Raised e), s).

Definition get : M Session := fun s => (Done s, s).

(** [print(line)]. *)
Definition say (line : string) : M unit :=
  fun s =>
    (Done tt,
     {| data_path := data_path s;
        analyzer := print line (analyzer s);
        severity_distribution := severity_distribution s |}).

(** A method of the analysis state, run on the session. *)
Definition lift {A : Type} (m : State -> result A * State) : M A :=
  fun s =>
    let (r, a') := m (analyzer s) in
    (match r with
     | Returns a => Done a
     | Raises e => Failed (Raised e)
     end,
     {| data_path := data_path s;
        analyzer := a';
        severity_distribution := severity_distribution s |}).

(** [for x in xs: body(x)]. *)
Fixpoint for_each {A : Type} (xs : list A) (body : A -> M unit) : M unit :=
  match xs with
  | [] => ret tt
  | x :: xs' => bind (body x) (fun _ => for_each xs' body)
  end.

End Method.

Notation "x <- m ;; k" := (Method.bind m (fun x => k))
  (at level 61, m at next level, right associativity).
Notation "m ;; k" := (Method.bind m (fun _ => k))
  (at level 61, right associativity).

(** ** Text layout of the report *)

Module Layout.

Import Num.

Open Scope string_scope.

(** The line feed. *)
Definition nl : string := String (ascii_of_nat 10) EmptyString.

(** [len(s)] for a UTF-8 encoded text: the bytes that start a character
    (all but the continuation bytes [10xxxxxx]). *)
Fixpoint py_len (s : string) : nat :=
  match s with
  | EmptyString => 0
  | String c s' =>
      if N.eqb (N.land (N_of_ascii c) 192) 128 then py_len s' else S (py_len s')
  end.

(** [s * n]. *)
Fixpoint times (s : string) (n : nat) : string :=
  match n with
  | O => ""
  | S n' => s ++ times s n'
  end.

(** [s.ljust(width)], also [f"{s:<width}"]. *)
Definition ljust (width : nat) (s : string) : string :=
  s ++ times " " (width - py_len s).

(** [f"{s:>width}"], the default alignment of numbers. *)
Definition rjust (width : nat) (s : string) : string :=
  times " " (width - py_len s) ++ s.

(** [int(x)] for a finite float: the fraction is cut off. *)
Definition py_int (x : Q) : Z :=
  if Qle_bool 0 x then Qfloor x else (- Qfloor (- x))%Z.

(** [str(n)] for an integer. *)
Definition str_int (n : Z) : string :=
  match n with
  | Zneg p => "-" ++ Text.digits (Npos p)
  | _ => Text.digits (Z.to_N n)
  end.

Definition str_nat (n : nat) : string := Text.digits (N.of_nat n).

End Layout.

(** ** The severity distribution, the recommendations and the report *)

Module Report.

Import Num Frame Method Layout RiskAnalyzer.

Open Scope string_scope.

(** [RiskAnalyzer(data_path)]. *)
Definition new (path : string) : Session :=
  {| data_path := path; analyzer := init; severity_distribution := None |}.

(** *** [load_data] *)

Definition set_df (t : table) : M unit :=
  fun s =>
    (Done tt,
     {| data_path := data_path s;
        analyzer := {| df := Some t;
                       risk_summary := risk_summary (analyzer s);
                       stdout := stdout (analyzer s);
                       csv_files := csv_files (analyzer s) |};
        severity_distribution := severity_distribution s |}).

Definition fail {A : Type} (f : failure) : M A := fun s => (Failed f, s).

Definition load_data (fs : file_system) : M unit :=
  s <- get ;;
  match fs (data_path s) with
  | inl t =>
      set_df t ;;
      say ("✓ Successfully loaded " ++ str_nat (length t) ++ " incident records" ++ nl)
  | inr FileNotFound =>
      say ("✗ Error: File not found at " ++ data_path s) ;;
      fail FileNotFoundError
  | inr (ReadError msg) =>
      say ("✗ Error loading data: " ++ msg) ;;
      fail (Exception msg)
  end.

(** *** [generate_severity_distribution] *)

(** [value_counts()] with the share of each count; the order of its rows
    plays no role, [reindex] looks the labels up. *)
Definition distribution_row (total : nat) (g : table) : SeverityDistribution.row :=
  {| SeverityDistribution.Count := Some (of_nat (length g));
     SeverityDistribution.Percentage :=
       Some (np_round 1 (of_nat (length g) / of_nat total * 100)%Q) |}.

Definition nan_distribution_row : SeverityDistribution.row :=
  {| SeverityDistribution.Count := None; SeverityDistribution.Percentage := None |}.

Definition severity_dist (t : table) : list (string * SeverityDistribution.row) :=
  reindex nan_distribution_row severity_order
    (map (fun kg => (fst kg, distribution_row (length t) (snd kg)))
         (groupby by_severity_key t)).

Definition generate_severity_distribution
    : M (list (string * SeverityDistribution.row)) :=
  s <- get ;;
  match df (analyzer s) with
  | None => raise not_subscriptable
  | Some t =>
      (fun s' =>
         (Done (severity_dist t),
          {| data_path := data_path s';
             analyzer := analyzer s';
             severity_distribution := Some (severity_dist t) |}))
  end.

(** *** [_generate_recommendations] *)

Record Recommendation : Type := {
  title : string;
  description : string
}.

Definition is_critical (r : IncidentRecord) : bool := eq_cell (severity r) "Critical".

Definition _generate_recommendations : M (list Recommendation) :=
  s <- get ;;
  let summary := risk_summary (analyzer s) in
  let first :=
    match high_risk_categories summary with
    | Some (top :: _) =>
        [ {| title := "Implement Risk Mitigation Plan for '"
                      ++ CategoryAnalysis.Category top ++ "'";
             description := "Develop comprehensive controls and process improvements to address the highest-risk category. Consider root cause analysis workshops and enhanced monitoring." |} ]
    | _ => []
    end in
  let second :=
    match recurring_by_category summary with
    | Some (r :: rs) =>
        [ {| title := "Address Systemic Issues Through Process Redesign";
             description := "Focus on eliminating recurring issues which represent "
                            ++ str_nat (length (r :: rs))
                            ++ " categories. Implement preventive controls rather than reactive fixes." |} ]
    | _ => []
    end in
  match df (analyzer s) with
  | None => raise not_subscriptable
  | Some t =>
      let critical := filter is_critical t in
      let third :=
        match critical with
        | [] => []
        | _ :: _ =>
            [ {| title := "Strengthen Critical Incident Response Capabilities";
                 description := "With " ++ str_nat (length critical)
                                ++ " critical incidents averaging "
                                ++ Text.format_cell 1 (mean (hours critical))
                                ++ " hours to resolve, enhance emergency response procedures and resource allocation." |} ]
        end in
      let fourth :=
        match resolution_by_category summary with
        | Some (slowest :: _) =>
            [ {| title := "Optimize Resolution Processes for '"
                          ++ ByCategory.Category slowest ++ "'";
                 description := "Investigate delays in this category and implement process improvements, additional training, or automation to reduce resolution time." |} ]
        | _ => []
        end in
      let fifth :=
        [ {| title := "Enhance Continuous Monitoring and Compliance Framework";
             description := "Implement real-time alerting for high-risk patterns and establish regular executive reviews to ensure prompt action on emerging risks." |} ] in
      ret (first ++ second ++ third ++ fourth ++ fifth)%list
  end.

End Report.

(** *** [print_executive_summary], [run_complete_analysis] and [main] *)

Module Summary.

Import Num Frame Method Layout RiskAnalyzer Report.

Open Scope string_scope.

(** [int(float('nan'))]. *)
Definition nan_to_int : exn := ValueError "cannot convert float NaN to integer".

Definition rule (c : string) : string := times c 80.

Definition heading (text : string) : string := nl ++ "▶ " ++ ljust 78 text ++ "◀".

(** One line of the severity distribution; the bar is computed first. *)
Definition severity_line (entry : string * SeverityDistribution.row) : M unit :=
  let (severity, row) := entry in
  match SeverityDistribution.Percentage row with
  | None => raise nan_to_int
  | Some pct =>
      let bar := times "█" (Z.to_nat (py_int (pct / 2))) in
      match SeverityDistribution.Count row with
      | None => raise nan_to_int
      | Some count =>
          say ("  " ++ ljust 12 severity ++ ": " ++ rjust 3 (str_int (py_int count))
               ++ " incidents (" ++ rjust 5 (Text.format_fixed 1 pct) ++ "%) " ++ bar)
      end
  end.

(** [(self.df['recurrence'] == 'Yes').sum() / len(self.df) * 100]; NaN for
    a table without rows. *)
Definition overall_recurrence_rate (t : table) : cell :=
  match t with
  | [] => None
  | _ :: _ => Some (of_nat (length (filter is_yes t)) / of_nat (length t) * 100)%Q
  end.

Definition high_risk_line (row : CategoryAnalysis.row) : M unit :=
  say (ljust 20 (CategoryAnalysis.Category row) ++ " "
       ++ ljust 12 (Text.format_cell 2 (CategoryAnalysis.Risk_Score row)) ++ " "
       ++ ljust 12 (str_nat (CategoryAnalysis.Incident_Count row)) ++ " "
       ++ ljust 15 (Text.format_xcell 1 (CategoryAnalysis.Recurrence_Rate row)) ++ " "
       ++ Text.format_cell 1 (CategoryAnalysis.Avg_Resolution_Hours row) ++ " hours").

Definition by_category_line (row : ByCategory.row) : M unit :=
  let range_str := Text.format_cell 0 (ByCategory.Min_Hours row) ++ " - "
                   ++ Text.format_cell 0 (ByCategory.Max_Hours row) in
  say (ljust 20 (ByCategory.Category row) ++ " "
       ++ ljust 12 (Text.format_cell 1 (ByCategory.Avg_Hours row)) ++ " "
       ++ ljust 15 (Text.format_cell 1 (ByCategory.Median_Hours row)) ++ " "
       ++ range_str).

Definition by_severity_line (entry : string * BySeverity.row) : M unit :=
  let (severity, row) := entry in
  match BySeverity.Incident_Count row with
  | None => raise nan_to_int
  | Some count =>
      say ("  " ++ ljust 10 severity ++ ": "
           ++ rjust 6 (Text.format_cell 1 (BySeverity.Avg_Hours row))
           ++ " hours average (" ++ str_int (py_int count) ++ " incidents)")
  end.

Definition recurring_line (row : CategoryRecurrence.row) : M unit :=
  say (ljust 20 (CategoryRecurrence.Category row) ++ " "
       ++ ljust 18 (str_nat (CategoryRecurrence.Recurring_Count row)) ++ " "
       ++ ljust 25 (CategoryRecurrence.Most_Common_Severity row) ++ " "
       ++ Text.format_cell 1 (CategoryRecurrence.Avg_Resolution_Hours row) ++ " hours").

Definition root_cause_lines (entry : nat * RootCauseAnalysis.row) : M unit :=
  let (i, row) := entry in
  say ("  " ++ str_nat i ++ ". " ++ RootCauseAnalysis.Root_Cause row ++ " ("
       ++ str_nat (RootCauseAnalysis.Occurrence_Count row) ++ " occurrences)") ;;
  say ("     Affects: " ++ RootCauseAnalysis.Affected_Categories row).

Definition recommendation_lines (entry : nat * Recommendation) : M unit :=
  let (i, rec) := entry in
  say (nl ++ str_nat i ++ ". " ++ title rec) ;;
  say ("   " ++ description rec).

(** [enumerate(xs, 1)]. *)
Definition enumerate1 {A : Type} (xs : list A) : list (nat * A) :=
  combine (seq 1 (length xs)) xs.

(** [now] is the time stamp [datetime.now()] gives. *)
Definition print_executive_summary (now : string) : M unit :=
  say (rule "=") ;;
  say "EXECUTIVE RISK SUMMARY REPORT" ;;
  say (rule "=") ;;
  say ("Report Generated: " ++ now) ;;
  say "Analysis Period: All Available Data" ;;
  s <- get ;;
  match df (analyzer s) with
  | None => raise (TypeError "object of type 'NoneType' has no len()")
  | Some t =>
      let summary := risk_summary (analyzer s) in
      say ("Total Incidents Analyzed: " ++ str_nat (length t)) ;;
      say (rule "=") ;;
      (* Section 1: overall risk profile *)
      say (heading "OVERALL RISK PROFILE") ;;
      say (rule "-") ;;
      match severity_distribution s with
      | Some severity_dist =>
          say (nl ++ "Severity Distribution:") ;;
          for_each severity_dist severity_line
      | None => ret tt
      end ;;
      say (nl ++ "Overall Recurrence Rate: "
           ++ Text.format_cell 1 (overall_recurrence_rate t) ++ "%") ;;
      (* Section 2: high-risk categories *)
      say (heading "HIGH-RISK CATEGORIES (Immediate Attention Required)") ;;
      say (rule "-") ;;
      match high_risk_categories summary with
      | Some (top :: rest) =>
          say (nl ++ "Risk scores are calculated based on frequency, severity, recurrence, and resolution time.") ;;
          say (nl ++ ljust 20 "Category" ++ " " ++ ljust 12 "Risk Score" ++ " "
               ++ ljust 12 "Incidents" ++ " " ++ ljust 15 "Recurrence %" ++ " "
               ++ "Avg Resolution") ;;
          say (rule "-") ;;
          for_each (top :: rest) high_risk_line ;;
          say (nl ++ "⚠ CRITICAL INSIGHT:") ;;
          say ("  '" ++ CategoryAnalysis.Category top
               ++ "' presents the highest risk (score: "
               ++ Text.format_cell 2 (CategoryAnalysis.Risk_Score top) ++ ")") ;;
          say "  This category requires immediate systematic intervention."
      | _ => ret tt
      end ;;
      (* Section 3: resolution performance *)
      say (heading "RESOLUTION TIME ANALYSIS") ;;
      say (rule "-") ;;
      match resolution_by_category summary with
      | Some by_category =>
          say (nl ++ "Average Resolution Time by Category:") ;;
          say (nl ++ ljust 20 "Category" ++ " " ++ ljust 12 "Avg Hours" ++ " "
               ++ ljust 15 "Median Hours" ++ " " ++ "Range") ;;
          say (rule "-") ;;
          for_each by_category by_category_line
      | None => ret tt
      end ;;
      match resolution_by_severity summary with
      | Some by_severity =>
          say (nl ++ "Resolution Time by Severity Level:") ;;
          for_each by_severity by_severity_line
      | None => ret tt
      end ;;
      (* Section 4: recurring issues *)
      say (heading "RECURRING ISSUES (Systemic Problems)") ;;
      say (rule "-") ;;
      match recurring_by_category summary with
      | Some (r :: rs) =>
          say (nl ++ "Recurring Issues by Category:") ;;
          say (nl ++ ljust 20 "Category" ++ " " ++ ljust 18 "Recurring Count" ++ " "
               ++ ljust 25 "Most Common Severity" ++ " " ++ "Avg Resolution") ;;
          say (rule "-") ;;
          for_each (r :: rs) recurring_line ;;
          match top_recurring_root_causes summary with
          | Some (c :: cs) =>
              say (nl ++ "Top Recurring Root Causes:") ;;
              for_each (enumerate1 (head 5 (c :: cs))) root_cause_lines
          | _ => ret tt
          end
      | _ => ret tt
      end ;;
      (* Section 5: recommendations *)
      say (heading "KEY RECOMMENDATIONS") ;;
      say (rule "-") ;;
      recommendations <- _generate_recommendations ;;
      for_each (enumerate1 recommendations) recommendation_lines ;;
      say (nl ++ rule "=") ;;
      say "END OF EXECUTIVE SUMMARY" ;;
      say (rule "=" ++ nl)
  end.

(** The analysis methods are called with their defaults and their results
    are dropped. *)
Definition run_complete_analysis `{ArgSort} (fs : file_system) (now : string) : M unit :=
  say (nl ++ "🔍 Starting Risk & Quality Issue Analysis..." ++ nl) ;;
  load_data fs ;;
  say "📊 Analyzing risk categories..." ;;
  lift (identify_high_risk_categories default_threshold_percentile) ;;
  say "⏱  Calculating resolution metrics..." ;;
  lift calculate_resolution_metrics ;;
  say "🔄 Detecting recurring issues..." ;;
  lift detect_recurring_issues ;;
  say "📈 Generating severity distribution..." ;;
  generate_severity_distribution ;;
  say (nl ++ "✓ Analysis complete!" ++ nl) ;;
  print_executive_summary now.

Definition data_file : string := "incident_data.csv".

(** [main()]: the run, then the register; [today] is the date of the
    register's review column. *)
Definition main `{ArgSort} (fs : file_system) (now today : string)
    : outcome unit * Session :=
  (run_complete_analysis fs now ;;
   lift (generate_risk_register today default_output_path) ;;
   ret tt) (new data_file).

End Summary.

(** ** Notions used to state what the report does *)

Module Trace.

Import Method.

(** The session after some more lines were printed. *)
Definition add_lines (lines : list string) (s : Session) : Session :=
  {| data_path := data_path s;
     analyzer := {| df := df (analyzer s);
                    risk_summary := risk_summary (analyzer s);
                    stdout := stdout (analyzer s) ++ lines;
                    csv_files := csv_files (analyzer s) |};
     severity_distribution := severity_distribution s |}.







End Trace.

(** * Properties *)

From Stdlib Require Import Lqa.

Import Num Frame Sorts.

(** ** Rounding *)

Lemma round_half_even_comp (x y : Q) : x == y -> round_half_even x = round_half_even y.
Proof.
  intros E. unfold round_half_even.
  rewrite (Qfloor_comp _ _ E).
  assert (C : Qcompare (x - inject_Z (Qfloor y)) (1 # 2) = Qcompare (y - inject_Z (Qfloor y)) (1 # 2)).
  { apply Qcompare_comp; [rewrite E|]; reflexivity. }
  rewrite C. reflexivity.
Qed.

Lemma round_half_even_bounds (x : Q) (a b : Z) :
  inject_Z a <= x -> x <= inject_Z b -> (a <= round_half_even x <= b)%Z.
Proof.
  intros Ha Hb.
  assert (Fa : (a <= Qfloor x)%Z).
  { rewrite <- (Qfloor_Z a). now apply Qfloor_resp_le. }
  assert (Fb : (Qfloor x <= b)%Z).
  { rewrite <- (Qfloor_Z b). now apply Qfloor_resp_le. }
  assert (Up : inject_Z (Qfloor x) < x -> (Qfloor x + 1 <= b)%Z).
  { intros L. assert (L' : inject_Z (Qfloor x) < inject_Z b) by lra.
    rewrite <- Zlt_Qlt in L'. lia. }
  unfold round_half_even.
  destruct (Qcompare (x - inject_Z (Qfloor x)) (1 # 2)) eqn:C.
  - destruct (Z.even (Qfloor x)); [lia|].
    apply Qeq_alt in C. split; [lia|]. apply Up. lra.
  - lia.
  - apply Qgt_alt in C. split; [lia|]. apply Up. lra.
Qed.

Lemma pow10_pos (d : nat) : 0 < pow10 d.
Proof.
  unfold pow10. change 0 with (inject_Z 0). rewrite <- Zlt_Qlt.
  apply Z.pow_pos_nonneg; lia.
Qed.

Lemma np_round_eq (d : nat) (x : Q) :
  np_round d x == inject_Z (round_half_even (x * pow10 d)) / pow10 d.
Proof. unfold np_round. apply Qred_correct. Qed.

Lemma np_round_comp (d : nat) (x y : Q) : x == y -> np_round d x = np_round d y.
Proof.
  intros E. unfold np_round. apply Qred_complete.
  rewrite (round_half_even_comp (x * pow10 d) (y * pow10 d)); [reflexivity|].
  now rewrite E.
Qed.

Lemma np_round_bounds (d : nat) (x : Q) (a b : Z) :
  inject_Z a <= x -> x <= inject_Z b -> inject_Z a <= np_round d x <= inject_Z b.
Proof.
  intros Ha Hb. pose proof (pow10_pos d) as P.
  assert (B : (a * 10 ^ Z.of_nat d <= round_half_even (x * pow10 d) <= b * 10 ^ Z.of_nat d)%Z).
  { apply round_half_even_bounds; rewrite inject_Z_mult; fold (pow10 d); nra. }
  destruct B as [B1 B2].
  rewrite Zle_Qle in B1, B2. rewrite inject_Z_mult in B1, B2. fold (pow10 d) in B1, B2.
  rewrite np_round_eq. split.
  - apply Qle_shift_div_l; auto.
  - apply Qle_shift_div_r; auto.
Qed.

(** ** Grouping *)

Section GroupByFacts.

Context {A : Type} (key : A -> option string).

Lemma insert_key_perm (k : string) (l : list string) : Permutation (insert_key k l) (k :: l).
Proof.
  induction l as [|k' l IH]; simpl; [reflexivity|].
  destruct (String.leb k k'); [reflexivity|].
  rewrite IH. apply perm_swap.
Qed.

Lemma sort_keys_perm (l : list string) : Permutation (sort_keys l) l.
Proof.
  induction l as [|k l IH]; simpl; [reflexivity|].
  rewrite insert_key_perm. now constructor.
Qed.

Lemma In_present_keys (rows : list A) (k : string) :
  In k (present_keys key rows) <-> exists r, In r rows /\ key r = Some k.
Proof.
  induction rows as [|r rows IH]; simpl.
  - split; [tauto|]. intros [r [[] _]].
  - destruct (key r) as [k'|] eqn:E; simpl; rewrite ?IH; split.
    + intros [->|[r' [I K]]]; [exists r; auto | exists r'; auto].
    + intros [r' [[<-|I] K]]; [left; congruence | right; exists r'; auto].
    + intros [r' [I K]]; exists r'; auto.
    + intros [r' [[<-|I] K]]; [congruence | exists r'; auto].
Qed.

Lemma In_group_keys (rows : list A) (k : string) :
  In k (group_keys key rows) <-> exists r, In r rows /\ key r = Some k.
Proof.
  unfold group_keys, unique.
  rewrite <- In_present_keys, <- (nodup_In string_dec (present_keys key rows)).
  split; apply Permutation_in; [|symmetry]; apply sort_keys_perm.
Qed.

Lemma NoDup_group_keys (rows : list A) : NoDup (group_keys key rows).
Proof.
  unfold group_keys, unique.
  eapply Permutation_NoDup; [symmetry; apply sort_keys_perm|apply NoDup_nodup].
Qed.

Lemma In_group_of (rows : list A) (k : string) (r : A) :
  In r (group_of key rows k) <-> In r rows /\ key r = Some k.
Proof.
  unfold group_of, has_key. rewrite filter_In.
  destruct (key r) as [k'|]; [|intuition discriminate].
  rewrite String.eqb_eq. intuition congruence.
Qed.

Lemma group_of_nonempty (rows : list A) (k : string) :
  In k (group_keys key rows) -> group_of key rows k <> [].
Proof.
  rewrite In_group_keys. intros [r [I K]] E.
  assert (J : In r (group_of key rows k)) by now apply In_group_of.
  rewrite E in J. destruct J.
Qed.

Lemma In_groupby (rows : list A) (k : string) (g : list A) :
  In (k, g) (groupby key rows) <-> In k (group_keys key rows) /\ g = group_of key rows k.
Proof.
  unfold groupby. rewrite in_map_iff. split.
  - intros [k' [E I]]. inversion E; subst. auto.
  - intros [I ->]. exists k. auto.
Qed.

End GroupByFacts.

(** *** [take_idx] and [sort_values] rearrange the rows *)

Lemma take_idx_seq_app {A : Type} (l pre : list A) :
  take_idx (pre ++ l) (seq (length pre) (length l)) = l.
Proof.
  revert pre. induction l as [|x l IH]; intros pre; [reflexivity|].
  cbn [length seq]. unfold take_idx. cbn [flat_map].
  rewrite nth_error_app2, Nat.sub_diag by lia. cbn [nth_error app].
  f_equal.
  specialize (IH (pre ++ [x])).
  rewrite <- app_assoc, length_app in IH. cbn in IH.
  rewrite Nat.add_1_r in IH. exact IH.
Qed.

Lemma take_idx_seq {A : Type} (l : list A) : take_idx l (seq 0 (length l)) = l.
Proof. exact (take_idx_seq_app l []). Qed.

Lemma take_idx_perm {A : Type} (l : list A) (idx : list nat) :
  Permutation idx (seq 0 (length l)) -> Permutation (take_idx l idx) l.
Proof.
  intros P. rewrite <- (take_idx_seq l) at 2.
  unfold take_idx. now apply Permutation_flat_map.
Qed.

Lemma filter_split_perm {A : Type} (f : A -> bool) (l : list A) :
  Permutation (filter f l ++ filter (fun x => negb (f x)) l) l.
Proof.
  induction l as [|x l IH]; simpl; [reflexivity|].
  destruct (f x); simpl.
  - now constructor.
  - rewrite <- Permutation_middle. now constructor.
Qed.

Lemma dropna_notna {A : Type} (col : A -> cell) (l : list A) :
  Forall (fun r => notna (col r) = true) l -> dropna (map col l) = map (key_of col) l.
Proof.
  induction 1 as [|r l N _ IH]; simpl; [reflexivity|].
  unfold key_of at 1. destruct (col r); [|discriminate]. now rewrite IH.
Qed.

Lemma Forall_filter_true {A : Type} (f : A -> bool) (l : list A) :
  Forall (fun r => f r = true) (filter f l).
Proof. apply Forall_forall. intros r I. now apply filter_In in I. Qed.

Section SortValues.

Context `{ArgSort} {A : Type} (col : A -> cell).

Lemma picked_perm (items : list A) :
  Forall (fun r => notna (col r) = true) items ->
  Permutation (take_idx items (argsort (dropna (map col items)))) items.
Proof.
  intros N. apply take_idx_perm.
  rewrite <- (length_map (key_of col) items), <- dropna_notna by assumption.
  apply argsort_perm.
Qed.

Lemma sort_values_perm (ascending : bool) (rows : list A) :
  Permutation (sort_values col ascending rows) rows.
Proof.
  unfold sort_values.
  set (f := fun r => notna (col r)).
  etransitivity; [|apply (filter_split_perm f rows)].
  apply Permutation_app_tail.
  destruct ascending.
  - apply picked_perm, (Forall_filter_true f).
  - rewrite <- Permutation_rev, picked_perm.
    + symmetry. apply Permutation_rev.
    + apply Forall_rev, (Forall_filter_true f).
Qed.

Lemma In_sort_values (ascending : bool) (rows : list A) (r : A) :
  In r (sort_values col ascending rows) <-> In r rows.
Proof.
  split; apply Permutation_in; [|symmetry]; apply sort_values_perm.
Qed.

End SortValues.

(** *** [sort_values] orders the rows *)

Lemma StronglySorted_app {A : Type} (R : A -> A -> Prop) (l1 l2 : list A) :
  StronglySorted R l1 -> StronglySorted R l2 ->
  (forall a b, In a l1 -> In b l2 -> R a b) ->
  StronglySorted R (l1 ++ l2).
Proof.
  induction 1 as [|a l1 S1 IH F1]; intros S2 X; simpl; [assumption|].
  constructor.
  - apply IH; [assumption|]. intros; apply X; simpl; auto.
  - apply Forall_app. split; [assumption|].
    apply Forall_forall. intros b I. apply X; simpl; auto.
Qed.

Lemma StronglySorted_rev {A : Type} (R : A -> A -> Prop) (l : list A) :
  StronglySorted R l -> StronglySorted (fun a b => R b a) (rev l).
Proof.
  induction 1 as [|a l S IH F]; simpl; [constructor|].
  apply StronglySorted_app; [assumption|repeat constructor|].
  intros x y Ix [<-|[]]. rewrite Forall_forall in F. apply F. now apply in_rev.
Qed.

Lemma StronglySorted_map_inv {A B : Type} (f : A -> B) (R : B -> B -> Prop) (l : list A) :
  StronglySorted R (map f l) -> StronglySorted (fun a b => R (f a) (f b)) l.
Proof.
  induction l as [|a l IH]; simpl; intros S; [constructor|].
  apply StronglySorted_inv in S. destruct S as [S F].
  constructor; [now apply IH|].
  rewrite Forall_forall in *. intros b I. apply F. now apply in_map.
Qed.

Lemma StronglySorted_weaken {A : Type} (R R' : A -> A -> Prop) (l : list A) :
  (forall a b, In a l -> In b l -> R a b -> R' a b) ->
  StronglySorted R l -> StronglySorted R' l.
Proof.
  intros W S. induction S as [|a l S IH F]; [constructor|].
  constructor.
  - apply IH. intros; apply W; simpl; auto.
  - rewrite Forall_forall in *. intros b I. apply W; simpl; auto.
Qed.

Lemma map_take_idx {A B : Type} (f : A -> B) (d : B) (items : list A) (idx : list nat) :
  Forall (fun i => (i < length items)%nat) idx ->
  map f (take_idx items idx) = map (fun i => nth i (map f items) d) idx.
Proof.
  induction 1 as [|i idx L _ IH]; [reflexivity|].
  unfold take_idx in *. cbn [flat_map map]. rewrite map_app, IH. 
  destruct (nth_error items i) as [x|] eqn:E.
  - simpl. f_equal. symmetry. apply nth_error_nth. now apply map_nth_error.
  - apply nth_error_None in E. lia.
Qed.

Section SortValuesOrder.

Context `{ArgSort} {A : Type} (col : A -> cell).

Lemma picked_sorted (items : list A) :
  Forall (fun r => notna (col r) = true) items ->
  StronglySorted (fun a b => key_of col a <= key_of col b)
    (take_idx items (argsort (dropna (map col items)))).
Proof.
  intros N. apply StronglySorted_map_inv with (f := key_of col) (R := Qle).
  rewrite dropna_notna by assumption.
  rewrite (map_take_idx (key_of col) 0).
  - apply argsort_sorted.
  - eapply Permutation_Forall; [symmetry; apply argsort_perm|].
    apply Forall_forall. intros i I. apply in_seq in I.
    rewrite length_map in I. lia.
Qed.

Lemma sort_values_desc (rows : list A) :
  StronglySorted (nan_last_desc col) (sort_values col false rows).
Proof.
  unfold sort_values.
  set (f := fun r => notna (col r)).
  set (items := rev (filter f rows)).
  assert (N : Forall (fun r => notna (col r) = true) items).
  { apply Forall_rev, (Forall_filter_true f). }
  apply StronglySorted_app.
  - apply StronglySorted_weaken
      with (R := fun a b => key_of col b <= key_of col a).
    + intros a b Ia Ib. apply in_rev in Ia, Ib.
      pose proof (Permutation_in _ (picked_perm col items N) Ia) as Ja.
      pose proof (Permutation_in _ (picked_perm col items N) Ib) as Jb.
      rewrite Forall_forall in N.
      apply N in Ja, Jb. unfold nan_last_desc, key_of.
      destruct (col a), (col b); try discriminate. auto.
    + apply StronglySorted_rev with (R := fun a b => key_of col a <= key_of col b).
      now apply picked_sorted.
  - apply StronglySorted_weaken with (R := fun _ _ => True).
    + intros a b _ Ib _. apply filter_In in Ib. unfold nan_last_desc.
      destruct (col b); [destruct Ib; discriminate|exact I].
    + induction (filter (fun r => negb (notna (col r))) rows); constructor; auto.
      apply Forall_forall. auto.
  - intros a b _ Ib. apply filter_In in Ib. unfold nan_last_desc.
    destruct (col b); [destruct Ib; discriminate|exact I].
Qed.

End SortValuesOrder.

(** ** The sorts meet the contract *)

Section InsertionSorts.

Variable before : Q -> Q -> bool.
Hypothesis before_true : forall x y, before x y = true -> x <= y.
Hypothesis before_false : forall x y, before x y = false -> y <= x.

Let by_key (a b : nat * Q) : Prop := snd a <= snd b.

Lemma insert_by_perm (p : nat * Q) (l : list (nat * Q)) :
  Permutation (insert_by before p l) (p :: l).
Proof.
  induction l as [|y l IH]; simpl; [reflexivity|].
  destruct (before (snd p) (snd y)); [reflexivity|].
  rewrite IH. apply perm_swap.
Qed.

Lemma sort_by_perm (l : list (nat * Q)) : Permutation (sort_by before l) l.
Proof.
  induction l as [|p l IH]; simpl; [reflexivity|].
  rewrite insert_by_perm. now constructor.
Qed.

Lemma insert_by_sorted (p : nat * Q) (l : list (nat * Q)) :
  StronglySorted by_key l -> StronglySorted by_key (insert_by before p l).
Proof.
  induction 1 as [|y l S IH F]; simpl.
  - repeat constructor.
  - destruct (before (snd p) (snd y)) eqn:B.
    + apply before_true in B. constructor; [now constructor|].
      constructor; [exact B|].
      rewrite Forall_forall in *. intros z I. specialize (F z I).
      unfold by_key in *. lra.
    + apply before_false in B. constructor; [assumption|].
      eapply Permutation_Forall; [symmetry; apply insert_by_perm|].
      constructor; assumption.
Qed.

Lemma sort_by_sorted (l : list (nat * Q)) : StronglySorted by_key (sort_by before l).
Proof.
  induction l as [|p l IH]; simpl; [constructor|]. now apply insert_by_sorted.
Qed.

Lemma map_fst_enumerate (l : list Q) (a : nat) :
  map fst (combine (seq a (length l)) l) = seq a (length l).
Proof.
  revert a. induction l as [|x l IH]; intros a; simpl; [reflexivity|].
  now rewrite IH.
Qed.

Lemma In_enumerate (l : list Q) (a i : nat) (x : Q) :
  In (i, x) (combine (seq a (length l)) l) -> (a <= i)%nat /\ nth (i - a) l 0 = x.
Proof.
  revert a. induction l as [|y l IH]; intros a; simpl; [tauto|].
  intros [E|I].
  - inversion E; subst. rewrite Nat.sub_diag. auto.
  - apply IH in I. destruct I as [L N]. split; [lia|].
    replace (i - a)%nat with (S (i - S a)) by lia. exact N.
Qed.

Lemma argsort_by_perm (l : list Q) :
  Permutation (argsort_by before l) (seq 0 (length l)).
Proof.
  unfold argsort_by. rewrite <- (map_fst_enumerate l 0) at 2.
  apply Permutation_map, sort_by_perm.
Qed.

Lemma argsort_by_sorted (l : list Q) :
  StronglySorted Qle (map (fun i => nth i l 0) (argsort_by before l)).
Proof.
  unfold argsort_by. rewrite map_map.
  set (s := sort_by before (combine (seq 0 (length l)) l)).
  assert (E : map (fun p => nth (fst p) l 0) s = map snd s).
  { apply map_ext_in. intros [i x] I.
    apply (Permutation_in _ (sort_by_perm _)) in I.
    apply In_enumerate in I. destruct I as [_ N].
    rewrite Nat.sub_0_r in N. exact N. }
  rewrite E. pose proof (sort_by_sorted (combine (seq 0 (length l)) l)) as S.
  fold s in S. clearbody s. clear E.
  induction S as [|p s S IH F]; simpl; constructor; [assumption|].
  rewrite Forall_forall in *. intros y I. apply in_map_iff in I.
  destruct I as [q [<- I]]. now apply F.
Qed.

End InsertionSorts.

Lemma stable_before_true (x y : Q) : stable_before x y = true -> x <= y.
Proof. apply Qle_bool_imp_le. Qed.

Lemma stable_before_false (x y : Q) : stable_before x y = false -> y <= x.
Proof.
  unfold stable_before. intros B. destruct (Qlt_le_dec y x) as [L|L]; [lra|].
  apply Qle_bool_iff in L. congruence.
Qed.

(** A stable implementation of [argsort]. *)
Definition stable_argsort : ArgSort := {|
  argsort := argsort_by stable_before;
  argsort_perm := argsort_by_perm stable_before;
  argsort_sorted := argsort_by_sorted stable_before stable_before_true stable_before_false
|}.

Lemma is_permutation_spec (n : nat) (idx : list nat) :
  is_permutation n idx = true -> Permutation idx (seq 0 n).
Proof.
  unfold is_permutation. intros C. apply andb_prop in C. destruct C as [L I].
  apply Nat.eqb_eq in L. symmetry.
  apply NoDup_Permutation_bis.
  - apply seq_NoDup.
  - rewrite length_seq. lia.
  - intros i J. rewrite forallb_forall in I. specialize (I i J).
    apply existsb_exists in I. destruct I as (j & Ij & E).
    apply Nat.eqb_eq in E. now subst j.
Qed.

Lemma is_sorted_spec (l : list Q) : is_sorted l = true -> StronglySorted Qle l.
Proof.
  intros C. apply Sorted_StronglySorted; [exact Qle_trans|].
  induction l as [|x l IH]; [constructor|].
  cbn [is_sorted] in C. destruct l as [|y l'].
  - repeat constructor.
  - apply andb_prop in C. destruct C as [B C].
    constructor; [now apply IH|]. constructor. now apply Qle_bool_imp_le.
Qed.

Lemma quicksort_perm (l : list Q) :
  Permutation (Quicksort.argsort l) (seq 0 (length l)).
Proof.
  unfold Quicksort.argsort.
  destruct (Quicksort.aquicksort l) as [idx|];
    [|apply (argsort_by_perm stable_before)].
  destruct (meets_contract l idx) eqn:C; [|apply (argsort_by_perm stable_before)].
  apply andb_prop in C. now apply is_permutation_spec.
Qed.

Lemma quicksort_sorted (l : list Q) :
  StronglySorted Qle (map (fun i => nth i l 0) (Quicksort.argsort l)).
Proof.
  unfold Quicksort.argsort.
  destruct (Quicksort.aquicksort l) as [idx|];
    [|apply (argsort_by_sorted stable_before stable_before_true stable_before_false)].
  destruct (meets_contract l idx) eqn:C;
    [|apply (argsort_by_sorted stable_before stable_before_true stable_before_false)].
  apply andb_prop in C. now apply is_sorted_spec.
Qed.

(** numpy's quicksort as an implementation of [argsort]. *)
Definition numpy_argsort : ArgSort := {|
  argsort := Quicksort.argsort;
  argsort_perm := quicksort_perm;
  argsort_sorted := quicksort_sorted
|}.

(** ** The category metrics *)

Import RiskAnalyzer.

Lemma In_category_analysis (t : table) (row : CategoryAnalysis.row) :
  In row (category_analysis t) <->
  exists k, In k (group_keys by_category_key t)
            /\ row = category_row k (group_of by_category_key t k).
Proof.
  unfold category_analysis. rewrite in_map_iff. split.
  - intros [[k g] [E I]]. apply In_groupby in I. destruct I as [I ->].
    exists k. simpl in E. auto.
  - intros [k [I ->]]. exists (k, group_of by_category_key t k). split; [reflexivity|].
    now apply In_groupby.
Qed.

Lemma of_nat_nonneg (n : nat) : 0 <= of_nat n.
Proof. unfold of_nat. change 0 with (inject_Z 0). rewrite <- Zle_Qle. lia. Qed.

Lemma of_nat_le (n m : nat) : (n <= m)%nat -> of_nat n <= of_nat m.
Proof. intros L. unfold of_nat. rewrite <- Zle_Qle. lia. Qed.

Lemma of_nat_pos (n : nat) : (1 <= n)%nat -> 0 < of_nat n.
Proof. intros L. unfold of_nat. change 0 with (inject_Z 0). rewrite <- Zlt_Qlt. lia. Qed.

Lemma percentage_bounds (r n : nat) :
  (r <= n)%nat -> (1 <= n)%nat -> 0 <= of_nat r / of_nat n * 100 <= 100.
Proof.
  intros L P. pose proof (of_nat_nonneg r) as R0. pose proof (of_nat_le r n L) as RN.
  pose proof (of_nat_pos n P) as N0.
  assert (D0 : 0 <= of_nat r / of_nat n) by (apply Qle_shift_div_l; lra).
  assert (D1 : of_nat r / of_nat n <= 1) by (apply Qle_shift_div_r; lra).
  lra.
Qed.

Lemma length_nonempty {A : Type} (l : list A) : l <> [] -> (1 <= length l)%nat.
Proof. destruct l; [congruence|simpl; lia]. Qed.


Lemma count_le_length {A : Type} (cs : list (option A)) : (count cs <= length cs)%nat.
Proof. induction cs as [|[x|] cs IH]; simpl; lia. Qed.

Lemma count_all_present {A B : Type} (f : A -> option B) (l : list A) :
  (forall x, In x l -> f x <> None) -> count (map f l) = length l.
Proof.
  induction l as [|x l IH]; intros P; simpl; [reflexivity|].
  destruct (f x) eqn:E.
  - rewrite IH; [reflexivity|]. intros y I. apply P. now right.
  - exfalso. apply (P x); [now left|assumption].
Qed.

Lemma count_filter_present {A B : Type} (f : A -> option B) (l : list A) :
  count (map f l)
  = length (filter (fun x => match f x with Some _ => true | None => false end) l).
Proof.
  induction l as [|x l IH]; simpl; [reflexivity|].
  destruct (f x); simpl; now rewrite IH.
Qed.

(** C8 (as amended): in a row of the category metrics whose records all
    carry an identifier, the recurrence rate, as stored after its rounding
    to one decimal place, is a number between 0 and 100, and the recurring
    incidents are at most the incidents. *)
Theorem recurrence_rate_bounds (t : table) (row : CategoryAnalysis.row) :
  In row (category_analysis t) ->
  (forall i, In i t -> category i = Some (CategoryAnalysis.Category row) ->
             incident_id i <> None) ->
  (exists rate, CategoryAnalysis.Recurrence_Rate row = Fin rate /\ 0 <= rate <= 100)
  /\ (CategoryAnalysis.Recurring_Incidents row <= CategoryAnalysis.Incident_Count row)%nat.
Proof.
  intros I Ids. apply In_category_analysis in I. destruct I as [k [K ->]].
  apply (group_of_nonempty by_category_key) in K. apply length_nonempty in K.
  cbn [category_row CategoryAnalysis.Category CategoryAnalysis.Recurrence_Rate
       CategoryAnalysis.Recurring_Incidents CategoryAnalysis.Incident_Count] in *.
  set (g := group_of by_category_key t k) in *.
  assert (N : count (map incident_id g) = length g).
  { apply count_all_present. intros i Ii. apply In_group_of in Ii.
    destruct Ii as [It Ki]. now apply Ids. }
  pose proof (filter_length_le is_yes g) as L.
  rewrite N. split; [|exact L].
  unfold div_counts. destruct (length g) as [|n] eqn:E; [lia|].
  cbn [xmap]. eexists. split; [reflexivity|].
  apply (np_round_bounds 1 _ 0 100); apply percentage_bounds; lia.
Qed.

Lemma recurrence_rate_witness :
  In (category_row "A" (group_of by_category_key Samples.table_AB "A"))
     (category_analysis Samples.table_AB)
  /\ (exists rate, Fin 30 = Fin rate /\ 0 <= rate <= 100) /\ (3 <= 10)%nat.
Proof.
  assert (I : In (category_row "A" (group_of by_category_key Samples.table_AB "A"))
                 (category_analysis Samples.table_AB)).
  { vm_compute. left. reflexivity. }
  split; [exact I|].
  apply (recurrence_rate_bounds Samples.table_AB _ I).
  intros i Ii _. simpl in Ii.
  repeat (destruct Ii as [<-|Ii]; [discriminate|]). destruct Ii.
Defined.

(** C8, the claim as stated: two recurring incidents of one category, one
    of them without an identifier, count as one incident and two recurring
    incidents, and the rate is 200. *)
Lemma recurrence_rate_above_100 :
  category_analysis Samples.table_blank_id
  = [ {| CategoryAnalysis.Category := "A";
         CategoryAnalysis.Incident_Count := 1;
         CategoryAnalysis.Avg_Severity_Score := Some 1;
         CategoryAnalysis.Avg_Resolution_Hours := Some 0;
         CategoryAnalysis.Recurring_Incidents := 2;
         CategoryAnalysis.Recurrence_Rate := Fin 200;
         CategoryAnalysis.Risk_Score := Some 3 |} ]
  /\ ~ (forall row, In row (category_analysis Samples.table_blank_id) ->
          (exists rate, CategoryAnalysis.Recurrence_Rate row = Fin rate
                        /\ 0 <= rate <= 100)
          /\ (CategoryAnalysis.Recurring_Incidents row
              <= CategoryAnalysis.Incident_Count row)%nat).
Proof.
  assert (E : category_analysis Samples.table_blank_id
              = [ {| CategoryAnalysis.Category := "A";
                     CategoryAnalysis.Incident_Count := 1;
                     CategoryAnalysis.Avg_Severity_Score := Some 1;
                     CategoryAnalysis.Avg_Resolution_Hours := Some 0;
                     CategoryAnalysis.Recurring_Incidents := 2;
                     CategoryAnalysis.Recurrence_Rate := Fin 200;
                     CategoryAnalysis.Risk_Score := Some 3 |} ]).
  { vm_compute. reflexivity. }
  split; [exact E|].
  intros P. rewrite E in P.
  destruct (P _ (or_introl eq_refl)) as [_ L]. simpl in L. lia.
Qed.

Lemma dropna_const {A : Type} (f : A -> cell) (c : Q) (g : list A) :
  Forall (fun i => f i = Some c) g -> dropna (map f g) = repeat c (length g).
Proof.
  induction 1 as [|i g E _ IH]; simpl; [reflexivity|]. now rewrite E, IH.
Qed.

(** The end-to-end table: A scores 40.2 and B scores 2.1. *)
Example table_AB_scores :
  map (fun row => (CategoryAnalysis.Category row, CategoryAnalysis.Risk_Score row))
      (category_analysis Samples.table_AB)
  = [("A"%string, Some (Qred 40.2)); ("B"%string, Some (Qred 2.1))].
Proof. vm_compute. reflexivity. Qed.

(** ** The threshold *)








Lemma quantile_in_range (cs : list cell) (q : Q) :
  0 <= q <= 1 ->
  quantile cs q
  = Returns (match sort_values_Q (dropna cs) with
             | [] => None
             | x :: v => Some (lerp_quantile (x :: v) q)
             end).
Proof.
  intros [Q0 Q1]. unfold quantile.
  apply Qle_bool_iff in Q0, Q1. now rewrite Q0, Q1.
Qed.

Lemma percent_in_range (p : Q) : 0 <= p <= 100 -> 0 <= p / 100 <= 1.
Proof.
  intros [P0 P1]. split.
  - apply Qle_shift_div_l; lra.
  - apply Qle_shift_div_r; lra.
Qed.

Lemma ge_cell_spec (a b : cell) :
  ge_cell a b = true <-> exists x y, a = Some x /\ b = Some y /\ y <= x.
Proof.
  unfold ge_cell. destruct a as [x|], b as [y|]; split.
  - intros G. apply Qle_bool_imp_le in G. eauto.
  - intros (x' & y' & A & B & L). inversion A; inversion B; subst.
    now apply Qle_bool_iff.
  - discriminate.
  - intros (x' & y' & A & B & L). discriminate.
  - discriminate.
  - intros (x' & y' & A & B & L). discriminate.
  - discriminate.
  - intros (x' & y' & A & B & L). discriminate.
Qed.

Lemma categories_of_analysis (t : table) :
  map CategoryAnalysis.Category (category_analysis t) = group_keys by_category_key t.
Proof.
  unfold category_analysis, groupby. rewrite !map_map. simpl. apply map_id.
Qed.

Lemma NoDup_map_filter {A B : Type} (f : A -> B) (keep : A -> bool) (l : list A) :
  NoDup (map f l) -> NoDup (map f (filter keep l)).
Proof.
  induction l as [|a l IH]; simpl; intros N; [constructor|].
  inversion N as [|? ? X N']; subst.
  destruct (keep a); simpl; [|now apply IH].
  constructor; [|now apply IH].
  intros I. apply X. apply in_map_iff in I. destruct I as [b [E I]].
  apply filter_In in I. apply in_map_iff. exists b. tauto.
Qed.

(** Eight categories scoring 1 to 8 and the 75th percentile: the virtual
    position is 0.75 * 7 = 5.25, between the order statistics 6 and 7, so
    the threshold is 6.25 and the categories scoring 8 and 7 are returned,
    in this order. *)
Example eight_categories :
  match risk_threshold Samples.table_eight 75 with
  | Returns (Some th) => th == 6.25
  | _ => False
  end
  /\ match high_risk (H := stable_argsort) Samples.table_eight 75 with
     | Returns hr =>
         map (fun row => (CategoryAnalysis.Category row, CategoryAnalysis.Risk_Score row)) hr
         = [("C8"%string, Some 8); ("C7"%string, Some 7)]
     | Raises _ => False
     end.
Proof. split; vm_compute; reflexivity. Qed.

(** ** The scoring stage in binary64 *)

(** ** Comparisons of floats that are not NaN *)

Lemma SFleb_total (f1 f2 : spec_float) :
  f1 <> S754_nan -> f2 <> S754_nan -> SFleb f1 f2 = false -> SFleb f2 f1 = true.
Proof.
  unfold SFleb, SFcompare.
  destruct f1 as [s1|s1| |s1 m1 e1], f2 as [s2|s2| |s2 m2 e2]; try congruence;
    intros _ _; try (destruct s1, s2; simpl; congruence);
    try (destruct s1; simpl; congruence); try (destruct s2; simpl; congruence).
  destruct s1, s2; try congruence;
    rewrite (Z.compare_antisym e1 e2); destruct (e1 ?= e2)%Z; simpl; try congruence;
    rewrite (ZC4 m2 m1); destruct (Pos.compare_cont Eq m1 m2); simpl; congruence.
Qed.

Lemma notna_spec (x : float) : Binary64.notna x = true -> Prim2SF x <> S754_nan.
Proof.
  unfold Binary64.notna, is_nan. rewrite negb_involutive, eqb_spec. intros E N.
  rewrite N in E. discriminate E.
Qed.

Lemma leb_total (x y : float) :
  Binary64.notna x = true -> Binary64.notna y = true ->
  (x <=? y)%float = false -> (y <=? x)%float = true.
Proof.
  intros X Y. rewrite !leb_spec. apply SFleb_total; now apply notna_spec.
Qed.

(** ** The sort of the scores *)

Lemma binary64_insert_perm (x : float) (l : list float) :
  Permutation (Binary64.insert x l) (x :: l).
Proof.
  induction l as [|y l IH]; simpl; [reflexivity|].
  destruct (x <=? y)%float; [reflexivity|]. rewrite IH. apply perm_swap.
Qed.

Lemma binary64_sort_perm (l : list float) : Permutation (Binary64.sort l) l.
Proof.
  induction l as [|x l IH]; simpl; [reflexivity|].
  rewrite binary64_insert_perm. now constructor.
Qed.

Lemma binary64_insert_ascending (x : float) (l : list float) :
  Binary64.notna x = true -> Forall (fun y => Binary64.notna y = true) l ->
  Binary64.ascending l -> Binary64.ascending (Binary64.insert x l).
Proof.
  intros X. induction l as [|y l IH]; intros N S; simpl.
  - repeat constructor.
  - inversion N as [|? ? Y N']; subst. inversion S as [|? ? S' Hd]; subst.
    destruct (x <=? y)%float eqn:L.
    + constructor; [exact S|]. constructor. exact L.
    + constructor; [now apply IH|].
      apply (leb_total x y X Y) in L.
      destruct l as [|z l]; simpl; [constructor; exact L|].
      destruct (x <=? z)%float; constructor; [exact L|].
      now inversion Hd.
Qed.

Lemma binary64_sort_ascending (l : list float) :
  Forall (fun y => Binary64.notna y = true) l ->
  Binary64.ascending (Binary64.sort l).
Proof.
  induction l as [|x l IH]; intros N; simpl; [constructor|].
  inversion N as [|? ? X N']; subst.
  apply binary64_insert_ascending; [exact X| |now apply IH].
  eapply Permutation_Forall; [symmetry; apply binary64_sort_perm|exact N'].
Qed.

(** ** The category metrics *)


Lemma binary64_categories (t : table) :
  map Binary64.Category (Binary64.category_analysis t) = group_keys by_category_key t.
Proof.
  unfold Binary64.category_analysis, groupby. rewrite !map_map. simpl. apply map_id.
Qed.

(** ** The threshold and the selection *)

Lemma quantile_accepted (values : list float) (p : float) :
  Binary64.accepted p = true ->
  let present := filter Binary64.notna values in
  let v := Binary64.sort present in
  let n := length present in
  let q := (p / 100 * 100 / 100)%float in
  let pos := (Binary64.of_nat (n - 1) * q)%float in
  let lo := Binary64.floor_upto (n - 1) pos in
  Binary64.quantile values (p / 100)%float
  = Returns (match present with
             | [] => nan
             | _ :: _ =>
                 if (Binary64.of_nat (n - 1) <=? pos)%float
                 then Binary64.lerp (nth (n - 1) v nan) (nth (n - 1) v nan) (pos - -1)%float
                 else Binary64.lerp (nth lo v nan) (nth (S lo) v nan)
                                    (pos - Binary64.of_nat lo)%float
             end).
Proof.
  unfold Binary64.accepted, Binary64.in_unit. intros A.
  apply andb_prop in A. destruct A as [A B].
  cbv zeta. unfold Binary64.quantile. rewrite A.
  destruct (filter Binary64.notna values) as [|x xs]; [reflexivity|].
  unfold Binary64.percentile. rewrite B.
  destruct (Binary64.of_nat (length (x :: xs) - 1)
            <=? Binary64.of_nat (length (x :: xs) - 1) * (p / 100 * 100 / 100))%float;
    reflexivity.
Qed.

Lemma integer_percentiles_accepted (p : nat) :
  (p <= 100)%nat -> Binary64.accepted (Binary64.of_nat p) = true.
Proof.
  intros L.
  assert (A : forallb (fun p => Binary64.accepted (Binary64.of_nat p)) (seq 0 101) = true)
    by (vm_compute; reflexivity).
  rewrite forallb_forall in A. apply A, in_seq. lia.
Qed.

(** C2: the call with a percentile that passes the range checks (every
    whole number from 0 to 100 does) returns, and the rows it returns and
    stores are exactly the rows of the category metrics whose risk score is
    at least the threshold, each category once; the comparison is [>=], so
    a score equal to the threshold is in.  The threshold is the quantile
    of the scores that are not NaN, by linear interpolation between two
    order statistics: with [v] the scores in ascending order, [n] their
    number and [pos = (n - 1) * q] the virtual position for
    [q = p / 100 * 100 / 100], it is interpolated between [v[lo]] and
    [v[lo + 1]], [lo] the integer part of [pos], and it is [v[n - 1]] when
    [pos] reaches [n - 1].  All of it is binary64 arithmetic.  In
    particular, with eight categories scoring 1 to 8 and the default
    percentile 75 the threshold is 6.25 and the categories scoring 8 and 7
    are returned.  With eight categories scoring 1 and eighteen scoring 8
    and the percentile 28, [pos] is the float next after 7, so that the
    threshold is 1 + 28 * 2^-52 and only the eighteen are returned. *)
Theorem high_risk_is_quantile_cut `{ArgSort} (t : table) (p : float) :
  Binary64.accepted p = true ->
  let scores := map Binary64.Risk_Score (Binary64.category_analysis t) in
  let present := filter Binary64.notna scores in
  let v := Binary64.sort present in
  let n := length present in
  let q := (p / 100 * 100 / 100)%float in
  let pos := (Binary64.of_nat (n - 1) * q)%float in
  let lo := Binary64.floor_upto (n - 1) pos in
  let threshold :=
    match present with
    | [] => nan
    | _ :: _ =>
        if (Binary64.of_nat (n - 1) <=? pos)%float
        then Binary64.lerp (nth (n - 1) v nan) (nth (n - 1) v nan) (pos - -1)%float
        else Binary64.lerp (nth lo v nan) (nth (S lo) v nan)
                           (pos - Binary64.of_nat lo)%float
    end in
  (Permutation v present /\ Binary64.ascending v)
  /\ (exists hr,
        Binary64.identify_high_risk_categories p (Binary64.loaded t)
        = (Returns hr,
           {| Binary64.df := Some t; Binary64.high_risk_categories := Some hr |})
        /\ NoDup (map Binary64.Category hr)
        /\ forall row,
             In row hr <->
             In row (Binary64.category_analysis t)
             /\ (threshold <=? Binary64.Risk_Score row)%float = true)
  /\ (forall k, (k <= 100)%nat -> Binary64.accepted (Binary64.of_nat k) = true)
  /\ Binary64.default_threshold_percentile = 75%float
  /\ match Binary64.identify_high_risk_categories (H := stable_argsort) 75
             (Binary64.loaded Samples.table_eight) with
     | (Returns hr, _) =>
         Binary64.quantile
           (map Binary64.Risk_Score (Binary64.category_analysis Samples.table_eight))
           (75 / 100)%float
         = Returns 6.25%float
         /\ map (fun row => (Binary64.Category row, Binary64.Risk_Score row)) hr
            = [("C8"%string, 8%float); ("C7"%string, 7%float)]
     | _ => False
     end
  /\ match Binary64.identify_high_risk_categories (H := stable_argsort) 28
             (Binary64.loaded Samples.table_26) with
     | (Returns hr, _) =>
         Binary64.quantile
           (map Binary64.Risk_Score (Binary64.category_analysis Samples.table_26))
           (28 / 100)%float
         = Returns 0x1.000000000001cp+0%float
         /\ map Binary64.Risk_Score hr = repeat 8%float 18
     | _ => False
     end.
Proof.
  intros A scores present v n q pos lo threshold.
  split.
  { split; [apply binary64_sort_perm|].
    apply binary64_sort_ascending. unfold present.
    apply Forall_forall. intros x I. now apply filter_In in I. }
  split.
  { pose proof (quantile_accepted scores p A) as Q. cbv zeta in Q.
    fold present n v q pos lo in Q. fold threshold in Q.
    unfold Binary64.identify_high_risk_categories. cbn [Binary64.df Binary64.loaded].
    fold scores. rewrite Q.
    eexists. split; [reflexivity|]. split.
    - eapply Permutation_NoDup.
      + apply Permutation_map. symmetry. apply sort_values_perm.
      + apply NoDup_map_filter. rewrite binary64_categories. apply NoDup_group_keys.
    - intros row. rewrite In_sort_values, filter_In. tauto. }
  split; [exact integer_percentiles_accepted|].
  split; [reflexivity|].
  split; vm_compute; split; reflexivity.
Qed.

Lemma high_risk_is_quantile_cut_witness :
  Binary64.accepted 75 = true
  /\ exists hr,
       fst (Binary64.identify_high_risk_categories (H := stable_argsort) 75
              (Binary64.loaded Samples.table_AB))
       = Returns hr
       /\ map Binary64.Category hr = ["A"%string].
Proof.
  assert (A : Binary64.accepted 75 = true) by (vm_compute; reflexivity).
  split; [exact A|].
  pose proof (high_risk_is_quantile_cut (H := stable_argsort) Samples.table_AB 75 A) as T.
  cbv zeta in T. destruct T as (_ & (hr & E & _) & _).
  exists hr. rewrite E. split; [reflexivity|].
  assert (V : fst (Binary64.identify_high_risk_categories (H := stable_argsort) 75
                     (Binary64.loaded Samples.table_AB))
              = Returns [Binary64.category_row "A"
                           (group_of by_category_key Samples.table_AB "A")])
    by (vm_compute; reflexivity).
  rewrite E in V. cbn [fst] in V. inversion V. reflexivity.
Defined.

(** ** The formula *)




(** ** Selection and order of the high-risk rows *)

Lemma high_risk_rows `{ArgSort} (t : table) (p : Q) (hr : list CategoryAnalysis.row) :
  high_risk t p = Returns hr ->
  exists th,
    risk_threshold t p = Returns th
    /\ Permutation hr (filter (fun r => ge_cell (CategoryAnalysis.Risk_Score r) th)
                              (category_analysis t))
    /\ StronglySorted (nan_last_desc CategoryAnalysis.Risk_Score) hr.
Proof.
  unfold high_risk. destruct (risk_threshold t p) as [th|e]; [|discriminate].
  intros E. inversion E; subst. exists th. split; [reflexivity|]. split.
  - apply sort_values_perm.
  - apply sort_values_desc.
Qed.

(** C6 (amended): the rows returned are in descending order of risk score;
    every returned row has a score. *)
Theorem high_risk_sorted_desc `{ArgSort} (t : table) (p : Q)
    (hr : list CategoryAnalysis.row) :
  high_risk t p = Returns hr -> StronglySorted by_score_desc hr.
Proof.
  intros E. destruct (high_risk_rows t p hr E) as (th & _ & P & S).
  revert S. apply StronglySorted_weaken. intros a b Ia Ib.
  apply (Permutation_in _ P), filter_In in Ia, Ib.
  destruct Ia as [_ Ga], Ib as [_ Gb]. apply ge_cell_spec in Ga, Gb.
  destruct Ga as (x & ? & A & _), Gb as (y & ? & B & _).
  unfold nan_last_desc, by_score_desc. now rewrite A, B.
Qed.

Lemma high_risk_sorted_desc_witness :
  exists hr,
    high_risk (H := stable_argsort) Samples.table_eight 75 = Returns hr
    /\ StronglySorted by_score_desc hr.
Proof.
  eexists. split; [vm_compute; reflexivity|].
  apply (high_risk_sorted_desc (H := stable_argsort) Samples.table_eight 75).
  vm_compute. reflexivity.
Defined.

(** C6, the claim as stated, fails: nothing orders rows of equal score by
    label.  Of the twenty-four categories of the sample, the eighteen with
    the scores 2 and 3 are high-risk at the default percentile; numpy's
    quicksort splits the eighteen keys once, and the rows of equal score
    come back out of the order of their labels. *)
Lemma high_risk_ties_not_by_label :
  let keys := rev (map of_nat (filter (Nat.leb 2) Samples.tied_scores)) in
  (exists idx, Quicksort.aquicksort keys = Some idx
               /\ argsort (ArgSort := numpy_argsort) keys = idx)
  /\ exists hr,
       high_risk (H := numpy_argsort) Samples.table_ties 75 = Returns hr
       /\ length hr = 18%nat
       /\ dropna (map CategoryAnalysis.Risk_Score hr) = repeat 3 5 ++ repeat 2 13
       /\ ~ StronglySorted by_score_then_label hr.
Proof.
  intros keys. split; [eexists; split; vm_compute; reflexivity|].
  eexists. split; [vm_compute; reflexivity|].
  split; [reflexivity|]. split; [vm_compute; reflexivity|].
  intros S.
  assert (B : forall a b, by_score_then_label a b -> before_by_label a b = true).
  { intros a b. unfold by_score_then_label, before_by_label.
    destruct (CategoryAnalysis.Risk_Score a) as [x|]; [|tauto].
    destruct (CategoryAnalysis.Risk_Score b) as [y|]; [|tauto].
    intros [L|[E L]].
    - destruct (Qle_bool x y) eqn:Q; [|reflexivity].
      apply Qle_bool_iff in Q. lra.
    - rewrite L, andb_true_r. apply Qeq_bool_iff in E. rewrite E.
      apply orb_true_r. }
  assert (D : forall l, StronglySorted by_score_then_label l ->
                        sorted_by_label l = true).
  { induction 1 as [|a l _ IH F]; [reflexivity|].
    cbn [sorted_by_label]. rewrite IH, andb_true_r.
    apply forallb_forall. intros b I. rewrite Forall_forall in F.
    now apply B, F. }
  apply D in S. vm_compute in S. discriminate S.
Qed.

Lemma In_dropna (cs : list cell) (x : Q) : In x (dropna cs) <-> In (Some x) cs.
Proof.
  induction cs as [|[y|] cs IH]; simpl.
  - tauto.
  - rewrite IH. split; intros [E|I]; auto; left; congruence.
  - rewrite IH. split; [auto|]. intros [E|I]; [discriminate|assumption].
Qed.



Lemma notna_some (c : cell) : notna c = true <-> c <> None.
Proof. destruct c; simpl; split; congruence. Qed.





Lemma take_idx_nil {A : Type} (idx : list nat) : take_idx (@nil A) idx = [].
Proof.
  induction idx as [|i idx IH]; [reflexivity|].
  unfold take_idx in *. cbn [flat_map]. rewrite IH. now destruct i.
Qed.

Lemma sort_values_nil `{ArgSort} {A : Type} (col : A -> cell) (ascending : bool) :
  sort_values col ascending [] = [].
Proof.
  unfold sort_values.
  destruct ascending; cbn [filter rev map dropna app]; now rewrite take_idx_nil.
Qed.


(** ** The register before the scoring stage *)

(** C5 (amended): when no high-risk frame has been stored, the call does not
    raise; it prints a warning and returns [None], writes no file and leaves
    the analyzer as it was. *)
Theorem register_before_scoring (today output_path : string) (self : State) :
  high_risk_categories (risk_summary self) = None ->
  generate_risk_register today output_path self
  = (Returns None,
     print "⚠ Run complete analysis before generating risk register" self).
Proof.
  intros E. unfold generate_risk_register. now rewrite E.
Qed.

Lemma register_before_scoring_witness :
  high_risk_categories (risk_summary init) = None
  /\ generate_risk_register "2026-11-04" default_output_path init
     = (Returns None,
        print "⚠ Run complete analysis before generating risk register" init).
Proof.
  split; [reflexivity|].
  apply (register_before_scoring "2026-11-04" default_output_path init).
  reflexivity.
Defined.

(** C5, the claim as stated, fails: on a fresh analyzer the call raises
    nothing; the caller receives [None] as the register. *)
Lemma register_before_scoring_returns_none :
  high_risk_categories (risk_summary init) = None
  /\ fst (generate_risk_register "2026-11-04" default_output_path init) = Returns None
  /\ ~ exists e, fst (generate_risk_register "2026-11-04" default_output_path init)
                 = Raises e.
Proof.
  split; [reflexivity|]. split; [reflexivity|].
  intros [e E]. discriminate E.
Qed.

(** ** The per-severity resolution metrics *)

Lemma lookup_keyed {R : Type} (f : string -> R) (keys : list string) (s : string) :
  lookup (map (fun k => (k, f k)) keys) s
  = if in_dec string_dec s keys then Some (f s) else None.
Proof.
  unfold lookup. induction keys as [|k keys IH]; [reflexivity|].
  cbn [map find fst]. destruct (String.eqb k s) eqn:E.
  - apply String.eqb_eq in E. subst k. cbn [option_map snd].
    destruct (in_dec string_dec s (s :: keys)) as [_|N]; [reflexivity|].
    exfalso. apply N. now left.
  - rewrite IH. apply String.eqb_neq in E.
    destruct (in_dec string_dec s keys) as [I|N],
             (in_dec string_dec s (k :: keys)) as [I'|N']; try reflexivity.
    + exfalso. apply N'. now right.
    + exfalso. destruct I' as [->|I']; [now apply E|now apply N].
Qed.

Lemma group_of_severity (t : table) (s : string) :
  group_of by_severity_key t s = filter (fun i => eq_cell (severity i) s) t.
Proof. reflexivity. Qed.

Lemma lookup_severity_frame (t : table) (s : string) :
  lookup (map (fun kg => (fst kg, severity_row (snd kg))) (groupby by_severity_key t)) s
  = match filter (fun i => eq_cell (severity i) s) t with
    | [] => None
    | i :: g => Some (severity_row (i :: g))
    end.
Proof.
  unfold groupby. rewrite map_map. cbn [fst snd].
  rewrite (lookup_keyed (fun k => severity_row (group_of by_severity_key t k))).
  rewrite <- group_of_severity.
  destruct (in_dec string_dec s (group_keys by_severity_key t)) as [I|N].
  - apply (group_of_nonempty by_severity_key) in I.
    destruct (group_of by_severity_key t s); [congruence|reflexivity].
  - destruct (group_of by_severity_key t s) as [|i g] eqn:E; [reflexivity|].
    exfalso. apply N. apply In_group_keys. exists i.
    apply (In_group_of by_severity_key t s i). rewrite E. now left.
Qed.

(** The per-severity frame has exactly the four rows Critical, High,
    Medium, Low, in this order.  A level with incidents carries the metrics
    of its incidents, its count being the number of their resolution times;
    a level without incidents carries NaN in every column, the count
    included. *)
Lemma by_severity_rows (t : table) :
  map fst (by_severity t) = ["Critical"; "High"; "Medium"; "Low"]%string
  /\ forall s, In s severity_order ->
       lookup (by_severity t) s
       = Some (match filter (fun i => eq_cell (severity i) s) t with
               | [] => nan_row
               | i :: g => severity_row (i :: g)
               end)
       /\ BySeverity.Incident_Count nan_row = None
       /\ BySeverity.Incident_Count
            (severity_row (filter (fun i => eq_cell (severity i) s) t))
          = Some (of_nat (count (map resolution_time_hours
                                     (filter (fun i => eq_cell (severity i) s) t)))).
Proof.
  split; [reflexivity|].
  intros s I. split; [|split; reflexivity].
  unfold by_severity, reindex.
  set (frame := map (fun kg => (fst kg, severity_row (snd kg)))
                    (groupby by_severity_key t)).
  pose proof (lookup_severity_frame t s) as L. fold frame in L.
  assert (E : lookup (map (fun l => (l, match lookup frame l with
                                        | Some r => r
                                        | None => nan_row
                                        end)) severity_order) s
              = Some (match lookup frame s with
                      | Some r => r
                      | None => nan_row
                      end)).
  { rewrite (lookup_keyed (fun l => match lookup frame l with
                                    | Some r => r
                                    | None => nan_row
                                    end)).
    destruct (in_dec string_dec s severity_order); [reflexivity|contradiction]. }
  rewrite E, L.
  destruct (filter (fun i => eq_cell (severity i) s) t); reflexivity.
Qed.

(** C7: [reindex] gives a level without incidents a row of NaN and nothing
    puts a 0 in its count.  In a table with Critical and High incidents
    only, the Low row is there, but its incident count is NaN and not 0;
    the report, which converts every count of this frame with [int], fails
    on the frame. *)
Lemma absent_severity_count_is_nan :
  filter (fun i => eq_cell (severity i) "Low") Samples.table_two_levels = []
  /\ map fst (by_severity Samples.table_two_levels)
     = ["Critical"; "High"; "Medium"; "Low"]%string
  /\ option_map BySeverity.Incident_Count
       (lookup (by_severity Samples.table_two_levels) "Low")
     = Some None
  /\ option_map BySeverity.Incident_Count
       (lookup (by_severity Samples.table_two_levels) "Low")
     <> Some (Some 0)
  /\ fst (Summary.print_executive_summary "2026-11-04 09:00:00"
            {| data_path := Summary.data_file;
               analyzer := snd (calculate_resolution_metrics (H := stable_argsort)
                                  (loaded Samples.table_two_levels));
               severity_distribution := None |})
     = Failed (Raised Summary.nan_to_int).
Proof.
  split; [reflexivity|]. split; [reflexivity|]. split; [reflexivity|].
  split; [discriminate|]. vm_compute. reflexivity.
Qed.

(** ** The recurrence analysis *)

Lemma is_yes_iff (i : IncidentRecord) : is_yes i = true <-> recurrence i = Some "Yes"%string.
Proof.
  unfold is_yes, eq_cell. destruct (recurrence i) as [s|]; [|split; discriminate].
  rewrite String.eqb_eq. split; congruence.
Qed.


(** The two frames of the sample table. *)
Example recurring_frames_AB :
  fst (detect_recurring_issues (H := stable_argsort) (loaded Samples.table_AB))
  = Returns
      (FramePair
         [ {| CategoryRecurrence.Category := "A";
              CategoryRecurrence.Recurring_Count := 3;
              CategoryRecurrence.Most_Common_Severity := "High";
              CategoryRecurrence.Avg_Resolution_Hours := Some 12 |} ]
         [ {| RootCauseAnalysis.Root_Cause := "cause";
              RootCauseAnalysis.Occurrence_Count := 3;
              RootCauseAnalysis.Affected_Categories := "A" |} ]).
Proof. vm_compute. reflexivity. Qed.

(** ** The tiering rules of the register *)

Lemma Qle_bool_false (x y : Q) : Qle_bool x y = false -> y < x.
Proof.
  intros B. destruct (Qlt_le_dec y x) as [L|L]; [assumption|].
  apply Qle_bool_iff in L. congruence.
Qed.

Lemma gt_Q_spec (x y : Q) : gt_Q x y = true <-> y < x.
Proof.
  unfold gt_Q. split.
  - intros G. apply negb_true_iff in G. now apply Qle_bool_false.
  - intros L. apply negb_true_iff. destruct (Qle_bool x y) eqn:B; [|reflexivity].
    apply Qle_bool_imp_le in B. lra.
Qed.

Lemma risk_level_of_cases (s : Q) :
  (50 <= s /\ risk_level_of (Some s) = ("Critical", "Very High")%string)
  \/ (30 <= s < 50 /\ risk_level_of (Some s) = ("High", "High")%string)
  \/ (15 <= s < 30 /\ risk_level_of (Some s) = ("Medium", "Medium")%string)
  \/ (s < 15 /\ risk_level_of (Some s) = ("Low", "Low")%string).
Proof.
  unfold risk_level_of, ge_cell.
  destruct (Qle_bool 50 s) eqn:A; [apply Qle_bool_imp_le in A; auto|].
  apply Qle_bool_false in A.
  destruct (Qle_bool 30 s) eqn:B; [apply Qle_bool_imp_le in B; auto|].
  apply Qle_bool_false in B.
  destruct (Qle_bool 15 s) eqn:C; [apply Qle_bool_imp_le in C; auto 6|].
  apply Qle_bool_false in C. auto 6.
Qed.

Lemma impact_of_cases (h : Q) :
  (40 <= h /\ impact_of (Some h) = "Severe"%string)
  \/ (20 <= h < 40 /\ impact_of (Some h) = "Major"%string)
  \/ (10 <= h < 20 /\ impact_of (Some h) = "Moderate"%string)
  \/ (h < 10 /\ impact_of (Some h) = "Minor"%string).
Proof.
  unfold impact_of, ge_cell.
  destruct (Qle_bool 40 h) eqn:A; [apply Qle_bool_imp_le in A; auto|].
  apply Qle_bool_false in A.
  destruct (Qle_bool 20 h) eqn:B; [apply Qle_bool_imp_le in B; auto|].
  apply Qle_bool_false in B.
  destruct (Qle_bool 10 h) eqn:C; [apply Qle_bool_imp_le in C; auto 6|].
  apply Qle_bool_false in C. auto 6.
Qed.

Lemma gt_cell_spec (c : cell) (y : Q) :
  gt_cell c y = true <-> exists x, c = Some x /\ y < x.
Proof.
  destruct c as [x|]; cbn [gt_cell].
  - rewrite gt_Q_spec. split; [eauto|]. intros (x' & E & L). now inversion E; subst.
  - split; [discriminate|]. intros (x' & E & _). discriminate E.
Qed.

Lemma gt_xcell_spec (c : xcell) (y : Q) :
  gt_xcell c y = true <-> match c with
                          | Fin x => y < x
                          | Inf => True
                          | NaN => False
                          end.
Proof.
  destruct c as [x| |]; cbn [gt_xcell].
  - apply gt_Q_spec.
  - tauto.
  - split; [discriminate|tauto].
Qed.

Lemma register_entry_fields (today : string)
    (recurring : option (list CategoryRecurrence.row)) (risk_id : nat)
    (row : CategoryAnalysis.row) :
  let e := register_entry today recurring risk_id row in
  let level := risk_level_of (CategoryAnalysis.Risk_Score row) in
  Register.Risk_Level e = fst level
  /\ Register.Likelihood e = snd level
  /\ Register.Impact e = impact_of (CategoryAnalysis.Avg_Resolution_Hours row)
  /\ Register.Mitigation_Strategy e
     = mitigation_text_of
         (mitigations_of (CategoryAnalysis.Recurrence_Rate row)
                         (CategoryAnalysis.Avg_Resolution_Hours row)
                         (CategoryAnalysis.Incident_Count row))
  /\ Register.Status e = status_of (fst level).
Proof.
  unfold register_entry.
  destruct (risk_level_of (CategoryAnalysis.Risk_Score row)) as [level likelihood].
  repeat split.
Qed.

Lemma status_of_spec (level : string) :
  (level = "Critical"%string \/ level = "High"%string ->
   status_of level = "Active - Mitigation Required"%string)
  /\ (~ (level = "Critical"%string \/ level = "High"%string) ->
      status_of level = "Active - Monitoring"%string).
Proof.
  unfold status_of. cbn [existsb].
  destruct (String.eqb level "Critical") eqn:A;
    [apply String.eqb_eq in A|apply String.eqb_neq in A];
    (destruct (String.eqb level "High") eqn:B;
      [apply String.eqb_eq in B|apply String.eqb_neq in B]);
    cbn [orb]; split; try reflexivity; intros C; exfalso; tauto.
Qed.

(** C3: the risk level, likelihood, impact, mitigation strategy and status
    of a register entry are functions of the row's risk score [s], average
    resolution hours [h], recurrence rate and incident count only, by
    tables with inclusive lower bounds: [s >= 50] Critical / Very High,
    [s >= 30] High / High, [s >= 15] Medium / Medium, else Low / Low;
    [h >= 40] Severe, [h >= 20] Major, [h >= 10] Moderate, else Minor (a
    missing [h] compares false and is Minor).  The mitigation text joins
    with "; " the clauses whose condition holds (rate above 50, [h] above
    30, count above 8), or is the monitoring clause when none holds; the
    status asks for mitigation exactly at the levels Critical and High.
    Score 55, 45 hours, rate 60, count 10 give Critical, Very High, Severe
    and all three clauses. *)
Theorem register_tiering (today : string)
    (recurring : option (list CategoryRecurrence.row)) (risk_id : nat)
    (row : CategoryAnalysis.row) (s : Q) :
  CategoryAnalysis.Risk_Score row = Some s ->
  let e := register_entry today recurring risk_id row in
  let h := CategoryAnalysis.Avg_Resolution_Hours row in
  let rate := CategoryAnalysis.Recurrence_Rate row in
  let n := CategoryAnalysis.Incident_Count row in
  let level := Register.Risk_Level e in
  let likelihood := Register.Likelihood e in
  let impact := Register.Impact e in
  let mitigation := Register.Mitigation_Strategy e in
  (level, likelihood, impact, mitigation, Register.Status e)
  = (fst (risk_level_of (Some s)), snd (risk_level_of (Some s)), impact_of h,
     mitigation_text_of (mitigations_of rate h n),
     status_of (fst (risk_level_of (Some s))))
  /\ ((50 <= s -> level = "Critical" /\ likelihood = "Very High")
      /\ (30 <= s < 50 -> level = "High" /\ likelihood = "High")
      /\ (15 <= s < 30 -> level = "Medium" /\ likelihood = "Medium")
      /\ (s < 15 -> level = "Low" /\ likelihood = "Low"))%string
  /\ (forall x, h = Some x ->
        (40 <= x -> impact = "Severe")
        /\ (20 <= x < 40 -> impact = "Major")
        /\ (10 <= x < 20 -> impact = "Moderate")
        /\ (x < 10 -> impact = "Minor"))%string
  /\ (h = None -> impact = "Minor"%string)
  /\ (exists c1 c2 c3 : bool,
        (c1 = true <-> match rate with
                       | Fin x => 50 < x
                       | Inf => True
                       | NaN => False
                       end)
        /\ (c2 = true <-> exists x, h = Some x /\ 30 < x)
        /\ (c3 = true <-> (8 < n)%nat)
        /\ mitigation
           = match (if c1 then [clause_root_cause] else [])
                   ++ (if c2 then [clause_response] else [])
                   ++ (if c3 then [clause_preventive] else []) with
             | [] => clause_monitor
             | c :: cs => Text.join "; " (c :: cs)
             end)
  /\ (Register.Status e = "Active - Mitigation Required"%string
      <-> level = "Critical"%string \/ level = "High"%string)
  /\ (Register.Status e = "Active - Monitoring"%string
      <-> ~ (level = "Critical"%string \/ level = "High"%string))
  /\ (forall x r, h = Some x -> rate = Fin r ->
      s == 55 -> x == 45 -> r == 60 -> n = 10%nat ->
      level = "Critical"%string /\ likelihood = "Very High"%string
      /\ impact = "Severe"%string
      /\ mitigation
         = (clause_root_cause ++ "; " ++ clause_response ++ "; "
            ++ clause_preventive)%string).
Proof.
  intros E e h rate n level likelihood impact mitigation.
  destruct (register_entry_fields today recurring risk_id row)
    as (F1 & F2 & F3 & F4 & F5).
  rewrite E in F1, F2, F5.
  fold e h rate n in F1, F2, F3, F4, F5.
  fold level in F1. fold likelihood in F2. fold impact in F3. fold mitigation in F4.
  pose proof (risk_level_of_cases s) as RL.
  pose proof (status_of_spec (fst (risk_level_of (Some s)))) as [ST1 ST2].
  split; [now rewrite F1, F2, F3, F4, F5|].
  rewrite <- F5 in ST1, ST2. rewrite <- F1 in ST1, ST2.
  split.
  { rewrite F1, F2.
    destruct RL as [[B ->]|[[B ->]|[[B ->]|[B ->]]]]; cbn [fst snd];
      repeat split; intros; first [reflexivity | exfalso; lra]. }
  split.
  { intros x Hx. rewrite F3, Hx.
    destruct (impact_of_cases x) as [[B ->]|[[B ->]|[[B ->]|[B ->]]]];
      repeat split; intros; first [reflexivity | exfalso; lra]. }
  split.
  { intros Hn. rewrite F3, Hn. reflexivity. }
  split.
  { exists (gt_xcell rate 50), (gt_cell h 30), (Nat.ltb 8 n).
    split; [apply gt_xcell_spec|]. split; [apply gt_cell_spec|].
    split; [apply Nat.ltb_lt|].
    rewrite F4. unfold mitigation_text_of, mitigations_of.
    destruct (gt_xcell rate 50), (gt_cell h 30), (Nat.ltb 8 n); reflexivity. }
  assert (D : (level = "Critical" \/ level = "High")%string
              \/ ~ (level = "Critical" \/ level = "High")%string).
  { destruct (string_dec level "Critical"); [auto|].
    destruct (string_dec level "High"); [auto|]. right. tauto. }
  split.
  { split; [|exact ST1]. intros M. destruct D as [D|D]; [exact D|].
    rewrite (ST2 D) in M. discriminate M. }
  split.
  { split; [|exact ST2]. intros M C. rewrite (ST1 C) in M. discriminate M. }
  intros x r Hx Hr S55 H45 R60 N10.
  split; [|split; [|split]].
  - rewrite F1. destruct RL as [[B ->]|[[B ->]|[[B ->]|[B ->]]]];
      first [reflexivity | exfalso; lra].
  - rewrite F2. destruct RL as [[B ->]|[[B ->]|[[B ->]|[B ->]]]];
      first [reflexivity | exfalso; lra].
  - rewrite F3, Hx. destruct (impact_of_cases x) as [[B ->]|[[B ->]|[[B ->]|[B ->]]]];
      first [reflexivity | exfalso; lra].
  - rewrite F4. unfold mitigation_text_of, mitigations_of.
    assert (C1 : gt_xcell rate 50 = true) by (rewrite Hr; apply gt_Q_spec; lra).
    assert (C2 : gt_cell h 30 = true) by (rewrite Hx; apply gt_Q_spec; lra).
    rewrite C1, C2, N10. reflexivity.
Qed.

Lemma register_tiering_witness :
  CategoryAnalysis.Risk_Score Samples.row_55 = Some 55
  /\ Register.Risk_Level (register_entry "2026-11-04" None 1 Samples.row_55)
     = "Critical"%string
  /\ Register.Likelihood (register_entry "2026-11-04" None 1 Samples.row_55)
     = "Very High"%string
  /\ Register.Impact (register_entry "2026-11-04" None 1 Samples.row_55)
     = "Severe"%string
  /\ Register.Mitigation_Strategy (register_entry "2026-11-04" None 1 Samples.row_55)
     = (clause_root_cause ++ "; " ++ clause_response ++ "; " ++ clause_preventive)%string.
Proof.
  split; [reflexivity|].
  pose proof (register_tiering "2026-11-04" None 1 Samples.row_55 55 eq_refl) as T.
  cbv zeta in T. destruct T as (_ & _ & _ & _ & _ & _ & _ & X).
  apply (X 45 60); reflexivity.
Defined.

(** The rows of the register are the entries of the high-risk rows, in
    their order, numbered from [risk_id] on. *)
Lemma register_rows_entries (today : string)
    (recurring : option (list CategoryRecurrence.row)) (risk_id : nat)
    (rows : list CategoryAnalysis.row) :
  register_rows today recurring risk_id rows
  = map (fun ir => register_entry today recurring (fst ir) (snd ir))
        (combine (seq risk_id (length rows)) rows).
Proof.
  revert risk_id. induction rows as [|row rows IH]; intros risk_id; [reflexivity|].
  cbn [register_rows length seq combine map fst snd]. now rewrite IH.
Qed.

(** With a non-empty high-risk frame stored, the call returns the register
    built from its rows and writes it to [output_path]. *)
Lemma generate_risk_register_rows (today output_path : string) (self : State)
    (row : CategoryAnalysis.row) (rows : list CategoryAnalysis.row) :
  high_risk_categories (risk_summary self) = Some (row :: rows) ->
  let register :=
    register_rows today (recurring_by_category (risk_summary self)) 1 (row :: rows) in
  fst (generate_risk_register today output_path self) = Returns (Some register)
  /\ csv_files (snd (generate_risk_register today output_path self))
     = csv_files self ++ [(output_path, register)].
Proof.
  intros E. unfold generate_risk_register. rewrite E. split; reflexivity.
Qed.


(** The whole run on the sample table: A is the high-risk category and its
    entry is High / High / Moderate. *)
Example register_AB :
  let s1 := snd (identify_high_risk_categories (H := stable_argsort)
                   default_threshold_percentile (loaded Samples.table_AB)) in
  let s2 := snd (calculate_resolution_metrics (H := stable_argsort) s1) in
  let s3 := snd (detect_recurring_issues (H := stable_argsort) s2) in
  fst (generate_risk_register "2026-11-04" default_output_path s3)
  = Returns (Some
      [ {| Register.Risk_ID := "RISK-001";
           Register.Category := "A";
           Register.Risk_Description :=
             "Elevated incident rate in A category (10 incidents with 30% recurrence rate). Average resolution time of 12.0 hours indicates potential resource or process constraints.";
           Register.Risk_Level := "High";
           Register.Likelihood := "High";
           Register.Impact := "Moderate";
           Register.Risk_Score := "40.20";
           Register.Incident_Count := 10;
           Register.Avg_Resolution_Hours := "12.0";
           Register.Recurrence_Rate_pct := "30.0";
           Register.Mitigation_Strategy :=
             "Implement preventive controls to reduce incident frequency";
           Register.Status := "Active - Mitigation Required";
           Register.Review_Date := "2026-11-04" |} ]).
Proof. vm_compute. reflexivity. Qed.

(** ** Severities outside the weight table *)



Lemma dropna_filter {A : Type} (f : A -> cell) (g : list A) :
  dropna (map f g) = map (key_of f) (filter (fun i => notna (f i)) g).
Proof.
  induction g as [|i g IH]; [reflexivity|].
  cbn [map dropna filter].
  destruct (f i) as [x|] eqn:E; cbn [notna map]; [|exact IH].
  rewrite IH. f_equal. unfold key_of. now rewrite E.
Qed.




(** ** Formatting *)

Example format_fixed_ex :
  Text.format_fixed 1 (1205 # 100) = "12.0"%string
  /\ Text.format_fixed 2 (402 # 10) = "40.20"%string
  /\ Text.format_fixed 0 (605 # 10) = "60"%string
  /\ Text.format_03d 7 = "007"%string
  /\ Text.digits 1234 = "1234"%string.
Proof. vm_compute. repeat split. Qed.

(** * Further properties *)

(** ** Groups partition the table *)

Lemma list_sum_map_add {A : Type} (f g : A -> nat) (l : list A) :
  list_sum (map (fun a => (f a + g a)%nat) l)
  = (list_sum (map f l) + list_sum (map g l))%nat.
Proof. induction l as [|a l IH]; simpl; lia. Qed.

Lemma list_sum_zero {A : Type} (f : A -> nat) (l : list A) :
  (forall a, In a l -> f a = 0%nat) -> list_sum (map f l) = 0%nat.
Proof.
  induction l as [|a l IH]; intros Z; simpl; [reflexivity|].
  rewrite (Z a) by (now left).
  rewrite IH; [reflexivity|]. intros b I. apply Z. now right.
Qed.

Lemma one_key_matches (k0 : string) (ks : list string) :
  NoDup ks -> In k0 ks ->
  list_sum (map (fun k => if String.eqb k0 k then 1 else 0)%nat ks) = 1%nat.
Proof.
  induction 1 as [|k ks N _ IH]; intros I; [destruct I|].
  cbn [map list_sum fold_right]. fold (list_sum (map (fun k => if String.eqb k0 k then 1 else 0)%nat ks)).
  destruct (String.eqb k0 k) eqn:E.
  - apply String.eqb_eq in E. subst k.
    rewrite list_sum_zero; [reflexivity|].
    intros a Ia. destruct (String.eqb k0 a) eqn:E'; [|reflexivity].
    apply String.eqb_eq in E'. congruence.
  - apply String.eqb_neq in E. destruct I as [C|I]; [congruence|].
    now rewrite IH.
Qed.

Section GroupSizes.

Context {A : Type} (key : A -> option string).

Lemma group_sizes_cover (rows : list A) (ks : list string) :
  NoDup ks ->
  (forall k, In k (present_keys key rows) -> In k ks) ->
  list_sum (map (fun k => length (group_of key rows k)) ks)
  = length (present_keys key rows).
Proof.
  intros N. induction rows as [|r rows IH]; intros C.
  - apply list_sum_zero. reflexivity.
  - assert (S : forall k, length (group_of key (r :: rows) k)
                        = ((if has_key key k r then 1 else 0)
                           + length (group_of key rows k))%nat).
    { intros k. unfold group_of. cbn [filter]. destruct (has_key key k r); reflexivity. }
    rewrite (map_ext _ _ S), list_sum_map_add.
    cbn [present_keys] in *. unfold has_key.
    destruct (key r) as [k0|].
    + rewrite (one_key_matches k0 ks N) by (apply C; now left).
      rewrite IH by (intros k I; apply C; now right). reflexivity.
    + rewrite list_sum_zero by reflexivity. now rewrite IH.
Qed.

Lemma group_sizes_total (rows : list A) :
  list_sum (map (fun k => length (group_of key rows k)) (group_keys key rows))
  = length (present_keys key rows).
Proof.
  apply group_sizes_cover; [apply NoDup_group_keys|].
  intros k I. apply In_group_keys. now apply In_present_keys.
Qed.

End GroupSizes.

Lemma group_of_filter {A : Type} (key : A -> option string) (keep : A -> bool)
    (rows : list A) (k : string) :
  group_of key (filter keep rows) k = filter keep (group_of key rows k).
Proof.
  unfold group_of. induction rows as [|r rows IH]; [reflexivity|].
  cbn [filter]. destruct (keep r) eqn:K, (has_key key k r) eqn:Y;
    cbn [filter]; rewrite ?K, ?Y, IH; reflexivity.
Qed.

Lemma length_present_keys {A : Type} (key : A -> option string) (rows : list A) :
  length (present_keys key rows) = length (filter (fun r => notna (key r)) rows).
Proof.
  induction rows as [|r rows IH]; [reflexivity|].
  cbn [present_keys filter]. destruct (key r); cbn [notna length]; now rewrite IH.
Qed.

(** The rows of the groups that pass a test are the rows with a key that
    pass it. *)
Lemma group_sizes_filter {A : Type} (key : A -> option string) (keep : A -> bool)
    (rows : list A) :
  list_sum (map (fun k => length (filter keep (group_of key rows k))) (group_keys key rows))
  = length (filter (fun r => notna (key r) && keep r) rows).
Proof.
  rewrite (map_ext _ _ (fun k => f_equal (@length _)
                                   (eq_sym (group_of_filter key keep rows k)))).
  rewrite (group_sizes_cover key (filter keep rows) (group_keys key rows)).
  - rewrite length_present_keys. f_equal.
    induction rows as [|r rows IH]; [reflexivity|].
    cbn [filter]. destruct (keep r) eqn:K; cbn [filter];
      destruct (notna (key r)) eqn:N; cbn [andb]; rewrite IH; reflexivity.
  - apply NoDup_group_keys.
  - intros k I. apply In_present_keys in I. destruct I as (r & I & K).
    apply filter_In in I. apply In_group_keys. exists r. tauto.
Qed.

(** X1: the incident counts of the category metrics add up to the number
    of rows that have a category and an identifier, and the recurring
    counts to the number of rows with a category whose recurrence is "Yes":
    within the rows [groupby] keeps, no incident is lost or counted twice.
    When every row has a category and an identifier, the incident counts
    add up to the size of the table. *)
Theorem incident_counts_add_up (t : table) :
  list_sum (map CategoryAnalysis.Incident_Count (category_analysis t))
  = length (filter (fun i => notna (category i) && notna (incident_id i)) t)
  /\ list_sum (map CategoryAnalysis.Recurring_Incidents (category_analysis t))
     = length (filter (fun i => notna (category i) && is_yes i) t)
  /\ ((forall i, In i t -> category i <> None /\ incident_id i <> None) ->
      list_sum (map CategoryAnalysis.Incident_Count (category_analysis t)) = length t).
Proof.
  assert (C : list_sum (map CategoryAnalysis.Incident_Count (category_analysis t))
              = length (filter (fun i => notna (category i) && notna (incident_id i)) t)).
  { unfold category_analysis, groupby. rewrite !map_map.
    cbn [fst snd category_row CategoryAnalysis.Incident_Count].
    rewrite (map_ext _ _ (fun k => count_filter_present incident_id
                                     (group_of by_category_key t k))).
    apply (group_sizes_filter by_category_key
             (fun i => match incident_id i with Some _ => true | None => false end)). }
  split; [exact C|]. split.
  - unfold category_analysis, groupby. rewrite !map_map.
    cbn [fst snd category_row CategoryAnalysis.Recurring_Incidents].
    apply (group_sizes_filter by_category_key is_yes).
  - intros P. rewrite C. f_equal. clear C.
    induction t as [|i t IH]; [reflexivity|].
    cbn [filter]. destruct (P i (or_introl eq_refl)) as [Pc Pi].
    destruct (category i); [|congruence]. destruct (incident_id i); [|congruence].
    cbn [notna andb]. f_equal. apply IH. intros j J. apply P. now right.
Qed.

(** ** The percentile *)




Lemma threshold_in_range (t : table) (p : Q) :
  0 <= p <= 100 ->
  risk_threshold t p
  = Returns
      (match sort_values_Q (dropna (map CategoryAnalysis.Risk_Score (category_analysis t))) with
       | [] => None
       | x :: v => Some (lerp_quantile (x :: v) (p / 100))
       end).
Proof.
  intros P. apply percent_in_range in P. unfold risk_threshold.
  now apply quantile_in_range.
Qed.







(** ** Risk identifiers *)

From Stdlib Require Import Nnat.

Lemma digit_value_of_digit (m : N) :
  (m < 10)%N -> Numeral.digit_value (ascii_of_N (48 + m)) = m.
Proof.
  intros L. unfold Numeral.digit_value.
  rewrite N_ascii_embedding by lia. lia.
Qed.

Lemma value_digits_fuel (fuel : nat) (n : N) (acc : string) :
  (n < 10 ^ N.of_nat fuel)%N -> (0 < fuel)%nat ->
  Numeral.value (Text.digits_fuel fuel n acc)
  = (n * 10 ^ N.of_nat (String.length acc) + Numeral.value acc)%N.
Proof.
  revert n acc. induction fuel as [|fuel IH]; intros n acc B F; [lia|].
  cbn [Text.digits_fuel].
  assert (D : Numeral.value (String (ascii_of_N (48 + n mod 10)) acc)
              = ((n mod 10) * 10 ^ N.of_nat (String.length acc) + Numeral.value acc)%N).
  { cbn [Numeral.value]. rewrite digit_value_of_digit; [reflexivity|].
    apply N.mod_lt. lia. }
  destruct (N.leb n 9) eqn:L.
  - apply N.leb_le in L. rewrite D. rewrite N.mod_small by lia. reflexivity.
  - apply N.leb_gt in L.
    assert (F' : (0 < fuel)%nat).
    { destruct fuel; [|lia]. simpl in B. lia. }
    rewrite IH; [|shelve|exact F'].
    rewrite D. cbn [String.length].
    rewrite Nat2N.inj_succ, N.pow_succ_r'.
    pose proof (N.div_mod n 10) as DM. lia.
    Unshelve.
    rewrite Nat2N.inj_succ, N.pow_succ_r' in B.
    apply N.Div0.div_lt_upper_bound. lia.
Qed.

(** The numeral printed for [n] reads back as [n]. *)
Lemma value_digits (n : N) : Numeral.value (Text.digits n) = n.
Proof.
  unfold Text.digits. rewrite value_digits_fuel; [simpl; lia| |lia].
  destruct n as [|p]; [simpl; lia|].
  rewrite Nat2N.inj_succ, N2Nat.id.
  pose proof (N.log2_spec (N.pos p) ltac:(lia)) as [_ U].
  eapply N.lt_le_trans; [exact U|].
  apply N.pow_le_mono_l. lia.
Qed.

Lemma value_zeros_app (k : nat) (s : string) :
  Numeral.value (Text.zeros k ++ s) = Numeral.value s.
Proof.
  induction k as [|k IH]; [reflexivity|].
  cbn [Text.zeros String.append Numeral.value]. rewrite IH.
  change (Numeral.digit_value "0") with 0%N. lia.
Qed.

Lemma value_format_03d (n : nat) : Numeral.value (Text.format_03d n) = N.of_nat n.
Proof.
  unfold Text.format_03d, Text.zfill. now rewrite value_zeros_app, value_digits.
Qed.

Lemma risk_id_inj (n m : nat) :
  ("RISK-" ++ Text.format_03d n)%string = ("RISK-" ++ Text.format_03d m)%string -> n = m.
Proof.
  intros E. cbn [String.append] in E. inversion E as [E'].
  apply (f_equal Numeral.value) in E'. rewrite !value_format_03d in E'. lia.
Qed.

(** ** The register as a whole *)

Lemma high_risk_sorted_desc_rows `{ArgSort} (t : table) (p : Q)
    (hr : list CategoryAnalysis.row) :
  high_risk t p = Returns hr -> StronglySorted by_score_desc hr.
Proof.
  intros E. destruct (high_risk_rows t p hr E) as (th & _ & P & S).
  revert S. apply StronglySorted_weaken. intros a b Ia Ib.
  apply (Permutation_in _ P), filter_In in Ia, Ib.
  destruct Ia as [_ Ga], Ib as [_ Gb]. apply ge_cell_spec in Ga, Gb.
  destruct Ga as (x & ? & A & _), Gb as (y & ? & B & _).
  unfold nan_last_desc, by_score_desc. now rewrite A, B.
Qed.


Lemma register_entry_category (today : string)
    (recurring : option (list CategoryRecurrence.row)) (risk_id : nat)
    (row : CategoryAnalysis.row) :
  Register.Category (register_entry today recurring risk_id row)
  = CategoryAnalysis.Category row
  /\ Register.Risk_ID (register_entry today recurring risk_id row)
     = ("RISK-" ++ Text.format_03d risk_id)%string
  /\ Register.Incident_Count (register_entry today recurring risk_id row)
     = CategoryAnalysis.Incident_Count row.
Proof.
  unfold register_entry.
  destruct (risk_level_of (CategoryAnalysis.Risk_Score row)). repeat split.
Qed.

Lemma register_rows_ids (today : string)
    (recurring : option (list CategoryRecurrence.row)) (risk_id : nat)
    (rows : list CategoryAnalysis.row) :
  map Register.Risk_ID (register_rows today recurring risk_id rows)
  = map (fun k => ("RISK-" ++ Text.format_03d k)%string) (seq risk_id (length rows))
  /\ map Register.Category (register_rows today recurring risk_id rows)
     = map CategoryAnalysis.Category rows.
Proof.
  revert risk_id. induction rows as [|row rows IH]; intros risk_id; [split; reflexivity|].
  cbn [register_rows map length seq].
  destruct (register_entry_category today recurring risk_id row) as (C & I & _).
  destruct (IH (S risk_id)) as [IH1 IH2].
  now rewrite C, I, IH1, IH2.
Qed.

Lemma register_rows_nth_id (today : string)
    (recurring : option (list CategoryRecurrence.row)) (risk_id : nat)
    (rows : list CategoryAnalysis.row) (i : nat) (e : Register.row) :
  nth_error (register_rows today recurring risk_id rows) i = Some e ->
  Register.Risk_ID e = ("RISK-" ++ Text.format_03d (risk_id + i))%string.
Proof.
  revert risk_id i. induction rows as [|row rows IH]; intros risk_id i N.
  - destruct i; discriminate N.
  - destruct i as [|i]; cbn [register_rows nth_error] in N.
    + inversion N; subst e. rewrite Nat.add_0_r.
      apply (register_entry_category today recurring risk_id row).
    + apply IH in N. now rewrite Nat.add_succ_r.
Qed.

(** X5: with a non-empty high-risk frame stored, the call returns a register
    with one entry per row of the frame, for the same categories in the
    same order; the entry at position [i] (from 0) has the identifier
    RISK- followed by [i + 1] in at least three digits, no two entries share
    an identifier, and the register is the one file written. *)
Theorem register_structure (today output_path : string) (self : State)
    (row : CategoryAnalysis.row) (rows : list CategoryAnalysis.row) :
  high_risk_categories (risk_summary self) = Some (row :: rows) ->
  exists register,
    generate_risk_register today output_path self
    = (Returns (Some register), snd (generate_risk_register today output_path self))
    /\ map Register.Category register = map CategoryAnalysis.Category (row :: rows)
    /\ (forall i e, nth_error register i = Some e ->
                    Register.Risk_ID e = ("RISK-" ++ Text.format_03d (S i))%string)
    /\ NoDup (map Register.Risk_ID register)
    /\ csv_files (snd (generate_risk_register today output_path self))
       = (csv_files self ++ [(output_path, register)])%list.
Proof.
  intros E.
  destruct (generate_risk_register_rows today output_path self row rows E) as [R F].
  cbv zeta in R, F.
  set (register := register_rows today (recurring_by_category (risk_summary self)) 1
                                 (row :: rows)) in *.
  exists register.
  destruct (register_rows_ids today (recurring_by_category (risk_summary self)) 1
              (row :: rows)) as [Ids Cats].
  fold register in Ids, Cats.
  split; [rewrite <- R; apply surjective_pairing|].
  split; [exact Cats|]. split; [|split; [|exact F]].
  - intros i e N. apply register_rows_nth_id in N. exact N.
  - rewrite Ids. apply NoDup_map_NoDup_ForallPairs; [|apply seq_NoDup].
    intros n m _ _. apply risk_id_inj.
Qed.

Lemma register_structure_witness :
  exists register,
    fst (generate_risk_register "2026-11-04" default_output_path
           (snd (identify_high_risk_categories (H := stable_argsort) 50
                   (loaded Samples.table_eight))))
    = Returns (Some register)
    /\ map Register.Risk_ID register
       = ["RISK-001"; "RISK-002"; "RISK-003"; "RISK-004"]%string
    /\ NoDup (map Register.Risk_ID register).
Proof.
  destruct (register_structure "2026-11-04" default_output_path
              (snd (identify_high_risk_categories (H := stable_argsort) 50
                      (loaded Samples.table_eight)))
              (category_row "C8" (group_of by_category_key Samples.table_eight "C8"))
              (map (fun k => category_row k (group_of by_category_key Samples.table_eight k))
                   ["C7"; "C6"; "C5"]%string))
    as (register & E & _ & _ & N & _).
  { vm_compute. reflexivity. }
  exists register. split; [now rewrite E|]. split; [|exact N].
  apply (f_equal fst) in E. cbn [fst] in E.
  assert (V : fst (generate_risk_register "2026-11-04" default_output_path
                     (snd (identify_high_risk_categories (H := stable_argsort) 50
                             (loaded Samples.table_eight))))
              = Returns (Some (register_rows "2026-11-04" None 1
                   (map (fun k => category_row k (group_of by_category_key Samples.table_eight k))
                        ["C8"; "C7"; "C6"; "C5"]%string))))
    by (vm_compute; reflexivity).
  rewrite V in E. inversion E; subst register. vm_compute. reflexivity.
Defined.

Lemma risk_level_rank_mono (x y : Q) :
  y <= x ->
  (level_rank (fst (risk_level_of (Some y)))
   <= level_rank (fst (risk_level_of (Some x))))%nat.
Proof.
  intros L.
  destruct (risk_level_of_cases x) as [[B ->]|[[B ->]|[[B ->]|[B ->]]]];
    destruct (risk_level_of_cases y) as [[C ->]|[[C ->]|[[C ->]|[C ->]]]];
    cbn; try lia; exfalso; lra.
Qed.

Lemma register_rows_In (today : string)
    (recurring : option (list CategoryRecurrence.row)) (risk_id : nat)
    (rows : list CategoryAnalysis.row) (e : Register.row) :
  In e (register_rows today recurring risk_id rows) ->
  exists k row, In row rows /\ e = register_entry today recurring k row.
Proof.
  revert risk_id. induction rows as [|row rows IH]; intros risk_id I; [destruct I|].
  cbn [register_rows] in I. destruct I as [<-|I].
  - exists risk_id, row. split; [now left|reflexivity].
  - apply IH in I. destruct I as (k & row' & I & E). exists k, row'. split; [now right|exact E].
Qed.

(** X6: the register lists the risk levels from the top down: an entry is
    never followed by an entry of a higher level (Critical above High above
    Medium above Low), because the rows arrive in descending order of
    score. *)
Theorem register_levels_descend `{ArgSort} (t : table) (p : Q)
    (hr : list CategoryAnalysis.row) (today : string)
    (recurring : option (list CategoryRecurrence.row)) (risk_id : nat) :
  high_risk t p = Returns hr ->
  StronglySorted
    (fun a b => (level_rank (Register.Risk_Level b)
                 <= level_rank (Register.Risk_Level a))%nat)
    (register_rows today recurring risk_id hr).
Proof.
  intros E. apply high_risk_sorted_desc_rows in E.
  revert risk_id. induction E as [|row rows S IH F]; intros risk_id; [constructor|].
  cbn [register_rows]. constructor; [apply IH|].
  apply Forall_forall. intros e I. apply register_rows_In in I.
  destruct I as (k & row' & I & ->).
  rewrite Forall_forall in F. specialize (F row' I). unfold by_score_desc in F.
  destruct (register_entry_fields today recurring risk_id row) as (L & _).
  destruct (register_entry_fields today recurring k row') as (L' & _).
  rewrite L, L'.
  destruct (CategoryAnalysis.Risk_Score row) as [x|]; [|destruct F].
  destruct (CategoryAnalysis.Risk_Score row') as [y|]; [|destruct F].
  now apply risk_level_rank_mono.
Qed.

Lemma register_levels_descend_witness :
  exists hr,
    high_risk (H := stable_argsort) Samples.table_eight 0 = Returns hr
    /\ StronglySorted
         (fun a b => (level_rank (Register.Risk_Level b)
                      <= level_rank (Register.Risk_Level a))%nat)
         (register_rows "2026-11-04" None 1 hr).
Proof.
  eexists. split; [vm_compute; reflexivity|].
  apply (register_levels_descend (H := stable_argsort) Samples.table_eight 0).
  vm_compute. reflexivity.
Defined.

(** ** Scoring, then the register *)

Lemma identify_stores `{ArgSort} (t : table) (p : Q) (hr : list CategoryAnalysis.row) :
  high_risk t p = Returns hr ->
  fst (identify_high_risk_categories p (loaded t)) = Returns hr
  /\ high_risk_categories
       (risk_summary (snd (identify_high_risk_categories p (loaded t)))) = Some hr
  /\ recurring_by_category
       (risk_summary (snd (identify_high_risk_categories p (loaded t)))) = None
  /\ csv_files (snd (identify_high_risk_categories p (loaded t))) = [].
Proof.
  intros E. unfold identify_high_risk_categories. cbn [df loaded]. rewrite E.
  repeat split.
Qed.

Lemma filter_none {A : Type} (f : A -> bool) (l : list A) :
  (forall x, In x l -> f x = false) -> filter f l = [].
Proof.
  induction l as [|x l IH]; intros N; [reflexivity|].
  cbn [filter]. rewrite (N x) by (now left). apply IH. intros y I. apply N. now right.
Qed.

Lemma no_score_without_weight (t : table) (row : CategoryAnalysis.row) :
  (forall i, In i t -> weight_of (severity i) = None) ->
  In row (category_analysis t) -> CategoryAnalysis.Risk_Score row = None.
Proof.
  intros N I. apply In_category_analysis in I. destruct I as (k & _ & ->).
  cbn [category_row CategoryAnalysis.Risk_Score].
  assert (D : dropna (map (fun r => weight_of (severity r))
                          (group_of by_category_key t k)) = []).
  { rewrite dropna_filter.
    assert (F : filter (fun i => notna (weight_of (severity i)))
                       (group_of by_category_key t k) = []).
    { apply filter_none. intros i J. apply In_group_of in J. destruct J as [J _].
      now rewrite (N i J). }
    now rewrite F. }
  unfold mean. now rewrite D.
Qed.

(** X7: when no record of a non-empty table has a severity of the weight table, no
    category has a score and scoring returns an empty frame; building the
    register from it writes an empty register file and then fails with a
    [KeyError] on the column Risk_Level instead of returning. *)
Theorem register_without_scores `{ArgSort} (t : table) (p : Q)
    (today output_path : string) :
  0 <= p <= 100 -> t <> [] ->
  (forall i, In i t -> weight_of (severity i) = None) ->
  let scored := identify_high_risk_categories p (loaded t) in
  let built := generate_risk_register today output_path (snd scored) in
  fst scored = Returns []
  /\ fst built = Raises (KeyError "Risk_Level")
  /\ csv_files (snd built) = [(output_path, [])].
Proof.
  intros P _ N scored built.
  assert (E : high_risk t p = Returns []).
  { unfold high_risk. rewrite (threshold_in_range t p P).
    assert (F : forall th, filter (fun r => ge_cell (CategoryAnalysis.Risk_Score r) th)
                                  (category_analysis t) = []).
    { intros th. apply filter_none.
      intros row I. now rewrite (no_score_without_weight t row N I). }
    now rewrite F, sort_values_nil. }
  destruct (identify_stores t p [] E) as (R & S & _ & C).
  fold scored in R, S, C.
  split; [exact R|].
  unfold built, generate_risk_register. rewrite S. cbn [register_rows].
  split; [reflexivity|]. cbn [snd csv_files print to_csv]. now rewrite C.
Qed.

Lemma register_without_scores_witness :
  0 <= 75 <= 100
  /\ Samples.table_all_unmapped <> []
  /\ (forall i, In i Samples.table_all_unmapped -> weight_of (severity i) = None)
  /\ fst (generate_risk_register "2026-11-04" default_output_path
            (snd (identify_high_risk_categories (H := stable_argsort) 75
                    (loaded Samples.table_all_unmapped))))
     = Raises (KeyError "Risk_Level").
Proof.
  assert (P : 0 <= 75 <= 100) by (split; discriminate).
  assert (N : forall i, In i Samples.table_all_unmapped ->
                        weight_of (severity i) = None).
  { intros i [<-|[]]. reflexivity. }
  assert (NE : Samples.table_all_unmapped <> []) by discriminate.
  split; [exact P|]. split; [exact NE|]. split; [exact N|].
  exact (proj1 (proj2 (register_without_scores (H := stable_argsort)
                         Samples.table_all_unmapped 75 "2026-11-04"
                         default_output_path P NE N))).
Defined.



(** ** Resolution metrics by category *)

Lemma round_half_even_mono (x y : Q) : x <= y -> (round_half_even x <= round_half_even y)%Z.
Proof.
  intros L. pose proof (Qfloor_resp_le _ _ L) as F.
  assert (Bx : (Qfloor x <= round_half_even x <= Qfloor x + 1)%Z).
  { unfold round_half_even. destruct (Qcompare _ _); [destruct (Z.even _)| |]; lia. }
  assert (By : (Qfloor y <= round_half_even y <= Qfloor y + 1)%Z).
  { unfold round_half_even. destruct (Qcompare _ _); [destruct (Z.even _)| |]; lia. }
  destruct (Z.eq_dec (Qfloor x) (Qfloor y)) as [E|NE]; [|lia].
  unfold round_half_even in *. rewrite <- E in *.
  destruct (Qcompare (x - inject_Z (Qfloor x)) (1 # 2)) eqn:Cx;
    destruct (Qcompare (y - inject_Z (Qfloor x)) (1 # 2)) eqn:Cy;
    try (destruct (Z.even (Qfloor x))); try lia; exfalso;
    repeat match goal with
    | C : Qcompare _ _ = Eq |- _ => apply Qeq_alt in C
    | C : Qcompare _ _ = Lt |- _ => apply Qlt_alt in C
    | C : Qcompare _ _ = Gt |- _ => apply Qgt_alt in C
    end; lra.
Qed.

Lemma np_round_mono (d : nat) (x y : Q) : x <= y -> np_round d x <= np_round d y.
Proof.
  intros L. pose proof (pow10_pos d) as P. rewrite !np_round_eq.
  apply Qmult_le_compat_r; [|apply Qlt_le_weak, Qinv_lt_0_compat, P].
  rewrite <- Zle_Qle. apply round_half_even_mono. nra.
Qed.



Lemma sum_bounds (a b : Q) (l : list Q) :
  (forall y, In y l -> a <= y <= b) ->
  a * of_nat (length l) <= sum l <= b * of_nat (length l).
Proof.
  induction l as [|y l IH]; intros B.
  - change (of_nat (length (@nil Q))) with 0. change (sum []) with 0. lra.
  - assert (S : of_nat (length (y :: l)) == of_nat (length l) + 1).
    { unfold of_nat. cbn [length]. rewrite Nat2Z.inj_succ, <- Z.add_1_r.
      now rewrite inject_Z_plus. }
    rewrite S. change (sum (y :: l)) with (y + sum l).
    destruct (B y (or_introl eq_refl)) as [B1 B2].
    destruct IH as [I1 I2]; [intros z J; apply B; now right|]. lra.
Qed.

Lemma mean_total_bounds (a b : Q) (l : list Q) :
  l <> [] -> (forall y, In y l -> a <= y <= b) -> a <= mean_total l <= b.
Proof.
  intros NE B. destruct (sum_bounds a b l B) as [S1 S2].
  pose proof (of_nat_pos _ (length_nonempty l NE)) as P.
  unfold mean_total. split.
  - apply Qle_shift_div_l; assumption.
  - apply Qle_shift_div_r; assumption.
Qed.

Lemma dropna_map_Some {A : Type} (l : list A) : dropna (map Some l) = l.
Proof. induction l as [|x l IH]; simpl; [reflexivity|]. now rewrite IH. Qed.


Lemma mean_none (cs : list cell) : dropna cs = [] -> mean cs = None.
Proof. intros E. unfold mean. now rewrite E. Qed.



(** ** The recurrence frames *)

Lemma list_sum_perm (l l' : list nat) : Permutation l l' -> list_sum l = list_sum l'.
Proof. induction 1; simpl; lia. Qed.

Lemma of_nat_le_inv (n m : nat) : of_nat n <= of_nat m -> (n <= m)%nat.
Proof. unfold of_nat. rewrite <- Zle_Qle. lia. Qed.

Lemma filter_filter {A : Type} (f g : A -> bool) (l : list A) :
  filter f (filter g l) = filter (fun x => g x && f x) l.
Proof.
  induction l as [|x l IH]; [reflexivity|].
  cbn [filter]. destruct (g x); cbn [filter andb]; now rewrite IH.
Qed.



Lemma In_category_recurrence `{ArgSort} (recurring : table) (r : CategoryRecurrence.row) :
  In r (category_recurrence recurring) <->
  exists k, In k (group_keys by_category_key recurring)
            /\ r = recurrence_row k (group_of by_category_key recurring k).
Proof.
  unfold category_recurrence. rewrite In_sort_values, in_map_iff. split.
  - intros ([k g] & <- & I). apply In_groupby in I. destruct I as [K ->]. eauto.
  - intros (k & K & ->). exists (k, group_of by_category_key recurring k).
    split; [reflexivity|]. now apply In_groupby.
Qed.

Lemma category_recurrence_sorted `{ArgSort} (recurring : table) :
  StronglySorted (fun a b => (CategoryRecurrence.Recurring_Count b
                              <= CategoryRecurrence.Recurring_Count a)%nat)
                 (category_recurrence recurring).
Proof.
  pose proof (sort_values_desc
                (fun r => Some (of_nat (CategoryRecurrence.Recurring_Count r)))
                (map (fun kg => recurrence_row (fst kg) (snd kg))
                     (groupby by_category_key recurring))) as S.
  revert S. apply StronglySorted_weaken. intros a b _ _ D.
  now apply of_nat_le_inv.
Qed.


(** *** The join of the affected categories *)

Lemma same_cell_eq (a b : option string) : same_cell a b = true <-> a = b.
Proof.
  destruct a as [x|], b as [y|]; cbn [same_cell]; try (split; congruence).
  rewrite String.eqb_eq. split; congruence.
Qed.

Lemma In_unique_first_seen (seen xs : list (option string)) (x : option string) :
  In x (unique_first_seen seen xs) <-> In x xs /\ ~ In x seen.
Proof.
  revert seen. induction xs as [|y xs IH]; intros seen; cbn [unique_first_seen].
  - simpl. tauto.
  - destruct (existsb (same_cell y) seen) eqn:E.
    + apply existsb_exists in E. destruct E as (z & Z & S). apply same_cell_eq in S. subst z.
      rewrite IH. split.
      * intros [I N]. split; [now right|exact N].
      * intros [[<-|I] N]; [contradiction|tauto].
    + assert (N : ~ In y seen).
      { intros I. apply not_true_iff_false in E. apply E.
        apply existsb_exists. exists y. split; [exact I|]. now apply same_cell_eq. }
      cbn [In]. rewrite IH. cbn [In]. split.
      * intros [<-|[I M]]; [split; [now left|exact N]|]. split; [now right|tauto].
      * intros [[<-|I] M]; [now left|].
        destruct (same_cell y x) eqn:S.
        -- apply same_cell_eq in S. now left.
        -- right. split; [exact I|]. intros [C|C]; [|contradiction].
           apply not_true_iff_false in S. apply S. now apply same_cell_eq.
Qed.

Lemma first_nan_none (k : nat) (values : list (option string)) :
  Text.first_nan k values = None <-> ~ In None values.
Proof.
  revert k. induction values as [|[v|] values IH]; intros k; cbn [Text.first_nan In].
  - tauto.
  - rewrite IH. split; [intros N [C|C]; [discriminate|contradiction]|tauto].
  - split; [discriminate|]. intros N. exfalso. apply N. now left.
Qed.

Lemma first_nan_some (k j : nat) (values : list (option string)) :
  Text.first_nan k values = Some j -> In None values.
Proof.
  revert k. induction values as [|[v|] values IH]; intros k; cbn [Text.first_nan In].
  - discriminate.
  - intros E. right. now apply (IH (S k)).
  - intros _. now left.
Qed.

Lemma join_cells_cases (sep : string) (values : list (option string)) :
  (~ In None values /\ join_cells sep values = Returns (Text.join sep (dropna values)))
  \/ (In None values /\ exists msg, join_cells sep values = Raises (TypeError msg)).
Proof.
  unfold join_cells. destruct (Text.first_nan 0 values) as [k|] eqn:E.
  - right. split; [now apply (first_nan_some 0 k)|eauto].
  - left. split; [now apply (first_nan_none 0)|reflexivity].
Qed.

(** The row of a root cause when the join goes through. *)
Lemma root_cause_row_cases (k : string) (g : table) :
  ((forall i, In i g -> category i <> None)
   /\ root_cause_row k g
      = Returns {| RootCauseAnalysis.Root_Cause := k;
                   RootCauseAnalysis.Occurrence_Count := count (map incident_id g);
                   RootCauseAnalysis.Affected_Categories :=
                     Text.join ", " (dropna (unique_first_seen [] (map category g))) |})
  \/ ((exists i, In i g /\ category i = None)
      /\ exists msg, root_cause_row k g = Raises (TypeError msg)).
Proof.
  unfold root_cause_row.
  destruct (join_cells_cases ", " (unique_first_seen [] (map category g)))
    as [[N ->]|[I [msg ->]]].
  - left. split; [|reflexivity]. intros i Ii C. apply N.
    apply In_unique_first_seen. split; [|tauto]. rewrite <- C. now apply in_map.
  - right. split; [|eauto]. apply In_unique_first_seen in I. destruct I as [I _].
    apply in_map_iff in I. destruct I as (i & C & Ii). eauto.
Qed.

Lemma collect_returns {A B : Type} (f : A -> result B) (g : A -> B) (l : list A) :
  (forall x, In x l -> f x = Returns (g x)) -> collect (map f l) = Returns (map g l).
Proof.
  induction l as [|x l IH]; intros P; [reflexivity|].
  cbn [map collect]. rewrite (P x) by (now left).
  rewrite IH; [reflexivity|]. intros y I. apply P. now right.
Qed.

Lemma collect_raises {A B : Type} (f : A -> result B) (P : exn -> Prop) (l : list A)
    (x : A) (e : exn) :
  (forall y e', In y l -> f y = Raises e' -> P e') ->
  In x l -> f x = Raises e ->
  exists e', collect (map f l) = Raises e' /\ P e'.
Proof.
  induction l as [|y l IH]; intros Q I E; [destruct I|].
  cbn [map collect]. destruct (f y) as [b|e'] eqn:F.
  - destruct I as [->|I]; [congruence|].
    destruct IH as (e'' & -> & Pe); [|exact I|exact E|eauto].
    intros z e0 J. apply Q. now right.
  - exists e'. split; [reflexivity|]. apply (Q y); [now left|exact F].
Qed.


Lemma root_cause_analysis_returns `{ArgSort} (recurring : table) :
  (forall i, In i recurring -> root_cause i <> None -> category i <> None) ->
  root_cause_analysis recurring
  = Returns (head 10
               (sort_values (fun r => Some (of_nat (RootCauseAnalysis.Occurrence_Count r)))
                            false
                            (map (root_cause_entry recurring)
                                 (group_keys root_cause recurring)))).
Proof.
  intros P. unfold root_cause_analysis, groupby. rewrite map_map. cbn [fst snd].
  rewrite (collect_returns _ (root_cause_entry recurring)); [reflexivity|].
  intros k K.
  destruct (root_cause_row_cases k (group_of root_cause recurring k))
    as [[_ E]|[(i & I & C) _]]; [exact E|].
  exfalso. apply In_group_of in I. destruct I as [I R].
  apply (P i I); [congruence|exact C].
Qed.

Lemma root_cause_analysis_raises `{ArgSort} (recurring : table) (i : IncidentRecord) :
  In i recurring -> root_cause i <> None -> category i = None ->
  exists msg, root_cause_analysis recurring = Raises (TypeError msg).
Proof.
  intros I R C. destruct (root_cause i) as [k|] eqn:K; [|congruence].
  unfold root_cause_analysis, groupby. rewrite map_map. cbn [fst snd].
  destruct (root_cause_row_cases k (group_of root_cause recurring k))
    as [[N _]|[_ [msg0 E0]]].
  { exfalso. apply (N i); [apply In_group_of; auto|exact C]. }
  destruct (collect_raises
              (fun k => root_cause_row k (group_of root_cause recurring k))
              (fun e => exists msg, e = TypeError msg)
              (group_keys root_cause recurring) k (TypeError msg0))
    as (e & -> & msg & ->).
  - intros k' e' _ E.
    destruct (root_cause_row_cases k' (group_of root_cause recurring k'))
      as [[_ E']|[_ [msg E']]]; rewrite E' in E; inversion E; eauto.
  - apply In_group_keys. eauto.
  - exact E0.
  - eauto.
Qed.

Lemma join_failure_dec (recurring : table) :
  (forall i, In i recurring -> root_cause i <> None -> category i <> None)
  \/ (exists i, In i recurring /\ root_cause i <> None /\ category i = None).
Proof.
  induction recurring as [|j recurring [IH|(i & I & R & C)]].
  - left. intros i [].
  - destruct (root_cause j) eqn:R; [destruct (category j) eqn:C|].
    + left. intros i [<-|I]; [congruence|now apply IH].
    + right. exists j. split; [now left|]. split; congruence.
    + left. intros i [<-|I]; [congruence|now apply IH].
  - right. exists i. split; [now right|tauto].
Qed.

(** The root-cause frame, when the call returns one. *)
Lemma root_cause_frame `{ArgSort} (recurring : table) (rca : list RootCauseAnalysis.row) :
  root_cause_analysis recurring = Returns rca ->
  rca = head 10
          (sort_values (fun r => Some (of_nat (RootCauseAnalysis.Occurrence_Count r)))
                       false
                       (map (root_cause_entry recurring) (group_keys root_cause recurring))).
Proof.
  intros E. destruct (join_failure_dec recurring) as [P|(i & I & R & C)].
  - rewrite (root_cause_analysis_returns recurring P) in E. now inversion E.
  - destruct (root_cause_analysis_raises recurring i I R C) as [msg E']. congruence.
Qed.

Lemma In_firstn {A : Type} (n : nat) (l : list A) (x : A) : In x (firstn n l) -> In x l.
Proof. intros I. rewrite <- (firstn_skipn n l). apply in_or_app. now left. Qed.

Lemma firstn_full {A : Type} (n : nat) (l : list A) (x : A) :
  In x l -> In x (firstn n l) \/ length (firstn n l) = n.
Proof.
  intros I. destruct (Nat.le_gt_cases (length l) n) as [L|L].
  - left. now rewrite firstn_all2.
  - right. apply firstn_length_le. lia.
Qed.

Lemma firstn_sorted {A : Type} (R : A -> A -> Prop) (n : nat) (l : list A) :
  StronglySorted R l -> StronglySorted R (firstn n l).
Proof.
  intros S. rewrite <- (firstn_skipn n l) in S. revert S.
  generalize (firstn n l) as l1. generalize (skipn n l) as l2.
  intros l2 l1. induction l1 as [|x l1 IH]; intros S; [constructor|].
  cbn [app] in S. apply StronglySorted_inv in S. destruct S as [S F].
  constructor; [now apply IH|].
  apply Forall_app in F. tauto.
Qed.

Lemma StronglySorted_app_inv {A : Type} (R : A -> A -> Prop) (l1 l2 : list A) :
  StronglySorted R (l1 ++ l2) -> forall a b, In a l1 -> In b l2 -> R a b.
Proof.
  induction l1 as [|x l1 IH]; intros S a b Ia Ib; [destruct Ia|].
  cbn [app] in S. apply StronglySorted_inv in S. destruct S as [S F].
  destruct Ia as [<-|Ia].
  - rewrite Forall_forall in F. apply F, in_or_app. now right.
  - now apply IH.
Qed.

Lemma NoDup_firstn {A : Type} (n : nat) (l : list A) : NoDup l -> NoDup (firstn n l).
Proof.
  revert n. induction l as [|x l IH]; intros [|n] N; cbn [firstn]; try constructor.
  - inversion N as [|? ? X N']; subst. intros I. apply X. now apply (In_firstn n).
  - inversion N; subst. now apply IH.
Qed.

(** What the root-cause frame holds: the rows that were sorted, and the
    ten that were kept. *)
Lemma root_cause_rows `{ArgSort} (recurring : table) (rca : list RootCauseAnalysis.row) :
  root_cause_analysis recurring = Returns rca ->
  exists all,
    rca = firstn 10 all
    /\ StronglySorted (fun a b => (RootCauseAnalysis.Occurrence_Count b
                                   <= RootCauseAnalysis.Occurrence_Count a)%nat) all
    /\ NoDup (map RootCauseAnalysis.Root_Cause all)
    /\ forall r, In r all <->
                 exists k, In k (group_keys root_cause recurring)
                           /\ r = root_cause_entry recurring k.
Proof.
  intros E. apply root_cause_frame in E. unfold head in E.
  set (col := fun r => Some (of_nat (RootCauseAnalysis.Occurrence_Count r))) in *.
  set (rows := map (root_cause_entry recurring) (group_keys root_cause recurring)) in *.
  exists (sort_values col false rows). split; [exact E|]. split; [|split].
  - pose proof (sort_values_desc col rows) as S. revert S.
    apply StronglySorted_weaken. intros a b _ _ D. now apply of_nat_le_inv.
  - eapply Permutation_NoDup.
    + apply Permutation_map. symmetry. apply sort_values_perm.
    + unfold rows. rewrite map_map. cbn [root_cause_entry RootCauseAnalysis.Root_Cause].
      rewrite map_id. apply NoDup_group_keys.
  - intros r. rewrite In_sort_values. unfold rows. rewrite in_map_iff. split.
    + intros (k & <- & K). eauto.
    + intros (k & K & ->). eauto.
Qed.

(** X10: the per-category recurrence frame agrees with the category
    metrics.  It has a row exactly for the categories with a recurring
    incident, in descending order of count.  Its count is the number of
    identifiers among the recurring incidents of the category: at most the
    recurring incidents and the incident count of the category metrics, and
    equal to the former when every record of the category has an
    identifier. *)
Theorem recurrence_matches_scoring `{ArgSort} (t : table) :
  let cr := category_recurrence (filter is_yes t) in
  StronglySorted (fun a b => (CategoryRecurrence.Recurring_Count b
                              <= CategoryRecurrence.Recurring_Count a)%nat) cr
  /\ (forall r, In r cr ->
        exists row, In row (category_analysis t)
                    /\ CategoryAnalysis.Category row = CategoryRecurrence.Category r
                    /\ (1 <= CategoryAnalysis.Recurring_Incidents row)%nat
                    /\ (CategoryRecurrence.Recurring_Count r
                        <= CategoryAnalysis.Recurring_Incidents row)%nat
                    /\ (CategoryRecurrence.Recurring_Count r
                        <= CategoryAnalysis.Incident_Count row)%nat
                    /\ ((forall i, In i t ->
                           category i = Some (CategoryRecurrence.Category r) ->
                           incident_id i <> None) ->
                        CategoryRecurrence.Recurring_Count r
                        = CategoryAnalysis.Recurring_Incidents row))
  /\ (forall row, In row (category_analysis t) ->
        (1 <= CategoryAnalysis.Recurring_Incidents row)%nat ->
        exists r, In r cr
                  /\ CategoryRecurrence.Category r = CategoryAnalysis.Category row)
  /\ list_sum (map CategoryRecurrence.Recurring_Count cr)
     = length (filter (fun i => notna (category i) && notna (incident_id i))
                      (filter is_yes t)).
Proof.
  intros cr. split; [apply category_recurrence_sorted|]. split; [|split].
  - intros r I. apply In_category_recurrence in I. destruct I as (k & K & ->).
    cbn [recurrence_row CategoryRecurrence.Recurring_Count CategoryRecurrence.Category].
    exists (category_row k (group_of by_category_key t k)).
    rewrite group_of_filter.
    set (g := group_of by_category_key t k).
    cbn [category_row CategoryAnalysis.Category CategoryAnalysis.Recurring_Incidents
         CategoryAnalysis.Incident_Count].
    apply In_group_keys in K. destruct K as (i & I & Ki).
    pose proof I as I'. apply filter_In in I'. destruct I' as [It Y].
    assert (G : In i (filter is_yes g)).
    { apply filter_In. split; [|exact Y]. apply In_group_of. auto. }
    rewrite !count_filter_present.
    set (has_id := fun x : IncidentRecord =>
                     match incident_id x with Some _ => true | None => false end).
    split; [apply In_category_analysis; exists k; split; [|reflexivity];
            apply In_group_keys; exists i; auto|].
    split; [reflexivity|].
    split; [apply length_nonempty; intros Z; rewrite Z in G; destruct G|].
    split; [apply filter_length_le|].
    split.
    { rewrite filter_filter. clear. induction g as [|x g IH]; [simpl; lia|].
      cbn [filter]. destruct (is_yes x), (has_id x); cbn [andb length]; lia. }
    intros P. rewrite filter_filter.
    f_equal. apply filter_ext_in. intros x X.
    unfold g in X. apply In_group_of in X.
    destruct X as [Xt Xk]. unfold has_id.
    destruct (incident_id x) eqn:Ix; [now rewrite andb_true_r|].
    exfalso. now apply (P x Xt Xk).
  - intros row I R. apply In_category_analysis in I. destruct I as (k & K & ->).
    cbn [category_row CategoryAnalysis.Recurring_Incidents CategoryAnalysis.Category] in *.
    exists (recurrence_row k (group_of by_category_key (filter is_yes t) k)).
    split; [|reflexivity].
    apply In_category_recurrence. exists k. split; [|reflexivity].
    destruct (filter is_yes (group_of by_category_key t k)) as [|i g] eqn:E;
      [simpl in R; lia|].
    assert (J : In i (filter is_yes (group_of by_category_key t k)))
      by (rewrite E; now left).
    apply filter_In in J. destruct J as [J Y]. apply In_group_of in J.
    apply In_group_keys. exists i. split; [|tauto]. apply filter_In. tauto.
  - unfold cr, category_recurrence.
    rewrite (list_sum_perm _ _
               (Permutation_map CategoryRecurrence.Recurring_Count
                  (sort_values_perm _ false _))).
    unfold groupby. rewrite !map_map.
    cbn [fst snd recurrence_row CategoryRecurrence.Recurring_Count].
    rewrite (map_ext _ _ (fun k => count_filter_present incident_id
                                     (group_of by_category_key (filter is_yes t) k))).
    apply (group_sizes_filter by_category_key
             (fun i => match incident_id i with Some _ => true | None => false end)).
Qed.

(** X11: when the root-cause frame is built, it has at most ten rows, in
    descending order of occurrence count, one for a root cause.  Each row is
    for a root cause recorded on a recurring incident and counts the
    identifiers of the recurring incidents carrying it.  The cut keeps the
    largest: a root cause is left out only of a frame of ten rows, and it
    then occurs no more often than any that is kept. *)
Theorem top_root_causes `{ArgSort} (recurring : table)
    (rca : list RootCauseAnalysis.row) :
  root_cause_analysis recurring = Returns rca ->
  let occurrences := fun c =>
    count (map incident_id (filter (fun i => eq_cell (root_cause i) c) recurring)) in
  (length rca <= 10)%nat
  /\ StronglySorted (fun a b => (RootCauseAnalysis.Occurrence_Count b
                                 <= RootCauseAnalysis.Occurrence_Count a)%nat) rca
  /\ NoDup (map RootCauseAnalysis.Root_Cause rca)
  /\ (forall r, In r rca ->
        RootCauseAnalysis.Occurrence_Count r = occurrences (RootCauseAnalysis.Root_Cause r)
        /\ exists i, In i recurring
                     /\ root_cause i = Some (RootCauseAnalysis.Root_Cause r))
  /\ (forall i c, In i recurring -> root_cause i = Some c ->
        In c (map RootCauseAnalysis.Root_Cause rca)
        \/ (length rca = 10%nat
            /\ forall r, In r rca ->
                 (occurrences c <= RootCauseAnalysis.Occurrence_Count r)%nat)).
Proof.
  intros E occurrences. destruct (root_cause_rows recurring rca E) as (all & -> & S & N & Rows).
  split; [apply firstn_le_length|]. split; [now apply firstn_sorted|].
  split; [rewrite <- firstn_map; now apply NoDup_firstn|]. split.
  - intros r I. apply In_firstn, Rows in I. destruct I as (k & K & ->).
    cbn [root_cause_entry RootCauseAnalysis.Occurrence_Count RootCauseAnalysis.Root_Cause].
    split; [reflexivity|]. apply In_group_keys in K. exact K.
  - intros i c I C.
    assert (Ia : In (root_cause_entry recurring c) all)
      by (apply Rows; exists c; split; [apply In_group_keys; eauto|reflexivity]).
    pose proof Ia as Ib. rewrite <- (firstn_skipn 10 all) in Ib. apply in_app_or in Ib.
    destruct Ib as [Ib|Ib].
    + left. apply in_map_iff. exists (root_cause_entry recurring c). split; [reflexivity|exact Ib].
    + right. split.
      * destruct (firstn_full 10 all _ Ia) as [F|F]; [|exact F].
        destruct (Nat.le_gt_cases (length all) 10) as [L|L].
        -- rewrite skipn_all2 in Ib by exact L. destruct Ib.
        -- apply firstn_length_le. lia.
      * intros r Ir. rewrite <- (firstn_skipn 10 all) in S.
        exact (StronglySorted_app_inv _ _ _ S _ _ Ir Ib).
Qed.

Lemma top_root_causes_witness :
  exists rca,
    root_cause_analysis (H := stable_argsort) (filter is_yes Samples.table_AB) = Returns rca
    /\ (length rca <= 10)%nat
    /\ NoDup (map RootCauseAnalysis.Root_Cause rca).
Proof.
  eexists. split; [vm_compute; reflexivity|].
  destruct (top_root_causes (H := stable_argsort) (filter is_yes Samples.table_AB) _
              ltac:(vm_compute; reflexivity)) as (L & _ & N & _).
  split; assumption.
Defined.




(** ** The order of the labels *)

Lemma ascii_compare_cases (c d : ascii) :
  match Ascii.compare c d with
  | Eq => c = d
  | Lt => (N_of_ascii c < N_of_ascii d)%N
  | Gt => (N_of_ascii d < N_of_ascii c)%N
  end.
Proof.
  destruct (Ascii.compare c d) eqn:E.
  - now apply Ascii.compare_eq_iff.
  - unfold Ascii.compare in E. now apply N.compare_lt_iff.
  - unfold Ascii.compare in E. now apply N.compare_gt_iff.
Qed.

Lemma string_leb_trans (s1 s2 s3 : string) :
  String.leb s1 s2 = true -> String.leb s2 s3 = true -> String.leb s1 s3 = true.
Proof.
  unfold String.leb. revert s2 s3.
  induction s1 as [|c1 s1 IH]; intros [|c2 s2] [|c3 s3]; cbn [String.compare];
    try reflexivity; try discriminate.
  pose proof (ascii_compare_cases c1 c2) as A12.
  pose proof (ascii_compare_cases c2 c3) as A23.
  pose proof (ascii_compare_cases c1 c3) as A13.
  destruct (Ascii.compare c1 c2); try discriminate;
    destruct (Ascii.compare c2 c3); try discriminate;
    destruct (Ascii.compare c1 c3); subst; try reflexivity; try lia;
    try (intros; exfalso; lia).
  apply IH.
Qed.

Lemma insert_key_sorted (k : string) (l : list string) :
  StronglySorted (fun a b => String.leb a b = true) l ->
  StronglySorted (fun a b => String.leb a b = true) (insert_key k l).
Proof.
  induction 1 as [|k' l S IH F]; cbn [insert_key].
  - repeat constructor.
  - destruct (String.leb k k') eqn:B.
    + constructor; [now constructor|]. constructor; [exact B|].
      rewrite Forall_forall in *. intros z I. eapply string_leb_trans; [exact B|now apply F].
    + constructor; [assumption|].
      eapply Permutation_Forall; [symmetry; apply insert_key_perm|].
      constructor; [|assumption].
      destruct (String.leb_total k k') as [T|T]; congruence.
Qed.

Lemma sort_keys_sorted (l : list string) :
  StronglySorted (fun a b => String.leb a b = true) (sort_keys l).
Proof.
  induction l as [|k l IH]; cbn [sort_keys fold_right]; [constructor|].
  now apply insert_key_sorted.
Qed.

(** X12: the category metrics have exactly one row for every category that
    occurs in the table, and the rows are in ascending order of the category
    label (the order of the bytes of the labels). *)
Theorem category_rows_in_label_order (t : table) :
  StronglySorted
    (fun a b => String.leb (CategoryAnalysis.Category a) (CategoryAnalysis.Category b) = true)
    (category_analysis t)
  /\ NoDup (map CategoryAnalysis.Category (category_analysis t))
  /\ forall c, In c (map CategoryAnalysis.Category (category_analysis t))
               <-> exists i, In i t /\ category i = Some c.
Proof.
  split; [|split].
  - apply StronglySorted_map_inv
      with (f := CategoryAnalysis.Category) (R := fun a b => String.leb a b = true).
    rewrite categories_of_analysis. apply sort_keys_sorted.
  - rewrite categories_of_analysis. apply NoDup_group_keys.
  - intros c. rewrite categories_of_analysis, In_group_keys. unfold by_category_key.
    split; intros (i & I & E); exists i; (split; [exact I|congruence]).
Qed.

Lemma StronglySorted_filter {A : Type} (R : A -> A -> Prop) (keep : A -> bool)
    (l : list A) :
  StronglySorted R l -> StronglySorted R (filter keep l).
Proof.
  induction 1 as [|a l S IH F]; cbn [filter]; [constructor|].
  destruct (keep a); [|assumption]. constructor; [assumption|].
  rewrite Forall_forall in *. intros b I. apply filter_In in I. now apply F.
Qed.

Lemma max_of_list {A : Type} (f : A -> nat) (l : list A) :
  (forall a, In a l -> (f a <= fold_right Nat.max 0%nat (map f l))%nat)
  /\ (l <> [] -> exists a, In a l /\ f a = fold_right Nat.max 0%nat (map f l)).
Proof.
  induction l as [|a l [IH1 IH2]]; cbn [map fold_right].
  - split; [intros a []|congruence].
  - split.
    + intros b [<-|I]; [lia|]. specialize (IH1 b I). lia.
    + intros _. destruct l as [|a' l'].
      * exists a. split; [now left|]. cbn. lia.
      * destruct IH2 as (b & I & E); [discriminate|].
        destruct (Nat.le_ge_cases (f a) (fold_right Nat.max 0%nat (map f (a' :: l')))) as [L|L].
        -- exists b. split; [now right|]. lia.
        -- exists a. split; [now left|]. lia.
Qed.

Lemma string_leb_refl (s : string) : String.leb s s = true.
Proof. destruct (String.leb_total s s); assumption. Qed.

Lemma count_of_pos (x : string) (xs : list string) :
  In x xs -> (1 <= count_of x xs)%nat.
Proof.
  unfold count_of. induction xs as [|y xs IH]; intros I; [destruct I|].
  cbn [filter]. destruct (String.eqb x y) eqn:E; [simpl; lia|].
  destruct I as [->|I]; [now rewrite String.eqb_refl in E|now apply IH].
Qed.

(** The first mode: a value of the list, as frequent as any, and the least
    of the most frequent ones. *)
Lemma mode_first_spec (xs : list string) :
  xs <> [] ->
  In (mode_first xs) xs
  /\ (forall y, (count_of y xs <= count_of (mode_first xs) xs)%nat)
  /\ (forall y, count_of y xs = count_of (mode_first xs) xs ->
                String.leb (mode_first xs) y = true).
Proof.
  intros NE. unfold mode_first.
  set (keys := sort_keys (unique xs)).
  assert (K : forall k, In k keys <-> In k xs).
  { intros k. unfold keys, unique. rewrite <- (nodup_In string_dec xs k).
    split; apply Permutation_in; [|symmetry]; apply sort_keys_perm. }
  assert (KN : keys <> []).
  { destruct xs as [|x xs']; [congruence|].
    intros Z. assert (I : In x keys) by (apply K; now left). rewrite Z in I. destruct I. }
  destruct (max_of_list (fun k => count_of k xs) keys) as [M1 M2].
  destruct (M2 KN) as (k1 & I1 & E1).
  set (top := fold_right Nat.max 0%nat (map (fun k => count_of k xs) keys)) in *.
  pose proof (StronglySorted_filter _ (fun k => Nat.eqb (count_of k xs) top) keys
                (sort_keys_sorted (unique xs))) as S.
  fold keys in S.
  assert (In1 : In k1 (filter (fun k => Nat.eqb (count_of k xs) top) keys)).
  { apply filter_In. split; [exact I1|]. now apply Nat.eqb_eq. }
  destruct (filter (fun k => Nat.eqb (count_of k xs) top) keys) as [|k0 rest] eqn:F;
    [destruct In1|].
  assert (I0 : In k0 (k0 :: rest)) by now left.
  rewrite <- F in I0. apply filter_In in I0. destruct I0 as [I0 C0].
  apply Nat.eqb_eq in C0.
  assert (Pos : (1 <= top)%nat).
  { rewrite <- C0. apply count_of_pos. now apply K. }
  split; [now apply K|]. split.
  - intros y. rewrite C0.
    destruct (in_dec string_dec y xs) as [Iy|Ny].
    + apply M1. now apply K.
    + unfold count_of. rewrite filter_none; [simpl; lia|].
      intros z Iz. apply String.eqb_neq. congruence.
  - intros y Ey. rewrite C0 in Ey.
    assert (Iy : In y xs).
    { destruct (in_dec string_dec y xs) as [Iy|Ny]; [exact Iy|].
      exfalso. unfold count_of in Ey. rewrite filter_none in Ey; [simpl in Ey; lia|].
      intros z Iz. apply String.eqb_neq. congruence. }
    assert (Fy : In y (k0 :: rest)).
    { rewrite <- F. apply filter_In. split; [now apply K|]. now apply Nat.eqb_eq. }
    destruct Fy as [<-|Fy]; [apply string_leb_refl|].
    apply StronglySorted_inv in S. destruct S as [_ Fa].
    rewrite Forall_forall in Fa. now apply Fa.
Qed.

Lemma In_dropna_map {A B : Type} (f : A -> option B) (l : list A) (y : B) :
  In y (dropna (map f l)) <-> exists x, In x l /\ f x = Some y.
Proof.
  induction l as [|x l IH]; cbn [map dropna].
  - split; [intros []|intros (x & [] & _)].
  - destruct (f x) as [v|] eqn:E; cbn [In]; rewrite IH; split.
    + intros [<-|(z & I & F)]; [exists x; auto|exists z; auto].
    + intros (z & [<-|I] & F); [left; congruence|right; eauto].
    + intros (z & I & F). eauto.
    + intros (z & [<-|I] & F); [congruence|eauto].
Qed.

(** X13: the most common severity of a row of the recurrence frame is a
    severity of a recurring incident of that category; no severity occurs
    on more of the category's recurring incidents, and among equally
    frequent severities it is the least label.  When none of these
    incidents has a severity, the row says "N/A". *)
Theorem most_common_severity `{ArgSort} (t : table) (r : CategoryRecurrence.row) :
  In r (category_recurrence (filter is_yes t)) ->
  let g := filter is_yes (group_of by_category_key t (CategoryRecurrence.Category r)) in
  let severities := dropna (map severity g) in
  let occurrences := fun s => count_of s severities in
  let top := CategoryRecurrence.Most_Common_Severity r in
  (severities = [] -> top = "N/A"%string)
  /\ (severities <> [] ->
      (exists i, In i t /\ recurrence i = Some "Yes"%string
                 /\ category i = Some (CategoryRecurrence.Category r)
                 /\ severity i = Some top)
      /\ (forall s, (occurrences s <= occurrences top)%nat)
      /\ (forall s, occurrences s = occurrences top -> String.leb top s = true)).
Proof.
  intros I. apply In_category_recurrence in I. destruct I as (k & K & ->).
  cbn [recurrence_row CategoryRecurrence.Category CategoryRecurrence.Most_Common_Severity].
  rewrite group_of_filter.
  set (g := filter is_yes (group_of by_category_key t k)).
  split.
  - intros Z. rewrite Z. reflexivity.
  - intros NE.
    destruct (mode_first_spec (dropna (map severity g)) NE) as (M1 & M2 & M3).
    split; [|split; assumption].
    apply In_dropna_map in M1. destruct M1 as (i & J & E).
    unfold g in J. apply filter_In in J. destruct J as [J Y].
    apply In_group_of in J. destruct J as [J C].
    exists i. split; [exact J|]. split; [now apply is_yes_iff|].
    split; [exact C|exact E].
Qed.

Lemma most_common_severity_witness :
  exists r,
    In r (category_recurrence (H := stable_argsort) (filter is_yes Samples.table_AB))
    /\ exists i, In i Samples.table_AB
                 /\ severity i = Some (CategoryRecurrence.Most_Common_Severity r).
Proof.
  eexists. split; [vm_compute; left; reflexivity|].
  destruct (most_common_severity (H := stable_argsort) Samples.table_AB
              (recurrence_row "A" (group_of by_category_key
                                     (filter is_yes Samples.table_AB) "A")))
    as (_ & M).
  { vm_compute. left. reflexivity. }
  destruct M as ((i & I & _ & _ & E) & _); [vm_compute; discriminate|].
  exists i. split; assumption.
Defined.

(** ** The severity distribution *)

Import Method Layout Report Summary Trace.






(** ** What printing leaves alone *)






Section Yields.

Variable s0 : Session.









End Yields.

(** ** The report *)






(** ** The run *)






(** Unfolds the run up to the next call that needs a fact about the table. *)
Ltac run_step :=
  cbv beta iota zeta delta
    [run_complete_analysis main bind say load_data get new set_df lift
     generate_severity_distribution identify_high_risk_categories
     calculate_resolution_metrics detect_recurring_issues ret fail raise
     data_path analyzer severity_distribution df risk_summary stdout csv_files
     print init set_summary empty_summary
     high_risk_categories resolution_by_category resolution_by_severity
     recurring_by_category top_recurring_root_causes].








(** ** The program *)

(** X16: when the data file cannot be read, the run prints the start line
    and the error line and fails with the error of the read: a missing
    file as [FileNotFoundError], anything else as the exception it was.  No
    analysis runs, nothing is stored, and [main] writes no register. *)
Theorem loading_failure_stops_the_run `{ArgSort} (fs : file_system)
    (now today path : string) (e : read_failure) :
  fs path = inr e ->
  let r := run_complete_analysis fs now (new path) in
  let error := match e with
               | FileNotFound => FileNotFoundError
               | ReadError msg => Exception msg
               end in
  (fst r = Failed error
   /\ df (analyzer (snd r)) = None
   /\ risk_summary (analyzer (snd r)) = empty_summary
   /\ severity_distribution (snd r) = None
   /\ stdout (analyzer (snd r))
      = [ (nl ++ "🔍 Starting Risk & Quality Issue Analysis..." ++ nl)%string;
          match e with
          | FileNotFound => ("✗ Error: File not found at " ++ path)%string
          | ReadError msg => ("✗ Error loading data: " ++ msg)%string
          end ])
  /\ (path = data_file ->
      fst (main fs now today) = Failed error
      /\ csv_files (analyzer (snd (main fs now today))) = []).
Proof.
  intros F r error. subst r error. split.
  - unfold run_complete_analysis. run_step. rewrite F.
    destruct e; repeat split.
  - intros ->. unfold main, run_complete_analysis. run_step. rewrite F.
    destruct e; split; reflexivity.
Qed.

Lemma loading_failure_stops_the_run_witness :
  let fs : file_system := fun _ => inr FileNotFound in
  fs data_file = inr FileNotFound
  /\ fst (main (H := stable_argsort) fs "2026-11-04 09:00:00" "2026-11-04")
     = Failed FileNotFoundError.
Proof.
  intros fs. split; [reflexivity|].
  exact (proj1 (proj2 (loading_failure_stops_the_run (H := stable_argsort) fs
                         "2026-11-04 09:00:00" "2026-11-04" data_file FileNotFound
                         eq_refl) eq_refl)).
Defined.





(** ** The recommendations *)



(** ** Before the table is loaded *)

(** X19: on an analyzer whose table has not been loaded, every analysis
    method fails and changes nothing: scoring and the resolution metrics
    with an [AttributeError], the recurrence analysis, the severity
    distribution and the recommendations with a [TypeError]; the report
    fails with a [TypeError] after its five title lines. *)
Theorem analysis_before_loading `{ArgSort} (s : Session) (p : Q) (now : string) :
  df (analyzer s) = None ->
  identify_high_risk_categories p (analyzer s) = (Raises no_groupby, analyzer s)
  /\ calculate_resolution_metrics (analyzer s) = (Raises no_groupby, analyzer s)
  /\ detect_recurring_issues (analyzer s) = (Raises not_subscriptable, analyzer s)
  /\ generate_severity_distribution s = (Failed (Raised not_subscriptable), s)
  /\ _generate_recommendations s = (Failed (Raised not_subscriptable), s)
  /\ print_executive_summary now s
     = (Failed (Raised (TypeError "object of type 'NoneType' has no len()")),
        add_lines [ rule "="; "EXECUTIVE RISK SUMMARY REPORT"%string; rule "=";
                    ("Report Generated: " ++ now)%string;
                    "Analysis Period: All Available Data"%string ] s).
Proof.
  intros D.
  unfold identify_high_risk_categories, calculate_resolution_metrics,
    detect_recurring_issues, generate_severity_distribution, _generate_recommendations,
    print_executive_summary, bind, get, say, raise.
  cbn [analyzer df print]. rewrite D.
  repeat split. unfold add_lines, print.
  cbn [analyzer data_path severity_distribution df risk_summary stdout csv_files].
  rewrite <- !app_assoc. reflexivity.
Qed.

Lemma analysis_before_loading_witness :
  df (analyzer (new data_file)) = None
  /\ generate_severity_distribution (new data_file)
     = (Failed (Raised not_subscriptable), new data_file).
Proof.
  split; [reflexivity|].
  exact (proj1 (proj2 (proj2 (proj2
           (analysis_before_loading (H := stable_argsort) (new data_file) 75
              "2026-11-04 09:00:00" eq_refl))))).
Defined.

(** ** Bounds on the category metrics *)

Lemma np_round_integer (d : nat) (z : Z) : np_round d (inject_Z z) == inject_Z z.
Proof.
  destruct (np_round_bounds d (inject_Z z) z z) as [L U]; try apply Qle_refl.
  now apply Qle_antisym.
Qed.

Lemma severity_weight_range (s : string) (w : Q) :
  severity_weights s = Some w -> 1 <= w <= 4.
Proof.
  unfold severity_weights.
  repeat match goal with
         | |- context [String.eqb ?a ?b] => destruct (String.eqb a b)
         end; intros E; inversion E; subst; split; discriminate.
Qed.

Lemma sum_nonneg (l : list Q) : (forall y, In y l -> 0 <= y) -> 0 <= sum l.
Proof.
  induction l as [|y l IH]; intros N; [apply Qle_refl|].
  change (sum (y :: l)) with (y + sum l).
  pose proof (N y (or_introl eq_refl)). 
  assert (0 <= sum l) by (apply IH; intros z I; apply N; now right). lra.
Qed.

Lemma weight_of_range (severity : option string) (w : Q) :
  weight_of severity = Some w -> 1 <= w <= 4.
Proof.
  destruct severity as [s|]; [apply severity_weight_range|discriminate].
Qed.

(** X20: in every row of the category metrics the average severity, when
    there is one, lies between 1 and 4; and when no resolution time of the
    table is negative, the average resolution time, when there is one, is
    not negative and the risk score is at least the number of incidents of
    the category. *)
Theorem category_metrics_range (t : table) (row : CategoryAnalysis.row) :
  In row (category_analysis t) ->
  (forall s, CategoryAnalysis.Avg_Severity_Score row = Some s -> 1 <= s <= 4)
  /\ ((forall i x, In i t -> resolution_time_hours i = Some x -> 0 <= x) ->
      (forall h, CategoryAnalysis.Avg_Resolution_Hours row = Some h -> 0 <= h)
      /\ forall x, CategoryAnalysis.Risk_Score row = Some x ->
                   of_nat (CategoryAnalysis.Incident_Count row) <= x).
Proof.
  intros I. apply In_category_analysis in I. destruct I as (k & K & ->).
  set (g := group_of by_category_key t k) in *.
  cbn [category_row CategoryAnalysis.Avg_Severity_Score CategoryAnalysis.Risk_Score
       CategoryAnalysis.Avg_Resolution_Hours CategoryAnalysis.Incident_Count].
  assert (Sev : forall s,
            round_cell 2 (mean (map (fun r => weight_of (severity r)) g)) = Some s ->
            1 <= s <= 4).
  { intros s E. unfold mean in E.
    destruct (dropna (map (fun r => weight_of (severity r)) g)) as [|x xs] eqn:D;
      [discriminate E|].
    cbn [round_cell option_map] in E. inversion E as [E']. clear E E'.
    apply (np_round_bounds 2 _ 1 4);
      apply (mean_total_bounds 1 4 (x :: xs)); try discriminate;
      intros y J; rewrite <- D in J; apply In_dropna, in_map_iff in J;
      destruct J as (r & W & _); now apply weight_of_range in W. }
  split; [exact Sev|].
  intros N.
  assert (Hrs : forall h,
            round_cell 2 (mean (map resolution_time_hours g)) = Some h -> 0 <= h).
  { intros h E. unfold mean in E.
    destruct (dropna (map resolution_time_hours g)) as [|x xs] eqn:D;
      [discriminate E|].
    cbn [round_cell option_map] in E. inversion E as [E']. clear E E'.
    apply (Qle_trans _ (np_round 2 (inject_Z 0))).
    - rewrite np_round_integer. apply Qle_refl.
    - apply np_round_mono. apply Qle_shift_div_l.
      + apply of_nat_pos. simpl. lia.
      + rewrite Qmult_0_l. apply (sum_nonneg (x :: xs)). intros y J. rewrite <- D in J.
        apply In_dropna, in_map_iff in J. destruct J as (i & Ei & J).
        apply (N i y); [|exact Ei]. apply In_group_of in J. tauto. }
  split; [exact Hrs|].
  intros x E.
  destruct (round_cell 2 (mean (map (fun r => weight_of (severity r)) g)))
    as [s|] eqn:S; [|discriminate E].
  destruct (Sev s eq_refl) as [S1 S4].
  set (n := count (map incident_id g)) in *.
  unfold div_counts in E.
  destruct n as [|n'] eqn:En;
    [destruct (length (filter is_yes g)); discriminate E|].
  rewrite <- En in *. cbn [xmap] in E.
  destruct (round_cell 2 (mean (map resolution_time_hours g))) as [h|] eqn:Hh;
    [|discriminate E].
  pose proof (Hrs h eq_refl) as H0.
  inversion E as [E']. clear E E'.
  set (r := length (filter is_yes g)) in *.
  assert (R0 : 0 <= np_round 1 (of_nat r / of_nat n * 100)).
  { apply (Qle_trans _ (np_round 1 (inject_Z 0))).
    - rewrite np_round_integer. apply Qle_refl.
    - apply np_round_mono.
      pose proof (of_nat_nonneg r) as Rn.
      assert (Pn : 0 < of_nat n) by (apply of_nat_pos; lia).
      assert (D0 : 0 <= of_nat r / of_nat n) by (apply Qle_shift_div_l; lra).
      change (inject_Z 0) with 0. nra. }
  set (rate := np_round 1 (of_nat r / of_nat n * 100)) in *.
  pose proof (of_nat_nonneg n) as N0.
  apply (Qle_trans _ (np_round 2 (inject_Z (Z.of_nat n)))).
  - rewrite np_round_integer. apply Qle_refl.
  - apply np_round_mono. fold (of_nat n).
    change (rate / 100) with (rate * (1 # 100)). change (h / 10) with (h * (1 # 10)).
    assert (A1 : of_nat n <= of_nat n * s) by nra.
    assert (A2 : 0 <= of_nat n * s * (rate * (1 # 100))).
    { apply Qmult_le_0_compat; [nra|lra]. }
    nra.
Qed.

Lemma category_metrics_range_witness :
  In (category_row "A" (group_of by_category_key Samples.table_AB "A"))
     (category_analysis Samples.table_AB)
  /\ 1 <= 3 <= 4.
Proof.
  assert (I : In (category_row "A" (group_of by_category_key Samples.table_AB "A"))
                 (category_analysis Samples.table_AB)).
  { vm_compute. left. reflexivity. }
  split; [exact I|].
  exact (proj1 (category_metrics_range Samples.table_AB _ I) 3 eq_refl).
Defined.

(** ** The recurrence clause of the description *)



